(** * Polymarket copy-trading scripts: trade classification, order mirroring
      and the polling dedup ledger.

    The first part of the file embeds the code, the second part states and
    proves its properties.

    - [WebsocketListener]: [determineTradeType] of [src/websocket-listener.js];
    - [JS]: the fragment of JavaScript values, numbers and built-ins that the
      mirroring code relies on ([parseFloat], [Math.round], [Math.min],
      [Math.max], truthiness, strict equality with a string, property read);
    - [Clob]: the trading client as the scripts use it, and the monad of
      computations that log, call the client and may throw;
    - [Format]: [formatTimestamp], [formatPrice] and [formatSize] of
      [src/unnamed/part_000] (lines 42-57), as far as they can throw;
    - [Mirror] / [MirrorPlain]: the two [mirrorTrade] functions of
      [src/unnamed/part_000] (lines 101-163 and lines 496-534);
    - [JSSet], [Poller]: the [seenTrades] set, [fetchTargetActivity] and
      [pollForTrades], which are textually identical in both halves of
      [src/unnamed/part_000] (lines 197-216, 301-343 and 568-587, 589-631).

    Modelling conventions.  Strings are [string]; timestamps are [Z] (the
    activity feed delivers integer seconds); a JavaScript [Set] is the list of
    its elements in insertion order.  A JavaScript number is a binary64
    number, given by its rational value, [NaN] or an infinity: every
    arithmetic operation and every decimal-to-number conversion rounds its
    exact result to binary64 (round to nearest, ties to even, gradual
    underflow, overflow to infinity); the two zeros are one.  A value of the
    feed is a decoded JSON value; converting it to a string can throw, and
    does so for an object that carries a property named toString.  Console
    output and calls of the trading client are recorded, in program order, in
    an event trace; a console message carries the values it interpolates
    instead of their rendered text.  An exception that leaves [pollForTrades]
    is an unhandled promise rejection, which ends the process.

    Further code is embedded after these modules: the call protocol of
    [mirrorTrade] ([MirrorFlow]), whole runs of the poller ([PollerFlow]),
    the event handler of the listener ([ListenerFlow]),
    [getOutcomeFromTokenId] with its cache and its three endpoints
    ([OutcomeResolver]), [validateConfig] ([Config]) and the quoted fields of
    the CSV dump ([CsvExport]). *)

From Stdlib Require Import List Sorted String Ascii Bool ZArith QArith Qround Qabs Qpower.
From Stdlib Require Import Lia Lqa Arith.
From Stdlib Require Import DecimalString DecimalNat DecimalN FinFun Permutation.
Import ListNotations.

Local Open Scope string_scope.
Set Warnings "-register-all".

(* ===================================================================== *)
(** * websocket-listener.js                                               *)
(* ===================================================================== *)

Module WebsocketListener.

(** [String.prototype.toLowerCase] on the ASCII range, which is where
    hexadecimal account addresses live. *)
Definition lowerAscii (c : ascii) : ascii :=
  let n := nat_of_ascii c in
  if (65 <=? n)%nat && (n <=? 90)%nat then ascii_of_nat (n + 32) else c.

Fixpoint toLowerCase (s : string) : string :=
  match s with
  | EmptyString => EmptyString
  | String c rest => String (lowerAscii c) (toLowerCase rest)
  end.

(** [const TARGET_ADDRESS = '0xa945...BaE6'.toLowerCase();] *)
Definition TARGET_ADDRESS : string :=
  toLowerCase "0xa9456cecF9d6fb545F6408E0e2DbBFA307d7BaE6".

(** The fields of the [trade] object built by [handleOrderFilled]; the asset
    ids and amounts are the decimal strings produced by [.toString()]. *)
Record RawFillEvent := mkRawFillEvent {
  blockNumber : Z;
  txHash : string;
  orderHash : string;
  maker : string;
  taker : string;
  makerAssetId : string;
  takerAssetId : string;
  makerAmountFilled : string;
  takerAmountFilled : string;
  fee : string
}.

Inductive TradeType := BUY | SELL | UNKNOWN.

Definition ZERO_ASSET : string := "0".

Definition determineTradeType (trade : RawFillEvent) : TradeType :=
  let targetLower := toLowerCase TARGET_ADDRESS in
  let makerLower := toLowerCase (maker trade) in
  let takerLower := toLowerCase (taker trade) in
  let isMaker := String.eqb makerLower targetLower in
  let isTaker := String.eqb takerLower targetLower in
  if isMaker then
    if String.eqb (makerAssetId trade) ZERO_ASSET then BUY else SELL
  else if isTaker then
    if String.eqb (takerAssetId trade) ZERO_ASSET then SELL else BUY
  else UNKNOWN.

(** Case-insensitive equality of two addresses, as the source decides it. *)
Definition sameAddress (a b : string) : Prop := toLowerCase a = toLowerCase b.

Definition targetIsMaker (trade : RawFillEvent) : Prop :=
  sameAddress (maker trade) TARGET_ADDRESS.

Definition targetIsTaker (trade : RawFillEvent) : Prop :=
  sameAddress (taker trade) TARGET_ADDRESS.

(** A fill whose only interesting fields are the two parties and the two
    asset ids. *)
Definition fill (mk tk mkAsset tkAsset : string) : RawFillEvent :=
  mkRawFillEvent 0 "0xtx" "0xorder" mk tk mkAsset tkAsset "1000000" "2000000" "0".

End WebsocketListener.

(* ===================================================================== *)
(** * The JavaScript fragment used by the mirroring code                  *)
(* ===================================================================== *)

Module JS.

(** Numbers.  A JavaScript number is a binary64 floating-point number:
    [Fin q] is the finite number of value [q], and the arithmetic below
    rounds every exact result to binary64 with [round64].  The two zeros are
    the one [Fin 0]: the code modelled here divides by literals only and
    never looks at the sign of a zero. *)
Inductive JSNumber :=
| NaN
| PosInf
| NegInf
| Fin (q : Q).

(** Values: what [JSON.parse] produces, and [undefined] for an absent
    property. *)
Inductive JSValue :=
| JUndefined
| JNull
| JBool (b : bool)
| JNum (n : JSNumber)
| JStr (s : string)
| JArr (items : list JSValue)
| JObj (fields : list (string * JSValue)).

(** ToBoolean. *)
Definition truthy (v : JSValue) : bool :=
  match v with
  | JUndefined | JNull => false
  | JBool b => b
  | JNum NaN => false
  | JNum (Fin q) => negb (Qeq_bool q 0)
  | JNum _ => true
  | JStr s => negb (String.eqb s "")
  | JArr _ | JObj _ => true
  end.

(** [a || b] on values. *)
Definition orElse (a b : JSValue) : JSValue := if truthy a then a else b.

(** [v === 'lit'] for a string literal. *)
Definition strictEqStr (v : JSValue) (lit : string) : bool :=
  match v with
  | JStr s => String.eqb s lit
  | _ => false
  end.

(** A thrown value, as the catch blocks read it: [error.message] and
    [error.response?.data].  What is thrown is an object (the runtime and
    the client library throw Error objects); a thrown [null] or [undefined],
    on which reading [error.message] would itself throw, is not modelled. *)
Record JSError := mkJSError {
  message : string;
  response_data : JSValue
}.

Definition TypeError (msg : string) : JSError := mkJSError msg JUndefined.
Definition RangeError (msg : string) : JSError := mkJSError msg JUndefined.

(** Sequencing of steps that may throw. *)
Definition andThen {A B} (r : JSError + A) (k : A -> JSError + B) : JSError + B :=
  match r with
  | inl e => inl e
  | inr a => k a
  end.

(** Property read [v.name]: throws on [undefined] and [null], yields
    [undefined] on a primitive, on an array (for the names read here) and on
    an object without the property. *)
Fixpoint lookupField (name : string) (fields : list (string * JSValue)) : JSValue :=
  match fields with
  | [] => JUndefined
  | (k, v) :: rest => if String.eqb k name then v else lookupField name rest
  end.

Definition getProp (v : JSValue) (name : string) : JSError + JSValue :=
  match v with
  | JUndefined | JNull => inl (TypeError "Cannot read properties of undefined")
  | JObj fields => inr (lookupField name fields)
  | _ => inr JUndefined
  end.

(** ** ToString *)

Definition hasOwn (name : string) (fields : list (string * JSValue)) : bool :=
  existsb (fun kv => String.eqb (fst kv) name) fields.

(** Whether ToString(v) returns.  A primitive always has a text.  A decoded
    object has no method of its own: its text is [object Object], from
    Object.prototype.toString, unless a property named toString hides that
    method; then neither that property nor valueOf yields a primitive, and
    the conversion throws a TypeError.  An array joins the texts of its
    elements. *)
Fixpoint renderable (v : JSValue) : bool :=
  match v with
  | JObj fields => negb (hasOwn "toString" fields)
  | JArr items => forallb renderable items
  | _ => true
  end.

(** A substitution [${v}] of a template literal, as far as it can fail; the
    text it produces is not part of the model. *)
Definition interpolate (v : JSValue) : JSError + unit :=
  if renderable v then inr tt
  else inl (TypeError "Cannot convert object to primitive value").

(** ** binary64 *)

Definition pow2 (e : Z) : Q := Qpower 2 e.

(** The exponent of a positive rational: [2^e <= x < 2^(e+1)]. *)
Definition ilog2 (x : Q) : Z :=
  let g := (Z.log2 (Qnum x) - Z.log2 (Zpos (Qden x)))%Z in
  if Qle_bool (pow2 g) x then g else (g - 1)%Z.

(** The nearest integer, a tie going to the even one. *)
Definition halfEven (s : Q) : Z :=
  let f := Qfloor s in
  match (s - inject_Z f ?= 1 # 2)%Q with
  | Lt => f
  | Gt => (f + 1)%Z
  | Eq => if Z.even f then f else (f + 1)%Z
  end.

(** Round to nearest, ties to even, of a positive rational: 53 significant
    bits, no exponent below -1074 (gradual underflow), and overflow (no
    value) once the rounded magnitude reaches 2^1024. *)
Definition roundPositive (a : Q) : option Q :=
  let e := Z.max (ilog2 a - 52) (-1074) in
  let r := (inject_Z (halfEven (a / pow2 e)) * pow2 e)%Q in
  if Qle_bool (pow2 1024) r then None else Some (Qred r).

(** The Number value for a rational. *)
Definition round64 (x : Q) : JSNumber :=
  match (x ?= 0)%Q with
  | Eq => Fin 0
  | Gt => match roundPositive (Qred x) with
          | Some r => Fin r
          | None => PosInf
          end
  | Lt => match roundPositive (Qred (- x)) with
          | Some r => Fin (- r)
          | None => NegInf
          end
  end.

(** ** Arithmetic *)

Definition jsMul (x y : JSNumber) : JSNumber :=
  match x, y with
  | NaN, _ | _, NaN => NaN
  | Fin a, Fin b => round64 (a * b)%Q
  | Fin a, PosInf | PosInf, Fin a =>
      match (a ?= 0)%Q with Gt => PosInf | Lt => NegInf | Eq => NaN end
  | Fin a, NegInf | NegInf, Fin a =>
      match (a ?= 0)%Q with Gt => NegInf | Lt => PosInf | Eq => NaN end
  | PosInf, PosInf | NegInf, NegInf => PosInf
  | PosInf, NegInf | NegInf, PosInf => NegInf
  end.

(** Division.  The mirroring code divides by the literals 1000 and 100
    only, so the sign of a zero divisor never matters. *)
Definition jsDiv (x y : JSNumber) : JSNumber :=
  match x, y with
  | NaN, _ | _, NaN => NaN
  | Fin a, Fin b =>
      if Qeq_bool b 0
      then match (a ?= 0)%Q with Gt => PosInf | Lt => NegInf | Eq => NaN end
      else round64 (a / b)%Q
  | Fin _, (PosInf | NegInf) => Fin 0
  | PosInf, Fin b => match (b ?= 0)%Q with Lt => NegInf | _ => PosInf end
  | NegInf, Fin b => match (b ?= 0)%Q with Lt => PosInf | _ => NegInf end
  | _, _ => NaN
  end.

(** [Math.round]: the integer nearest to [x], a tie going towards
    +infinity; the sum below is the exact one. *)
Definition Math_round (x : JSNumber) : JSNumber :=
  match x with
  | Fin q => Fin (inject_Z (Qfloor (q + (1 # 2))%Q))
  | other => other
  end.

Definition Math_min (x y : JSNumber) : JSNumber :=
  match x, y with
  | NaN, _ | _, NaN => NaN
  | NegInf, _ | _, NegInf => NegInf
  | PosInf, o | o, PosInf => o
  | Fin a, Fin b => if Qle_bool a b then Fin a else Fin b
  end.

Definition Math_max (x y : JSNumber) : JSNumber :=
  match x, y with
  | NaN, _ | _, NaN => NaN
  | PosInf, _ | _, PosInf => PosInf
  | NegInf, o | o, NegInf => o
  | Fin a, Fin b => if Qle_bool a b then Fin b else Fin a
  end.

(** ** parseFloat *)

Definition isWhiteSpace (c : ascii) : bool :=
  let n := nat_of_ascii c in
  (n =? 32)%nat || ((9 <=? n)%nat && (n <=? 13)%nat).

Fixpoint trimStart (s : string) : string :=
  match s with
  | String c rest => if isWhiteSpace c then trimStart rest else s
  | EmptyString => s
  end.

Definition digitValue (c : ascii) : option Z :=
  let n := nat_of_ascii c in
  if (48 <=? n)%nat && (n <=? 57)%nat then Some (Z.of_nat (n - 48)) else None.

(** Reads the leading decimal digits of [s]: their value on top of [acc],
    how many were read on top of [count], and the unread rest. *)
Fixpoint readDigits (s : string) (acc : Z) (count : nat) : Z * nat * string :=
  match s with
  | String c rest =>
      match digitValue c with
      | Some d => readDigits rest (acc * 10 + d) (S count)
      | None => (acc, count, s)
      end
  | EmptyString => (acc, count, s)
  end.

Definition readSign (s : string) : bool * string :=
  match s with
  | String "-" rest => (true, rest)
  | String "+" rest => (false, rest)
  | _ => (false, s)
  end.

Definition readExponent (s : string) : Z :=
  match s with
  | String c rest =>
      if Ascii.eqb c "e" || Ascii.eqb c "E" then
        let '(neg, rest1) := readSign rest in
        let '(e, n, _) := readDigits rest1 0 0 in
        match n with
        | O => 0
        | S _ => if neg then - e else e
        end
      else 0
  | EmptyString => 0
  end%Z.

(** The longest prefix of [s] that is an unsigned StrDecimalLiteral: no
    such prefix, Infinity, or the decimal value of the prefix. *)
Inductive Numeral :=
| NoNumeral
| InfinityLiteral
| Decimal (mv : Q).

Definition readUnsigned (s : string) : Numeral :=
  if String.prefix "Infinity" s then InfinityLiteral else
  let '(ip, ni, r1) := readDigits s 0 0 in
  let '(fp, nf, r2) :=
    match r1 with
    | String "." r => readDigits r 0 0
    | _ => (0%Z, O, r1)
    end in
  match (ni + nf)%nat with
  | O => NoNumeral
  | S _ =>
      let scale := (10 ^ Z.of_nat nf)%Z in
      let mantissa := Qmake (ip * scale + fp) (Z.to_pos scale) in
      Decimal (mantissa * Qpower (10 # 1) (readExponent r2))%Q
  end.

Definition jsNeg (x : JSNumber) : JSNumber :=
  match x with
  | NaN => NaN
  | PosInf => NegInf
  | NegInf => PosInf
  | Fin q => Fin (- q)
  end.

(** [parseFloat] of a string: the decimal value of the prefix, rounded to
    binary64. *)
Definition parseFloatString (s : string) : JSNumber :=
  let '(neg, rest) := readSign (trimStart s) in
  let n := match readUnsigned rest with
           | NoNumeral => NaN
           | InfinityLiteral => PosInf
           | Decimal mv => round64 mv
           end in
  if neg then jsNeg n else n.

(** What [parseFloat] reads in the text of a value whose ToString returns.
    The text of a number reads back as that number; the text of an array
    starts with the text of its first element and goes on, if at all, with
    a comma, which ends every numeral; the texts of the other values
    ([undefined], [null], [true], [false], [object Object]) start with no
    numeral. *)
Fixpoint parseFloatValue (v : JSValue) : JSNumber :=
  match v with
  | JNum n => n
  | JStr s => parseFloatString s
  | JArr (first :: _) => parseFloatValue first
  | _ => NaN
  end.

(** [parseFloat(v)]: ToString(v), which may throw, then the scan. *)
Definition parseFloat (v : JSValue) : JSError + JSNumber :=
  if renderable v then inr (parseFloatValue v)
  else inl (TypeError "Cannot convert object to primitive value").

(** Order on numbers, for stating bounds; nothing compares with [NaN]. *)
Definition jsLe (x y : JSNumber) : Prop :=
  match x, y with
  | NaN, _ | _, NaN => False
  | NegInf, _ | _, PosInf => True
  | Fin a, Fin b => (a <= b)%Q
  | _, _ => False
  end.

Definition isFinite (x : JSNumber) : bool :=
  match x with Fin _ => true | _ => false end.

End JS.

(* ===================================================================== *)
(** * The trading client and the event trace                              *)
(* ===================================================================== *)

Module Clob.
Import JS.

(** [Side] and [OrderType] of the client library, as far as the source
    names their members. *)
Inductive Side := BUY | SELL.
Inductive OrderType := GTC | IOC.

Module OrderParams.
Record t := mk {
  tokenID : JSValue;
  side : Side;
  size : JSNumber;
  price : JSNumber;
  feeRateBps : option Z
}.
End OrderParams.

(** The authenticated client.  Each method either throws or returns a
    JavaScript value; the signed order and the submission result are opaque
    values of the remote service. *)
Record ClobClient := mkClobClient {
  createOrder : OrderParams.t -> JSError + JSValue;
  postOrder : JSValue -> OrderType -> JSError + JSValue
}.

(** What a console line says. *)
Inductive Message :=
| MsgMissingFields
| MsgFieldValues (asset side size price : JSValue)
| MsgMirroring
| MsgTokenId (asset : JSValue)
| MsgSideSizePrice (side size price : JSValue)
| MsgCreatingOrder (params : OrderParams.t)
| MsgPosting
| MsgOrder (order : JSValue)
| MsgOrderExecuted (result : JSValue)
| MsgOrderFailed (result : JSValue)
| MsgOrderPlaced
| MsgOrderId (id : JSValue)
| MsgStatus (status : JSValue)
| MsgFailedToMirror (msg : string)
| MsgApiError (data : JSValue)
| MsgFullError (error : JSError).

Inductive Event :=
| ConsoleLog (m : Message)
| ConsoleError (m : Message)
| CallCreateOrder (params : OrderParams.t)
| CallPostOrder (order : JSValue) (orderType : OrderType).

(** ** Computations that log, call the client and may throw *)

Definition M (A : Type) : Type := list Event * (JSError + A).

Definition ret {A} (a : A) : M A := ([], inr a).

Definition bind {A B} (m : M A) (k : A -> M B) : M B :=
  match m with
  | (tr, inl e) => (tr, inl e)
  | (tr, inr a) => let '(tr', r) := k a in ((tr ++ tr')%list, r)
  end.

Definition emit (e : Event) : M unit := ([e], inr tt).

Definition throw {A} (e : JSError) : M A := ([], inl e).

Definition lift {A} (r : JSError + A) : M A := ([], r).

(** [try { body } catch (error) { handler }] *)
Definition tryCatch {A} (body : M A) (handler : JSError -> M A) : M A :=
  match body with
  | (tr, inl e) => let '(tr', r) := handler e in ((tr ++ tr')%list, r)
  | ok => ok
  end.

Declare Scope js_scope.
Delimit Scope js_scope with js.
Notation "x <- m ;; k" := (bind m (fun x => k))
  (at level 61, m at next level, right associativity) : js_scope.
Notation "m ;; k" := (bind m (fun _ => k))
  (at level 61, right associativity) : js_scope.

(** [clobClient.createOrder(p)] and [clobClient.postOrder(o, t)] on the
    module-level [clobClient], which is [null] until [setupClobClient] ran. *)
Definition callCreateOrder (clobClient : option ClobClient)
    (p : OrderParams.t) : M JSValue :=
  match clobClient with
  | None => throw (TypeError "Cannot read properties of null (reading 'createOrder')")
  | Some c => bind (emit (CallCreateOrder p)) (fun _ => lift (createOrder c p))
  end.

Definition callPostOrder (clobClient : option ClobClient)
    (order : JSValue) (ty : OrderType) : M JSValue :=
  match clobClient with
  | None => throw (TypeError "Cannot read properties of null (reading 'postOrder')")
  | Some c => bind (emit (CallPostOrder order ty)) (fun _ => lift (postOrder c order ty))
  end.

(** The input of [mirrorTrade]. *)
Record TradeData := mkTradeData {
  asset : JSValue;
  side : JSValue;
  size : JSValue;
  price : JSValue
}.

(** Observations on a finished run. *)
Definition isNetworkCall (e : Event) : bool :=
  match e with
  | CallCreateOrder _ | CallPostOrder _ _ => true
  | _ => false
  end.

Definition trace {A} (m : M A) : list Event := fst m.

Definition noNetworkCall {A} (m : M A) : Prop :=
  forall e, In e (trace m) -> isNetworkCall e = false.

Definition returned (m : M JSValue) (v : JSValue) : Prop := snd m = inr v.

Definition submittedOrders {A} (m : M A) : list OrderParams.t :=
  flat_map (fun e => match e with CallCreateOrder p => [p] | _ => [] end) (trace m).

Definition reportsSuccess {A} (m : M A) : Prop :=
  exists e, In e (trace m) /\
    match e with
    | ConsoleLog (MsgOrderExecuted _) | ConsoleLog MsgOrderPlaced => True
    | _ => False
    end.

Definition reportsFailure {A} (m : M A) : Prop :=
  exists e, In e (trace m) /\
    match e with
    | ConsoleLog (MsgOrderFailed _) | ConsoleError (MsgFailedToMirror _) => True
    | _ => False
    end.

End Clob.

(* ===================================================================== *)
(** * part_000, lines 42-57: the formatting helpers                       *)
(* ===================================================================== *)

Module Format.
Import JS.

(** The largest time value of a [Date], in milliseconds. *)
Definition maxTimeValue : Z := 8640000000000000.

(** [formatTimestamp(unixTimestamp)].  For a timestamp other than 0 the
    text comes from [new Date(unixTimestamp * 1000).toISOString()], which
    throws a RangeError when the time value is outside the range of a
    [Date]; for 0 it comes from the current time.  Only whether the call
    returns is modelled, not the text. *)
Definition formatTimestamp (unixTimestamp : Z) : JSError + unit :=
  if (unixTimestamp =? 0)%Z then inr tt
  else if (Z.abs (unixTimestamp * 1000) <=? maxTimeValue)%Z then inr tt
  else inl (RangeError "Invalid time value").

(** [formatPrice(price)] and [formatSize(size)]: [parseFloat], then 'N/A'
    or [toFixed], which returns for every number. *)
Definition formatPrice (price : JSValue) : JSError + unit :=
  andThen (parseFloat price) (fun _ => inr tt).

Definition formatSize (size : JSValue) : JSError + unit :=
  andThen (parseFloat size) (fun _ => inr tt).

End Format.

(* ===================================================================== *)
(** * part_000, lines 101-163: mirrorTrade with validation and rounding   *)
(* ===================================================================== *)

Module Mirror.
Import JS Clob Format.
Local Open Scope js_scope.

(** The literals 0.01, 0.99, 1000 and 100 as binary64 numbers. *)
Definition tickMin : JSNumber := Eval vm_compute in round64 (1 # 100).
Definition tickMax : JSNumber := Eval vm_compute in round64 (99 # 100).
Definition thousand : JSNumber := Fin (1000 # 1).
Definition hundred : JSNumber := Fin (100 # 1).

(** [Math.max(0.01, Math.min(0.99, Math.round(price * 1000) / 1000))] for
    the number [price] that [parseFloat] returned. *)
Definition roundPrice (price : JSNumber) : JSNumber :=
  let roundedPrice := jsDiv (Math_round (jsMul price thousand)) thousand in
  Math_max tickMin (Math_min tickMax roundedPrice).

(** [Math.round(size * 100) / 100] *)
Definition roundSize (size : JSNumber) : JSNumber :=
  jsDiv (Math_round (jsMul size hundred)) hundred.

Definition handler (error : JSError) : M JSValue :=
  emit (ConsoleError (MsgFailedToMirror (message error))) ;;
  (if truthy (response_data error)
   then emit (ConsoleError (MsgApiError (response_data error)))
   else ret tt) ;;
  emit (ConsoleError (MsgFullError error)) ;;
  ret JNull.

(** [!asset || !side || !size || !price] *)
Definition missingRequiredField (tradeData : TradeData) : bool :=
  negb (truthy (asset tradeData)) || negb (truthy (side tradeData))
  || negb (truthy (size tradeData)) || negb (truthy (price tradeData)).

(** The template literals of lines 107, 112 and 113 are evaluated before
    the console call that prints them, outside the try block: a field
    without a text makes the whole call throw. *)
Definition mirrorTrade (clobClient : option ClobClient)
    (tradeData : TradeData) : M JSValue :=
  let asset := asset tradeData in
  let side := side tradeData in
  let size := size tradeData in
  let price := price tradeData in
  if negb (truthy asset) || negb (truthy side)
     || negb (truthy size) || negb (truthy price)
  then
    emit (ConsoleError MsgMissingFields) ;;
    lift (interpolate asset) ;;
    lift (interpolate side) ;;
    lift (interpolate size) ;;
    lift (interpolate price) ;;
    emit (ConsoleError (MsgFieldValues asset side size price)) ;;
    ret JNull
  else
    emit (ConsoleLog MsgMirroring) ;;
    lift (interpolate asset) ;;
    emit (ConsoleLog (MsgTokenId asset)) ;;
    lift (interpolate side) ;;
    lift (interpolate size) ;;
    lift (formatPrice price) ;;
    emit (ConsoleLog (MsgSideSizePrice side size price)) ;;
    tryCatch
      (parsedPrice <- lift (parseFloat price) ;;
       let roundedPrice := roundPrice parsedPrice in
       parsedSize <- lift (parseFloat size) ;;
       let roundedSize := roundSize parsedSize in
       let orderSide := if strictEqStr side "BUY" then BUY else SELL in
       let orderParams :=
         OrderParams.mk asset orderSide roundedSize roundedPrice (Some 0%Z) in
       emit (ConsoleLog (MsgCreatingOrder orderParams)) ;;
       order <- callCreateOrder clobClient orderParams ;;
       emit (ConsoleLog MsgPosting) ;;
       emit (ConsoleLog (MsgOrder order)) ;;
       result <- callPostOrder clobClient order IOC ;;
       success <- lift (getProp result "success") ;;
       (if truthy success
        then emit (ConsoleLog (MsgOrderExecuted result))
        else emit (ConsoleLog (MsgOrderFailed result))) ;;
       ret result)
      handler.

End Mirror.

(* ===================================================================== *)
(** * part_000, lines 496-534: mirrorTrade without validation             *)
(* ===================================================================== *)

Module MirrorPlain.
Import JS Clob Format.
Local Open Scope js_scope.

Definition handler (error : JSError) : M JSValue :=
  emit (ConsoleError (MsgFailedToMirror (message error))) ;;
  (if truthy (response_data error)
   then emit (ConsoleError (MsgApiError (response_data error)))
   else ret tt) ;;
  ret JNull.

(** The template literals of lines 500 and 501 are evaluated outside the
    try block, those of lines 523 and 524 inside it. *)
Definition mirrorTrade (clobClient : option ClobClient)
    (tradeData : TradeData) : M JSValue :=
  let asset := asset tradeData in
  let side := side tradeData in
  let size := size tradeData in
  let price := price tradeData in
  emit (ConsoleLog MsgMirroring) ;;
  lift (interpolate asset) ;;
  emit (ConsoleLog (MsgTokenId asset)) ;;
  lift (interpolate side) ;;
  lift (interpolate size) ;;
  lift (formatPrice price) ;;
  emit (ConsoleLog (MsgSideSizePrice side size price)) ;;
  tryCatch
    (parsedSize <- lift (parseFloat size) ;;
     parsedPrice <- lift (parseFloat price) ;;
     let orderParams :=
       OrderParams.mk asset (if strictEqStr side "BUY" then BUY else SELL)
         parsedSize parsedPrice None in
     emit (ConsoleLog (MsgCreatingOrder orderParams)) ;;
     order <- callCreateOrder clobClient orderParams ;;
     emit (ConsoleLog MsgPosting) ;;
     result <- callPostOrder clobClient order GTC ;;
     emit (ConsoleLog MsgOrderPlaced) ;;
     orderID <- lift (getProp result "orderID") ;;
     id <- lift (getProp result "id") ;;
     lift (interpolate (orElse (orElse orderID id) (JStr "N/A"))) ;;
     emit (ConsoleLog (MsgOrderId (orElse (orElse orderID id) (JStr "N/A")))) ;;
     status <- lift (getProp result "status") ;;
     lift (interpolate (orElse status (JStr "submitted"))) ;;
     emit (ConsoleLog (MsgStatus (orElse status (JStr "submitted")))) ;;
     ret result)
    handler.

End MirrorPlain.

(* ===================================================================== *)
(** * A JavaScript Set of strings: its elements in insertion order         *)
(* ===================================================================== *)

Module JSSet.

Definition t := list string.

Definition has (seen : t) (id : string) : bool := existsb (String.eqb id) seen.

Definition add (seen : t) (id : string) : t :=
  if has seen id then seen else (seen ++ [id])%list.

Definition delete (seen : t) (id : string) : t :=
  filter (fun x => negb (String.eqb x id)) seen.

Definition size (seen : t) : Z := Z.of_nat (List.length seen).

(** [entries.slice(0, n)] for [0 <= n]. *)
Definition slice0 {A} (n : Z) (entries : list A) : list A := firstn (Z.to_nat n) entries.

(** [Array.from(set)] *)
Definition toArray (seen : t) : list string := seen.

End JSSet.

(* ===================================================================== *)
(** * part_000, lines 197-216 and 301-343: the activity poller            *)
(* ===================================================================== *)

Module Poller.
Import JS Format.

(** The fields of an activity record that the poll cycle and [logTrade]
    read.  The feed delivers the timestamp as an integer and the type, the
    asset and the transaction hash as strings; the other fields are taken as
    they come. *)
Record ActivityRecord := mkActivityRecord {
  timestamp : Z;
  type : string;
  side : JSValue;
  price : JSValue;
  size : JSValue;
  asset : string;
  transactionHash : string;
  title : JSValue;
  outcome : JSValue;
  usdcSize : JSValue;
  conditionId : JSValue;
  name : JSValue;
  pseudonym : JSValue;
  proxyWallet : JSValue
}.

(** What [fetch] hands back: a transport error, a non-ok status, or the
    decoded activity array. *)
Inductive FetchResponse :=
| FetchFailed (msg : string)
| HttpError (status : Z)
| HttpOk (activity : list ActivityRecord).

Definition fetchTargetActivity (response : FetchResponse) : list ActivityRecord :=
  match response with
  | HttpOk activity => filter (fun item => String.eqb (type item) "TRADE") activity
  | _ => []
  end.

(** [trades.sort((a, b) => b.timestamp - a.timestamp)]: [Array.prototype.sort]
    is stable, so records with equal timestamps keep their feed order. *)
Definition compareFn (a b : ActivityRecord) : Z := timestamp b - timestamp a.

Fixpoint insertSorted (a : ActivityRecord) (sorted : list ActivityRecord)
  : list ActivityRecord :=
  match sorted with
  | [] => [a]
  | b :: rest =>
      if (0 <? compareFn a b)%Z then b :: insertSorted a rest else a :: sorted
  end.

Fixpoint sortTrades (trades : list ActivityRecord) : list ActivityRecord :=
  match trades with
  | [] => []
  | a :: rest => insertSorted a (sortTrades rest)
  end.

(** [`${trade.transactionHash}-${trade.asset}`] *)
Definition tradeId (trade : ActivityRecord) : string :=
  transactionHash trade ++ "-" ++ asset trade.

(** ** logTrade *)

(** Lines 169-191.  Every line that [logTrade] prints is a template literal
    which is evaluated before it is printed; the function reaches its last
    statement, the call of [mirrorTrade], only if none of them throws.  The
    asset and the transaction hash are strings, whose substitution cannot
    throw.  The result is the argument of the [mirrorTrade] call, which is not
    awaited: what that call does does not come back to [logTrade]. *)
Definition logTrade (trade : ActivityRecord) : JSError + Clob.TradeData :=
  andThen (formatTimestamp (timestamp trade)) (fun _ =>
  andThen (interpolate (title trade)) (fun _ =>
  andThen (interpolate (outcome trade)) (fun _ =>
  andThen (interpolate (side trade)) (fun _ =>
  andThen (formatPrice (price trade)) (fun _ =>
  andThen (formatSize (size trade)) (fun _ =>
  andThen (parseFloat (orElse (usdcSize trade) (JNum (Fin 0)))) (fun _ =>
  andThen (interpolate (conditionId trade)) (fun _ =>
  andThen (interpolate
             (orElse (orElse (name trade) (pseudonym trade)) (proxyWallet trade)))
    (fun _ =>
  inr (Clob.mkTradeData (JStr (asset trade)) (side trade) (size trade)
         (price trade))))))))))).

(** ** The poll cycle *)

Record PollState := mkPollState {
  seenTrades : JSSet.t;
  lastTimestamp : Z
}.

(** Which way one iteration of the [for] loop went. *)
Inductive Outcome :=
| AlreadySeen      (* [seenTrades.has(tradeId)]: continue *)
| StaleBacklog     (* older than [lastTimestamp - 5]: add, continue *)
| Logged.          (* add, then [logTrade(trade)] *)

(** The loop as it was left: the set, the iterations made, and the
    exception that ended it, if one did. *)
Record Loop := mkLoop {
  loopSeen : JSSet.t;
  loopOutcomes : list (ActivityRecord * Outcome);
  loopThrown : option JSError
}.

(** Lines 309-331.  [lastTimestamp] is not assigned inside the loop, and
    [newTradeCount] is only incremented, never read.  Nothing catches an
    exception of [logTrade]: it ends the loop, after the id was added. *)
Fixpoint forLoop (lastTimestamp : Z) (trades : list ActivityRecord)
    (seen : JSSet.t) : Loop :=
  match trades with
  | [] => mkLoop seen [] None
  | trade :: rest =>
      let id := tradeId trade in
      if JSSet.has seen id then
        let l := forLoop lastTimestamp rest seen in
        mkLoop (loopSeen l) ((trade, AlreadySeen) :: loopOutcomes l) (loopThrown l)
      else if (timestamp trade <? lastTimestamp - 5)%Z then
        let l := forLoop lastTimestamp rest (JSSet.add seen id) in
        mkLoop (loopSeen l) ((trade, StaleBacklog) :: loopOutcomes l) (loopThrown l)
      else
        match logTrade trade with
        | inl e => mkLoop (JSSet.add seen id) [(trade, Logged)] (Some e)
        | inr _ =>
            let l := forLoop lastTimestamp rest (JSSet.add seen id) in
            mkLoop (loopSeen l) ((trade, Logged) :: loopOutcomes l) (loopThrown l)
        end
  end.

(** Lines 333-336. *)
Definition updateLastTimestamp (trades : list ActivityRecord) (lastTimestamp : Z) : Z :=
  match trades with
  | first :: _ =>
      if (lastTimestamp <? timestamp first)%Z then timestamp first else lastTimestamp
  | [] => lastTimestamp
  end.

(** Lines 338-342. *)
Definition compact (seen : JSSet.t) : JSSet.t :=
  if (10000 <? JSSet.size seen)%Z
  then let entries := JSSet.toArray seen in
       fold_left JSSet.delete (JSSet.slice0 5000 entries) seen
  else seen.

(** One cycle, observed at its program points: on entry, after the loop and
    the watermark update (line 336), and at the end (line 343).  The only
    [await] of [pollForTrades] is the fetch on its first line, and [logTrade]
    does not wait for [mirrorTrade]; so from the sort to the end a cycle runs
    without interleaving with another cycle, and a run is a sequence of
    cycles, one per fetch response, in the order in which the fetches
    resolve.  A cycle whose loop throws stops there: [thrown] is the
    exception, and [afterLoop] and [after] are both the state in which the
    cycle left the set and the watermark. *)
Record Cycle := mkCycle {
  before : PollState;
  sorted : list ActivityRecord;
  outcomes : list (ActivityRecord * Outcome);
  thrown : option JSError;
  afterLoop : PollState;
  after : PollState
}.

Definition pollCycle (st : PollState) (response : FetchResponse) : Cycle :=
  let trades := sortTrades (fetchTargetActivity response) in
  let l := forLoop (lastTimestamp st) trades (seenTrades st) in
  match loopThrown l with
  | Some e =>
      let left := mkPollState (loopSeen l) (lastTimestamp st) in
      mkCycle st trades (loopOutcomes l) (Some e) left left
  | None =>
      let ts := updateLastTimestamp trades (lastTimestamp st) in
      mkCycle st trades (loopOutcomes l) None
        (mkPollState (loopSeen l) ts) (mkPollState (compact (loopSeen l)) ts)
  end.

Definition pollForTrades (st : PollState) (response : FetchResponse) : PollState :=
  after (pollCycle st response).

(** The cycle reached line 343. *)
Definition completed (c : Cycle) : Prop := thrown c = None.

(** The records handed to [logTrade], in call order. *)
Definition logged (out : list (ActivityRecord * Outcome)) : list ActivityRecord :=
  flat_map (fun p => match snd p with Logged => [fst p] | _ => [] end) out.

(** The records that passed the has-check and were added to the set. *)
Definition inserted (out : list (ActivityRecord * Outcome)) : list ActivityRecord :=
  flat_map (fun p => match snd p with AlreadySeen => [] | _ => [fst p] end) out.

(** The arguments of the [mirrorTrade] calls of a cycle, in call order: one
    for every [logTrade] call that did not throw. *)
Definition mirrorArgument (trade : ActivityRecord) : list Clob.TradeData :=
  match logTrade trade with
  | inr tradeData => [tradeData]
  | inl _ => []
  end.

Definition mirrorCalls (c : Cycle) : list Clob.TradeData :=
  flat_map mirrorArgument (logged (outcomes c)).

(** [setInterval(pollForTrades, POLL_INTERVAL)]: the cycles of a run, one per
    response of the feed.  No handler is attached to the promise of
    [pollForTrades]; a cycle that throws is an unhandled rejection, on which
    the runtime ends the process, so it is the last cycle of the run.  (The
    promises of the [mirrorTrade] calls are not handled either, but they are
    never rejected: [logTrade] has printed the fields before.) *)
Fixpoint runPolls (st : PollState) (responses : list FetchResponse) : list Cycle :=
  match responses with
  | [] => []
  | r :: rest =>
      let c := pollCycle st r in
      c :: match thrown c with
           | None => runPolls (after c) rest
           | Some _ => []
           end
  end.

(** How many records of [l] carry the trade id [id]. *)
Definition countId (id : string) (l : list ActivityRecord) : nat :=
  List.length (filter (fun t => String.eqb (tradeId t) id) l).

Definition maxTimestamp (l : list ActivityRecord) (floor : Z) : Z :=
  fold_right (fun t acc => Z.max (timestamp t) acc) floor l.

End Poller.

(* ===================================================================== *)
(** * Sample clients and inputs                                           *)
(* ===================================================================== *)

Module Samples.
Import JS Clob.

Definition signedOrder : JSValue := JObj [("signature", JStr "0xsig")].

(** A client whose submission succeeds. *)
Definition acceptingClient : ClobClient :=
  mkClobClient
    (fun _ => inr signedOrder)
    (fun _ _ => inr (JObj [("success", JBool true); ("orderID", JStr "0xabc");
                           ("status", JStr "matched")])).

(** A client whose submission is refused with an explicit flag. *)
Definition rejectingClient : ClobClient :=
  mkClobClient
    (fun _ => inr signedOrder)
    (fun _ _ => inr (JObj [("success", JBool false);
                           ("errorMsg", JStr "not enough balance")])).

(** A client whose submission answers without any success flag. *)
Definition flaglessClient : ClobClient :=
  mkClobClient
    (fun _ => inr signedOrder)
    (fun _ _ => inr (JObj [("error", JStr "invalid order")])).

Definition order (side size price : string) : TradeData :=
  mkTradeData (JStr "123") (JStr side) (JStr size) (JStr price).

(** A decoded object that has no string form: its own property toString,
    not a function, hides Object.prototype.toString. *)
Definition unprintable : JSValue := JObj [("toString", JNum (Fin 1))].

End Samples.

(* ===================================================================== *)
(** * Vocabulary of the statements about mirrorTrade                      *)
(* ===================================================================== *)

Module MirrorSpec.
Import JS Clob.

(** Every field that mirrorTrade interpolates into a console line has a
    string form. *)
Definition printable (td : TradeData) : bool :=
  renderable (asset td) && renderable (side td)
  && renderable (size td) && renderable (price td).

(** The order parameters that the validating mirrorTrade builds. *)
Definition builtParams (td : TradeData) : OrderParams.t :=
  OrderParams.mk (asset td)
    (if strictEqStr (side td) "BUY" then BUY else SELL)
    (Mirror.roundSize (parseFloatValue (size td)))
    (Mirror.roundPrice (parseFloatValue (price td))) (Some 0%Z).

(** The two console lines of an aborted attempt. *)
Definition abortTrace (td : TradeData) : list Event :=
  [ConsoleError MsgMissingFields;
   ConsoleError (MsgFieldValues (asset td) (side td) (size td) (price td))].

(** The call threw: its promise is rejected. *)
Definition rejects {A} (m : M A) : Prop := exists e, snd m = inl e.

(** A bound on the distance between an exact result [x] and the binary64
    number that stands for it: half a unit in the last place. *)
Definition roundingError (x : Q) : Q :=
  (Qabs x * pow2 (-53) + pow2 (-1075))%Q.

(** [k] is the integer nearest to [x], a midpoint going up, where [x] is
    known up to the rounding error of one binary64 operation. *)
Definition nearlyNearest (x : Q) (k : Z) : Prop :=
  (x - roundingError x - (1 # 2) < inject_Z k /\
   inject_Z k <= x + roundingError x + (1 # 2))%Q.

(** [k] brought into the inclusive range from [lo] to [hi]. *)
Definition clampZ (lo hi k : Z) : Z := Z.max lo (Z.min hi k).

(** The binary64 numbers nearest to [k] thousandths and to [j] hundredths:
    what the divisions by 1000 and by 100 return for an integer. *)
Definition ticks (k : Z) : JSNumber := round64 (inject_Z k / (1000 # 1)).
Definition cents (j : Z) : JSNumber := round64 (inject_Z j / (100 # 1)).

Definition inRange (lo hi : Q) (n : JSNumber) : Prop :=
  jsLe (Fin lo) n /\ jsLe n (Fin hi).

(** The submission result carries a truthy [success] property. *)
Definition successFlag (result : JSValue) : bool :=
  match getProp result "success" with
  | inr flag => truthy flag
  | inl _ => false
  end.

End MirrorSpec.

(* ===================================================================== *)
(** * Vocabulary of the statements about the poll cycle                   *)
(* ===================================================================== *)

Module PollerSpec.
Import JS Poller.

Definition newestFirst (a b : ActivityRecord) : Prop :=
  (timestamp b <= timestamp a)%Z.

(** The [n]-th cycle of a run. *)
Definition cycleAt (st : PollState) (responses : list FetchResponse) (n : nat)
  : option Cycle :=
  nth_error (runPolls st responses) n.

(** A record of the activity feed, a trade of token 123 in transaction
    number [n]. *)
Definition txHashOf (n : nat) : string :=
  "0x" ++ NilEmpty.string_of_uint (Nat.to_uint n).

Definition sampleTrade (n : nat) (ts : Z) : ActivityRecord :=
  mkActivityRecord ts "TRADE" (JStr "BUY") (JNum (Fin (1 # 2))) (JNum (Fin 5))
    "123" (txHashOf n)
    (JStr "Will it rain tomorrow?") (JStr "Yes") (JNum (Fin (5 # 2)))
    (JStr "0xc0nd") JUndefined (JStr "Steady-Otter")
    (JStr "0x589222a5124a96765443b97a3498d89ffd824ad2").

(** [logTrade] returns for the record: the call of [mirrorTrade] on its
    last line is reached. *)
Definition displayable (trade : ActivityRecord) : Prop :=
  exists tradeData, logTrade trade = inr tradeData.

(** A set holding the ids of the transactions [0 .. n-1], oldest first. *)
Definition ledgerOf (n : nat) : JSSet.t :=
  map (fun k => tradeId (sampleTrade k 0)) (seq 0 n).

End PollerSpec.

(* ===================================================================== *)
(** * Further vocabulary for mirrorTrade                                  *)
(* ===================================================================== *)

Module MirrorFlow.
Import JS Clob MirrorSpec.

(** The calls of the trading client made by a run, in order. *)
Definition networkCalls {A} (m : M A) : list Event :=
  filter isNetworkCall (trace m).

(** The order parameters that the mirrorTrade of lines 496-534 builds. *)
Definition plainParams (td : TradeData) : OrderParams.t :=
  OrderParams.mk (asset td)
    (if strictEqStr (side td) "BUY" then BUY else SELL)
    (parseFloatValue (size td)) (parseFloatValue (price td)) None.

(** The error line of the catch block is in the trace. *)
Definition logsError {A} (m : M A) (e : JSError) : Prop :=
  In (ConsoleError (MsgFailedToMirror (message e))) (trace m).

(** The call threw before it reached the try block: nothing but the lines
    printed so far, no call of the client. *)
Definition rejectsEarly {A} (m : M A) : Prop :=
  rejects m /\ networkCalls m = [].

(** A client whose signing step throws, and one whose submission throws. *)
Definition unsignedClient : ClobClient :=
  mkClobClient
    (fun _ => inl (mkJSError "invalid signature" JUndefined))
    (fun _ _ => inr (JObj [("success", JBool true)])).

Definition offlineClient : ClobClient :=
  mkClobClient
    (fun _ => inr (JObj [("signature", JStr "0xsig")]))
    (fun _ _ => inl (mkJSError "Request failed with status code 400"
                       (JObj [("error", JStr "invalid order")]))).

End MirrorFlow.

(* ===================================================================== *)
(** * Further vocabulary for the poll cycle                               *)
(* ===================================================================== *)

Module PollerFlow.
Import JS Clob Poller.


(** The orders that the logTrade calls of a cycle submit through the
    mirrorTrade of lines 101-163. *)
Definition cycleOrders (client : option ClobClient) (c : Cycle)
  : list OrderParams.t :=
  flat_map (fun td => submittedOrders (Mirror.mirrorTrade client td)) (mirrorCalls c).


(** No hyphen occurs in [s]. *)
Fixpoint hyphenFree (s : string) : bool :=
  match s with
  | EmptyString => true
  | String c rest => negb (Ascii.eqb c "-") && hyphenFree rest
  end.

(** The records that a cycle inserted into the set. *)
Definition insertedIn (c : Cycle) (r : ActivityRecord) : Prop :=
  In (r, StaleBacklog) (outcomes c) \/ In (r, Logged) (outcomes c).

(** Every response of the list carries at most [n] trade records. *)
Definition batchesWithin (n : Z) (responses : list FetchResponse) : Prop :=
  forall r, In r responses ->
    (Z.of_nat (List.length (fetchTargetActivity r)) <= n)%Z.

(** Every record handed to logTrade over a run, in call order. *)
Definition runLogged (st : PollState) (responses : list FetchResponse)
  : list ActivityRecord :=
  flat_map (fun c => logged (outcomes c)) (runPolls st responses).

(** No cycle of the run reaches the compaction threshold. *)
Definition neverCompacts (st : PollState) (responses : list FetchResponse) : Prop :=
  forall c, In c (runPolls st responses) ->
    (JSSet.size (seenTrades (afterLoop c)) <= 10000)%Z.

End PollerFlow.

(* ===================================================================== *)
(** * websocket-listener.js, lines 148-184 and 233-276: the event handler  *)
(* ===================================================================== *)

Module ListenerFlow.
Import WebsocketListener.

(** Lines 154-161 and 252-259: the asset id that is shown as the token of
    the trade. *)
Definition outcomeTokenId (trade : RawFillEvent) : string :=
  let targetLower := toLowerCase TARGET_ADDRESS in
  let isMaker := String.eqb (toLowerCase (maker trade)) targetLower in
  if isMaker
  then (if negb (String.eqb (makerAssetId trade) "0")
        then makerAssetId trade else takerAssetId trade)
  else (if negb (String.eqb (takerAssetId trade) "0")
        then takerAssetId trade else makerAssetId trade).

(** The arguments of an OrderFilled event as the provider delivers them:
    addresses and hashes as strings, the uint256 fields as big numbers. *)
Record OrderFilledArgs := mkOrderFilledArgs {
  argOrderHash : string;
  argMaker : string;
  argTaker : string;
  argMakerAssetId : N;
  argTakerAssetId : N;
  argMakerAmountFilled : N;
  argTakerAmountFilled : N;
  argFee : N;
  eventBlockNumber : Z;
  eventTransactionHash : string
}.

(** [BigNumber.prototype.toString()]: the decimal digits, no leading zero. *)
Definition bigNumberToString (n : N) : string :=
  NilEmpty.string_of_uint (N.to_uint n).

(** The marker printed in front of the trade type. *)
Inductive Emoji := Green | Red | White.

(** What logTrade prints, as far as it depends on the trade. *)
Record TradeReport := mkTradeReport {
  reportEmoji : Emoji;
  reportType : TradeType;
  reportTokenId : string;
  reportTrade : RawFillEvent
}.

(** Lines 148-184. *)
Definition logTrade (trade : RawFillEvent) : TradeReport :=
  let tradeType := determineTradeType trade in
  let tradeTypeEmoji :=
    match tradeType with BUY => Green | SELL => Red | UNKNOWN => White end in
  mkTradeReport tradeTypeEmoji tradeType (outcomeTokenId trade) trade.

(** Lines 234-275: the trade object built from the event, then logTrade. *)
Definition tradeOf (ev : OrderFilledArgs) : RawFillEvent :=
  mkRawFillEvent (eventBlockNumber ev) (eventTransactionHash ev)
    (argOrderHash ev) (argMaker ev) (argTaker ev)
    (bigNumberToString (argMakerAssetId ev))
    (bigNumberToString (argTakerAssetId ev))
    (bigNumberToString (argMakerAmountFilled ev))
    (bigNumberToString (argTakerAmountFilled ev))
    (bigNumberToString (argFee ev)).

Definition handleOrderFilled (ev : OrderFilledArgs) : TradeReport :=
  logTrade (tradeOf ev).

(** Exactly one of the two legs is the settlement currency. *)
Definition oneSentinelLeg (trade : RawFillEvent) : Prop :=
  (makerAssetId trade = ZERO_ASSET /\ takerAssetId trade <> ZERO_ASSET) \/
  (makerAssetId trade <> ZERO_ASSET /\ takerAssetId trade = ZERO_ASSET).

(** The target's address with the checksum capitalisation of line 11. *)
Definition checksummedTarget : string := "0xa9456cecF9d6fb545F6408E0e2DbBFA307d7BaE6".

(** An event between two parties with the given asset ids. *)
Definition sampleEvent (mk tk : string) (mkAsset tkAsset : N) : OrderFilledArgs :=
  mkOrderFilledArgs "0xorder" mk tk mkAsset tkAsset 1000000 2000000 0 100 "0xtx".

End ListenerFlow.

(* ===================================================================== *)
(** * websocket-listener.js, lines 34-113: getOutcomeFromTokenId           *)
(* ===================================================================== *)

Module OutcomeResolver.
Import JS.

(** Decoded JSON, and [undefined] for what a property read can yield. *)
Inductive Json :=
| JsUndefined
| JsNull
| JsBool (b : bool)
| JsNumber (n : JSNumber)
| JsString (s : string)
| JsArray (items : list Json)
| JsObject (fields : list (string * Json)).

Definition truthy (v : Json) : bool :=
  match v with
  | JsUndefined | JsNull => false
  | JsBool b => b
  | JsNumber NaN => false
  | JsNumber (Fin q) => negb (Qeq_bool q 0)
  | JsNumber _ => true
  | JsString s => negb (String.eqb s "")
  | JsArray _ | JsObject _ => true
  end.

Definition isArray (v : Json) : bool :=
  match v with JsArray _ => true | _ => false end.

Fixpoint lookup (name : string) (fields : list (string * Json)) : Json :=
  match fields with
  | [] => JsUndefined
  | (k, v) :: rest => if String.eqb k name then v else lookup name rest
  end.

(** [v.name] for the property names of this function (none of them is a
    member of arrays, strings, numbers or booleans). *)
Definition prop (v : Json) (name : string) : JSError + Json :=
  match v with
  | JsUndefined | JsNull => inl (TypeError "Cannot read properties of undefined")
  | JsObject fields => inr (lookup name fields)
  | _ => inr JsUndefined
  end.

(** [v?.name] *)
Definition optProp (v : Json) (name : string) : Json :=
  match prop v name with
  | inr x => x
  | inl _ => JsUndefined
  end.

(** [t.tokenId === tokenId] *)
Definition isToken (tokenId : string) (t : Json) : JSError + bool :=
  match prop t "tokenId" with
  | inl e => inl e
  | inr (JsString s) => inr (String.eqb s tokenId)
  | inr _ => inr false
  end.

(** [items.find(t => t.tokenId === tokenId)] *)
Fixpoint find (tokenId : string) (items : list Json) : JSError + Json :=
  match items with
  | [] => inr JsUndefined
  | t :: rest =>
      match isToken tokenId t with
      | inl e => inl e
      | inr true => inr t
      | inr false => find tokenId rest
      end
  end.

(** [tokens?.find(...)]: nothing to call on a value that is not an array. *)
Definition optFind (tokenId : string) (tokens : Json) : JSError + Json :=
  match tokens with
  | JsUndefined | JsNull => inr JsUndefined
  | JsArray items => find tokenId items
  | _ => inl (TypeError "find is not a function")
  end.

(** Whether ToString(v) returns: not for an object that carries a property
    named toString (a decoded property is no function, and hides
    Object.prototype.toString), nor for an array that holds such an
    object. *)
Fixpoint renderable (v : Json) : bool :=
  match v with
  | JsObject fields =>
      negb (existsb (fun kv => String.eqb (fst kv) "toString") fields)
  | JsArray items => forallb renderable items
  | _ => true
  end.

(** A substitution [${v}] of a template literal, as far as it can fail. *)
Definition interpolate (v : Json) : JSError + unit :=
  if renderable v then inr tt
  else inl (TypeError "Cannot convert object to primitive value").

(** [outcomes[outcomeIndex]] *)
Definition at_index (v : Json) (index : option nat) : Json :=
  match v, index with
  | JsArray items, Some i => nth i items JsUndefined
  | _, _ => JsUndefined
  end.

(** ** The three endpoints *)

Inductive Request :=
| TokenInfo (tokenId : string)       (* clob.polymarket.com/token?id= *)
| MarketDetail (marketId : Json)     (* data-api.polymarket.com/markets/ *)
| OrderBook (tokenId : string).      (* clob.polymarket.com/book?token_id= *)

(** [fetch] rejects, or resolves to a response with its [ok] flag and what
    [json()] gives, a decoded body or a rejection. *)
Inductive HttpResult :=
| NetworkError (e : JSError)
| Response (ok : bool) (body : JSError + Json).

(** What the function takes from outside: the network, and the value of
    [parseInt(tokenId) % 2] as an array index ([None] when it is no index). *)
Record Env := mkEnv {
  net : Request -> HttpResult;
  outcomeIndexOf : string -> option nat
}.

(** ** tokenOutcomeCache *)

Definition Cache := list (string * Json).

Definition cacheHas (cache : Cache) (key : string) : bool :=
  existsb (fun kv => String.eqb (fst kv) key) cache.

Definition cacheGet (cache : Cache) (key : string) : Json := lookup key cache.

Fixpoint cacheSet (cache : Cache) (key : string) (value : Json) : Cache :=
  match cache with
  | [] => [(key, value)]
  | (k, v) :: rest =>
      if String.eqb k key then (k, value) :: rest
      else (k, v) :: cacheSet rest key value
  end.

(** ** The body of the try block *)

(** A step throws, leaves the function with a label (after caching it), or
    goes on. *)
Inductive Step (A : Type) :=
| Throws (e : JSError)
| Found (outcome : Json)
| Goes (a : A).
Arguments Throws {A} e.
Arguments Found {A} outcome.
Arguments Goes {A} a.

Definition R (A : Type) : Type := list Request * Step A.

Definition ret {A} (a : A) : R A := ([], Goes a).

Definition bind {A B} (m : R A) (k : A -> R B) : R B :=
  match m with
  | (reqs, Throws e) => (reqs, Throws e)
  | (reqs, Found o) => (reqs, Found o)
  | (reqs, Goes a) => let '(reqs', r) := k a in ((reqs ++ reqs')%list, r)
  end.

Definition lift {A} (r : JSError + A) : R A :=
  match r with
  | inl e => ([], Throws e)
  | inr a => ([], Goes a)
  end.

(** [const response = await fetch(url)] *)
Definition fetch (env : Env) (req : Request) : R (bool * (JSError + Json)) :=
  match net env req with
  | NetworkError e => ([req], Throws e)
  | Response ok body => ([req], Goes (ok, body))
  end.

(** [if (x) { tokenOutcomeCache.set(tokenId, x); return x; }] *)
Definition returnIfTruthy (x : Json) : R unit :=
  if truthy x then ([], Found x) else ret tt.

Declare Scope resolver_scope.
Delimit Scope resolver_scope with resolver.
Notation "x <- m ;; k" := (bind m (fun x => k))
  (at level 61, m at next level, right associativity) : resolver_scope.
Notation "m ;; k" := (bind m (fun _ => k))
  (at level 61, right associativity) : resolver_scope.
Local Open Scope resolver_scope.

(** Lines 64-89.  The address of the request is a template literal around
    the market id. *)
Definition marketStage (env : Env) (tokenId : string) (marketId : Json) : R unit :=
  lift (interpolate marketId) ;;
  marketResponse <- fetch env (MarketDetail marketId) ;;
  if fst marketResponse then
    marketData <- lift (snd marketResponse) ;;
    tokens <- lift (prop marketData "tokens") ;;
    (if truthy tokens && isArray tokens then
       tokenInfo <- lift (optFind tokenId tokens) ;;
       returnIfTruthy (optProp tokenInfo "outcome")
     else ret tt) ;;
    outcomes <- lift (prop marketData "outcomes") ;;
    (if truthy outcomes && isArray outcomes then
       returnIfTruthy (at_index outcomes (outcomeIndexOf env tokenId))
     else ret tt)
  else ret tt.

(** Lines 50-91. *)
Definition tokenStage (env : Env) (tokenId : string) : R unit :=
  tokenResponse <- fetch env (TokenInfo tokenId) ;;
  if fst tokenResponse then
    tokenData <- lift (snd tokenResponse) ;;
    returnIfTruthy (optProp tokenData "outcome") ;;
    (if truthy (optProp tokenData "marketId")
     then marketStage env tokenId (optProp tokenData "marketId")
     else ret tt)
  else ret tt.

(** Lines 94-106. *)
Definition bookStage (env : Env) (tokenId : string) : R unit :=
  bookResponse <- fetch env (OrderBook tokenId) ;;
  if fst bookResponse then
    bookData <- lift (snd bookResponse) ;;
    let outcomes := optProp (optProp bookData "market") "outcomes" in
    if truthy outcomes && isArray outcomes then
      market <- lift (prop bookData "market") ;;
      tokens <- lift (prop market "tokens") ;;
      tokenInfo <- lift (optFind tokenId tokens) ;;
      returnIfTruthy (optProp tokenInfo "outcome")
    else ret tt
  else ret tt.

Definition tryBlock (env : Env) (tokenId : string) : R unit :=
  tokenStage env tokenId ;; bookStage env tokenId.

(** ** getOutcomeFromTokenId *)

Record Resolution := mkResolution {
  requests : list Request;   (* the fetches made, in order *)
  outcome : Json;            (* the label, or null *)
  cacheAfter : Cache
}.

Definition getOutcomeFromTokenId (env : Env) (cache : Cache) (tokenId : string)
  : Resolution :=
  if cacheHas cache tokenId then mkResolution [] (cacheGet cache tokenId) cache
  else
    match tryBlock env tokenId with
    | (reqs, Found x) => mkResolution reqs x (cacheSet cache tokenId x)
    | (reqs, Goes _) => mkResolution reqs JsNull cache
    | (reqs, Throws _) => mkResolution reqs JsNull cache   (* catch: return null *)
    end.

(** Successive calls on the module-level cache. *)
Fixpoint resolveAll (envs : list Env) (cache : Cache) (tokenId : string)
  : list Resolution :=
  match envs with
  | [] => []
  | env :: rest =>
      let r := getOutcomeFromTokenId env cache tokenId in
      r :: resolveAll rest (cacheAfter r) tokenId
  end.

(** Every value in the cache is truthy. *)
Definition cacheSound (cache : Cache) : Prop :=
  forall k v, In (k, v) cache -> truthy v = true.

(** ** Vocabulary of the statements *)

(** A label that leaves the try block is truthy; a step makes no request. *)
Definition foundTruthy {A} (m : R A) : Prop :=
  forall x, snd m = Found x -> truthy x = true.

Definition silent {A} (m : R A) : Prop := fst m = [].

(** The market lookup of the first stage: made when the token data carries
    no label but a market reference, one that has a string form to put into
    the address. *)
Definition marketRequest (env : Env) (tokenId : string) : list Request :=
  match net env (TokenInfo tokenId) with
  | Response true (inr tokenData) =>
      if truthy (optProp tokenData "outcome") then []
      else if truthy (optProp tokenData "marketId")
              && renderable (optProp tokenData "marketId")
           then [MarketDetail (optProp tokenData "marketId")]
           else []
  | _ => []
  end.

(** ** Sample networks *)

Definition jsonOk (body : Json) : HttpResult := Response true (inr body).
Definition notFound : HttpResult := Response false (inr JsNull).

(** The token endpoint knows the label. *)
Definition directNet : Env :=
  mkEnv (fun _ => jsonOk (JsObject [("outcome", JsString "Yes")])) (fun _ => Some 0%nat).

(** The token endpoint only names the market; the market lists its tokens. *)
Definition marketNet (tokenId : string) : Env :=
  mkEnv (fun req =>
           match req with
           | TokenInfo _ => jsonOk (JsObject [("marketId", JsString "m1")])
           | MarketDetail _ =>
               jsonOk (JsObject [("tokens",
                 JsArray [JsObject [("tokenId", JsString "1"); ("outcome", JsString "Yes")];
                          JsObject [("tokenId", JsString tokenId); ("outcome", JsString "No")]])])
           | OrderBook _ => notFound
           end)
        (fun _ => Some 0%nat).

(** No endpoint knows the token. *)
Definition emptyNet : Env := mkEnv (fun _ => notFound) (fun _ => None).

(** The network is down. *)
Definition downNet : Env :=
  mkEnv (fun _ => NetworkError (mkJSError "fetch failed" JUndefined)) (fun _ => None).

End OutcomeResolver.

(* ===================================================================== *)
(** * part_000, lines 362-382 and 650-670: validateConfig                 *)
(* ===================================================================== *)

Module Config.

(** The three error reports of the function. *)
Inductive ConfigError :=
| MissingPrivateKey
| InvalidPrivateKeyFormat
| MissingFunderAddress.

(** The function returns, or reports an error and ends the process with
    [process.exit(code)]. *)
Inductive Validation :=
| Returns
| Exits (code : Z) (report : ConfigError).

(** [!value] for an environment variable, which is a string or undefined. *)
Definition unset (value : option string) : bool :=
  match value with
  | None => true
  | Some s => String.eqb s ""
  end.

(** [s.startsWith('0x')] and [s.slice(2)] *)
Definition startsWith0x (s : string) : bool :=
  match s with
  | String c1 (String c2 _) => Ascii.eqb c1 "0" && Ascii.eqb c2 "x"
  | _ => false
  end.

Definition slice2 (s : string) : string :=
  match s with
  | String _ (String _ rest) => rest
  | _ => EmptyString
  end.

(** The class [a-fA-F0-9]. *)
Definition isHexDigit (c : ascii) : bool :=
  let n := nat_of_ascii c in
  ((48 <=? n)%nat && (n <=? 57)%nat) ||
  ((65 <=? n)%nat && (n <=? 70)%nat) ||
  ((97 <=? n)%nat && (n <=? 102)%nat).

Fixpoint allHex (s : string) : bool :=
  match s with
  | EmptyString => true
  | String c rest => isHexDigit c && allHex rest
  end.

(** [/^[a-fA-F0-9]{64}$/.test(s)] *)
Definition matchesKeyPattern (s : string) : bool :=
  (String.length s =? 64)%nat && allHex s.

Definition validateConfig (PRIVATE_KEY FUNDER_ADDRESS : option string) : Validation :=
  if unset PRIVATE_KEY then Exits 1 MissingPrivateKey
  else
    let key := match PRIVATE_KEY with Some s => s | None => EmptyString end in
    let cleanKey := if startsWith0x key then slice2 key else key in
    if negb (matchesKeyPattern cleanKey) then Exits 1 InvalidPrivateKeyFormat
    else if unset FUNDER_ADDRESS then Exits 1 MissingFunderAddress
    else Returns.

(** Sixty-four hexadecimal digits. *)
Definition hex64 (h : string) : Prop :=
  String.length h = 64%nat /\ allHex h = true.

Definition sampleKey : string :=
  "e77b39cfca7a712111553384b26d7e0d9b399e04db5891cc999964d22bc7700b".

End Config.

(* ===================================================================== *)
(** * part_000, lines 278-279: the quoted fields of the CSV dump          *)
(* ===================================================================== *)

Module CsvExport.

(** The double-quote character. *)
Definition dquote : ascii := ascii_of_nat 34.

(** [s.replace(/q/g, qq)] where q is the double quote: every double quote
    is written twice. *)
Fixpoint doubleQuotes (s : string) : string :=
  match s with
  | EmptyString => EmptyString
  | String c rest =>
      if Ascii.eqb c dquote
      then String dquote (String dquote (doubleQuotes rest))
      else String c (doubleQuotes rest)
  end.

(** [value || ''] for a field of the record that is a string or is absent. *)
Definition orEmpty (value : option string) : string :=
  match value with
  | Some s => s
  | None => EmptyString
  end.

(** The title and outcome columns of a row: the text between two double
    quotes, its own double quotes doubled. *)
Definition quotedField (value : option string) : string :=
  String dquote (doubleQuotes (orEmpty value) ++ String dquote EmptyString).

(** How a reader of CSV takes the text between the outer quotes: a double
    quote must be followed by a second one and stands for one. *)
Fixpoint readQuoted (body : string) : option string :=
  match body with
  | EmptyString => Some EmptyString
  | String c rest =>
      if Ascii.eqb c dquote then
        match rest with
        | String c' rest' =>
            if Ascii.eqb c' dquote
            then option_map (String dquote) (readQuoted rest')
            else None
        | EmptyString => None
        end
      else option_map (String c) (readQuoted rest)
  end.

(** The text between the first and the last character of a field. *)
Fixpoint dropLast (s : string) : string :=
  match s with
  | EmptyString => EmptyString
  | String c EmptyString => EmptyString
  | String c rest => String c (dropLast rest)
  end.

Definition fieldBody (field : string) : string :=
  match field with
  | EmptyString => EmptyString
  | String _ rest => dropLast rest
  end.

End CsvExport.

(* ===================================================================== *)
(** * Properties of the binary64 rounding                                 *)
(* ===================================================================== *)

Module NumberProofs.
Import JS.
Local Open Scope Q_scope.

Lemma pow2_pos e : 0 < pow2 e.
Proof. unfold pow2. apply Qpower_0_lt. reflexivity. Qed.

Lemma pow2_plus a b : pow2 (a + b) == pow2 a * pow2 b.
Proof. unfold pow2. apply Qpower_plus. discriminate. Qed.

Lemma pow2_le a b : (a <= b)%Z -> pow2 a <= pow2 b.
Proof. intros H. unfold pow2. apply Qpower_le_compat_l; [exact H | discriminate]. Qed.

Lemma pow2_inject (n : Z) : (0 <= n)%Z -> pow2 n == inject_Z (2 ^ n).
Proof. intros H. unfold pow2. rewrite (Zpower_Qpower 2 n H). reflexivity. Qed.

Lemma pow2_succ e : pow2 (e + 1) == 2 * pow2 e.
Proof. rewrite pow2_plus. change (pow2 1) with 2. ring. Qed.

Lemma pow2_pred e : pow2 (e - 1) == pow2 e * (1 # 2).
Proof.
  replace (e - 1)%Z with (e + -1)%Z by lia.
  rewrite pow2_plus. change (pow2 (-1)) with (1 # 2). reflexivity.
Qed.

(** [x] is between two powers of two which the logarithms of its numerator
    and of its denominator give. *)
Lemma log2_bounds (x : Q) :
  0 < x ->
  let g := (Z.log2 (Qnum x) - Z.log2 (Zpos (Qden x)))%Z in
  pow2 (g - 1) <= x /\ x < pow2 (g + 1).
Proof.
  intros Hx. cbv zeta.
  destruct x as [n d]. cbn [Qnum Qden].
  assert (Hn : (0 < n)%Z).
  { unfold Qlt in Hx. cbn in Hx. lia. }
  set (a := Z.log2 n). set (b := Z.log2 (Zpos d)).
  assert (Ha : (0 <= a)%Z) by apply Z.log2_nonneg.
  assert (Hb : (0 <= b)%Z) by apply Z.log2_nonneg.
  destruct (Z.log2_spec n Hn) as [Hn1 Hn2]. fold a in Hn1, Hn2.
  destruct (Z.log2_spec (Zpos d) eq_refl) as [Hd1 Hd2]. fold b in Hd1, Hd2.
  assert (Hpa : (0 < 2 ^ a)%Z) by (apply Z.pow_pos_nonneg; lia).
  assert (Hpb : (0 < 2 ^ b)%Z) by (apply Z.pow_pos_nonneg; lia).
  assert (E1 : pow2 (a - b - 1) == inject_Z (2 ^ a) / inject_Z (2 ^ (b + 1))).
  { replace (a - b - 1)%Z with (a + - (b + 1))%Z by lia.
    rewrite pow2_plus. unfold pow2 at 2. rewrite Qpower_opp.
    fold (pow2 (b + 1)). rewrite !pow2_inject by lia. reflexivity. }
  assert (E2 : pow2 (a - b + 1) == inject_Z (2 ^ (a + 1)) / inject_Z (2 ^ b)).
  { replace (a - b + 1)%Z with ((a + 1) + - b)%Z by lia.
    rewrite pow2_plus. unfold pow2 at 2. rewrite Qpower_opp.
    fold (pow2 b). rewrite !pow2_inject by lia. reflexivity. }
  rewrite E1, E2. rewrite (Qmake_Qdiv n d).
  assert (Ea : (2 ^ (a + 1) = 2 * 2 ^ a)%Z) by (rewrite Z.pow_add_r; lia).
  assert (Eb : (2 ^ (b + 1) = 2 * 2 ^ b)%Z) by (rewrite Z.pow_add_r; lia).
  rewrite Ea, Eb. rewrite Z.pow_succ_r in Hn2, Hd2 by lia.
  set (A := (2 ^ a)%Z) in *. set (B := (2 ^ b)%Z) in *.
  split.
  - apply Qle_shift_div_l; [rewrite <- (Zlt_Qlt 0); lia|].
    unfold Qdiv. rewrite <- Qmult_assoc, (Qmult_comm (/ _)), Qmult_assoc.
    apply Qle_shift_div_r; [rewrite <- (Zlt_Qlt 0); lia|].
    rewrite <- !inject_Z_mult, <- Zle_Qle.
    apply Z.le_trans with (A * (2 * B))%Z;
      [apply Z.mul_le_mono_nonneg_l; lia | apply Z.mul_le_mono_nonneg_r; lia].
  - apply Qlt_shift_div_r; [rewrite <- (Zlt_Qlt 0); lia|].
    unfold Qdiv. rewrite <- Qmult_assoc, (Qmult_comm (/ _)), Qmult_assoc.
    apply Qlt_shift_div_l; [rewrite <- (Zlt_Qlt 0); lia|].
    rewrite <- !inject_Z_mult, <- Zlt_Qlt.
    apply Z.lt_le_trans with (2 * A * B)%Z;
      [apply Z.mul_lt_mono_pos_r; lia | apply Z.mul_le_mono_nonneg_l; lia].
Qed.

Lemma ilog2_spec (x : Q) :
  0 < x -> pow2 (ilog2 x) <= x /\ x < pow2 (ilog2 x + 1).
Proof.
  intros Hx. destruct (log2_bounds x Hx) as [Hlo Hhi]. unfold ilog2.
  set (g := (Z.log2 (Qnum x) - Z.log2 (Zpos (Qden x)))%Z) in *.
  destruct (Qle_bool (pow2 g) x) eqn:E.
  - apply Qle_bool_iff in E. now split.
  - split; [exact Hlo|].
    replace (g - 1 + 1)%Z with g by lia.
    apply Qnot_le_lt. intros H. apply Qle_bool_iff in H. congruence.
Qed.

Lemma halfEven_near (s : Q) :
  s - (1 # 2) <= inject_Z (halfEven s) /\ inject_Z (halfEven s) <= s + (1 # 2).
Proof.
  unfold halfEven.
  pose proof (Qfloor_le s) as Hlo. pose proof (Qlt_floor s) as Hhi.
  set (f := Qfloor s) in *. rewrite inject_Z_plus in Hhi.
  change (inject_Z 1) with 1 in Hhi.
  destruct (Qcompare_spec (s - inject_Z f) (1 # 2)) as [E|L|G].
  - destruct (Z.even f); [|rewrite inject_Z_plus; change (inject_Z 1) with 1];
      split; lra.
  - split; lra.
  - rewrite inject_Z_plus. change (inject_Z 1) with 1. split; lra.
Qed.

Lemma halfEven_nonneg (s : Q) : 0 <= s -> (0 <= halfEven s)%Z.
Proof.
  intros Hs. assert (Hf : (0 <= Qfloor s)%Z).
  { change 0%Z with (Qfloor 0). now apply Qfloor_resp_le. }
  unfold halfEven. destruct (_ ?= _); [destruct (Z.even _)| |]; lia.
Qed.


Lemma pow2_53 : pow2 (-53) = 1 # 9007199254740992.
Proof. reflexivity. Qed.

Lemma scaled_back (a p : Q) (m : Z) :
  0 < p ->
  a / p - (1 # 2) <= inject_Z m -> inject_Z m <= a / p + (1 # 2) ->
  a - p * (1 # 2) <= inject_Z m * p /\ inject_Z m * p <= a + p * (1 # 2).
Proof.
  intros Hp Hlo Hhi.
  assert (E1 : a - p * (1 # 2) == (a / p - (1 # 2)) * p) by (field; lra).
  assert (E2 : a + p * (1 # 2) == (a / p + (1 # 2)) * p) by (field; lra).
  rewrite E1, E2. split; apply Qmult_le_compat_r; lra.
Qed.

(** Half a unit in the last place of [a] is at most [a * 2^-53], or
    [2^-1075] below the normal range. *)
Lemma half_ulp_bound (a : Q) :
  0 < a ->
  pow2 (Z.max (ilog2 a - 52) (-1074)) * (1 # 2) <= a * pow2 (-53) + pow2 (-1075).
Proof.
  intros Ha. destruct (ilog2_spec a Ha) as [Hlo _].
  pose proof (pow2_pos (-1075)) as Hv.
  destruct (Z.max_spec (ilog2 a - 52) (-1074)) as [[_ ->] | [_ ->]].
  - rewrite <- pow2_pred. change (-1074 - 1)%Z with (-1075)%Z.
    rewrite pow2_53. lra.
  - rewrite <- pow2_pred.
    replace (ilog2 a - 52 - 1)%Z with (ilog2 a + -53)%Z by lia.
    rewrite pow2_plus. rewrite pow2_53 in *.
    set (p := pow2 (ilog2 a)) in *. lra.
Qed.

Lemma roundPositive_bounds (a : Q) :
  0 < a ->
  match roundPositive a with
  | Some r =>
      0 <= r /\ r < pow2 1024 /\
      a - (a * pow2 (-53) + pow2 (-1075)) <= r /\
      r <= a + (a * pow2 (-53) + pow2 (-1075))
  | None => pow2 1023 <= a
  end.
Proof.
  intros Ha. unfold roundPositive.
  set (e := Z.max (ilog2 a - 52) (-1074)).
  pose proof (pow2_pos e) as Hp.
  pose proof (half_ulp_bound a Ha) as Hulp. fold e in Hulp.
  destruct (halfEven_near (a / pow2 e)) as [Hlo Hhi].
  assert (Hm : (0 <= halfEven (a / pow2 e))%Z).
  { apply halfEven_nonneg. apply Qle_shift_div_l; [exact Hp | lra]. }
  destruct (scaled_back a (pow2 e) _ Hp Hlo Hhi) as [Hr1 Hr2].
  set (r := inject_Z (halfEven (a / pow2 e)) * pow2 e) in *.
  assert (Hr0 : 0 <= r).
  { unfold r. apply Qmult_le_0_compat; [|lra].
    change 0 with (inject_Z 0). now rewrite <- Zle_Qle. }
  destruct (Qle_bool (pow2 1024) r) eqn:E.
  - apply Qle_bool_iff in E.
    change 1024%Z with (1023 + 1)%Z in E. rewrite pow2_succ in E.
    assert (Hv : pow2 (-1075) <= 1).
    { change 1 with (pow2 0). apply pow2_le. lia. }
    assert (HP : 2 <= pow2 1023).
    { change 2 with (pow2 1). apply pow2_le. lia. }
    rewrite pow2_53 in *.
    set (P := pow2 1023) in *. set (v := pow2 (-1075)) in *.
    apply Qnot_lt_le. intros Hlt. lra.
  - rewrite Qred_correct. split; [exact Hr0|].
    split; [|split; lra].
    apply Qnot_le_lt. intros H. apply Qle_bool_iff in H. congruence.
Qed.

Lemma round64_compat (x x' : Q) : x == x' -> round64 x = round64 x'.
Proof.
  intros E. unfold round64. rewrite (Qred_complete _ _ E).
  assert (E' : - x == - x') by now rewrite E.
  rewrite (Qred_complete _ _ E'). now rewrite E.
Qed.

(** The value that [round64] gives: never NaN; an infinity only from 2^1023
    on; otherwise a number of the sign of [x], at most half a unit in the
    last place away from it. *)
Lemma round64_cases (x : Q) :
  match round64 x with
  | NaN => False
  | PosInf => pow2 1023 <= x
  | NegInf => x <= - pow2 1023
  | Fin y =>
      x - (Qabs x * pow2 (-53) + pow2 (-1075)) <= y /\
      y <= x + (Qabs x * pow2 (-53) + pow2 (-1075)) /\
      (0 <= x -> 0 <= y) /\ (x <= 0 -> y <= 0) /\
      - pow2 1024 < y /\ y < pow2 1024
  end.
Proof.
  pose proof (pow2_pos (-1075)) as Hv.
  pose proof (pow2_pos 1024) as Hbig.
  unfold round64. destruct (Qcompare_spec x 0) as [E|L|G].
  - rewrite E. change (Qabs 0) with 0. lra.
  - assert (Hneg : 0 < Qred (- x)) by (rewrite Qred_correct; lra).
    pose proof (roundPositive_bounds _ Hneg) as H.
    destruct (roundPositive (Qred (- x))) as [r|].
    + rewrite Qred_correct in H. rewrite (Qabs_neg x) by lra. lra.
    + rewrite Qred_correct in H. lra.
  - assert (Hpos : 0 < Qred x) by (rewrite Qred_correct; lra).
    pose proof (roundPositive_bounds _ Hpos) as H.
    destruct (roundPositive (Qred x)) as [r|].
    + rewrite Qred_correct in H. rewrite (Qabs_pos x) by lra. lra.
    + rewrite Qred_correct in H. lra.
Qed.

End NumberProofs.

(* ===================================================================== *)
(** * Properties of the trade classifier                                  *)
(* ===================================================================== *)

Module ClassifierProofs.
Import WebsocketListener.

Lemma isMaker_true trade :
  targetIsMaker trade ->
  String.eqb (toLowerCase (maker trade)) (toLowerCase TARGET_ADDRESS) = true.
Proof. intros H. apply String.eqb_eq. exact H. Qed.

Lemma isMaker_false trade :
  ~ targetIsMaker trade ->
  String.eqb (toLowerCase (maker trade)) (toLowerCase TARGET_ADDRESS) = false.
Proof. intros H. apply String.eqb_neq. exact H. Qed.

Lemma isTaker_true trade :
  targetIsTaker trade ->
  String.eqb (toLowerCase (taker trade)) (toLowerCase TARGET_ADDRESS) = true.
Proof. intros H. apply String.eqb_eq. exact H. Qed.

Lemma isTaker_false trade :
  ~ targetIsTaker trade ->
  String.eqb (toLowerCase (taker trade)) (toLowerCase TARGET_ADDRESS) = false.
Proof. intros H. apply String.eqb_neq. exact H. Qed.

Lemma maker_branch trade :
  targetIsMaker trade ->
  determineTradeType trade =
  if String.eqb (makerAssetId trade) ZERO_ASSET then BUY else SELL.
Proof.
  intros H. unfold determineTradeType. now rewrite (isMaker_true _ H).
Qed.

Lemma taker_branch trade :
  ~ targetIsMaker trade -> targetIsTaker trade ->
  determineTradeType trade =
  if String.eqb (takerAssetId trade) ZERO_ASSET then SELL else BUY.
Proof.
  intros Hm Ht. unfold determineTradeType.
  now rewrite (isMaker_false _ Hm), (isTaker_true _ Ht).
Qed.

Lemma neither_branch trade :
  ~ targetIsMaker trade -> ~ targetIsTaker trade ->
  determineTradeType trade = UNKNOWN.
Proof.
  intros Hm Ht. unfold determineTradeType.
  now rewrite (isMaker_false _ Hm), (isTaker_false _ Ht).
Qed.

Lemma sentinel_eqb s : s = ZERO_ASSET -> String.eqb s ZERO_ASSET = true.
Proof. apply String.eqb_eq. Qed.

Lemma non_sentinel_eqb s : s <> ZERO_ASSET -> String.eqb s ZERO_ASSET = false.
Proof. apply String.eqb_neq. Qed.

(** The address comparison ignores case: the all-capitals spelling of the
    target is recognised as the target. *)
Example mixed_case_maker_is_target :
  determineTradeType
    (fill "0XA9456CECF9D6FB545F6408E0E2DBBFA307D7BAE6" "0x01" "0" "7") = BUY.
Proof. reflexivity. Qed.

(** The four rows of the rule table and the fall-through, on sample fills. *)
Example maker_gives_currency :
  determineTradeType (fill TARGET_ADDRESS "0x01" "0" "7") = BUY.
Proof. reflexivity. Qed.

Example maker_gives_token :
  determineTradeType (fill TARGET_ADDRESS "0x01" "7" "0") = SELL.
Proof. reflexivity. Qed.

Example taker_receives_currency :
  determineTradeType (fill "0x01" TARGET_ADDRESS "7" "0") = SELL.
Proof. reflexivity. Qed.

Example taker_receives_token :
  determineTradeType (fill "0x01" TARGET_ADDRESS "0" "7") = BUY.
Proof. reflexivity. Qed.

Example stranger_fill :
  determineTradeType (fill "0x01" "0x02" "0" "7") = UNKNOWN.
Proof. reflexivity. Qed.

(** C1, as stated, fails: in a fill where the target is the taker (and the
    maker as well) and takerAssetId is the sentinel, the maker test is the one
    that decides, and the answer is BUY where the taker row says SELL. *)
Lemma C1_taker_row_counterexample :
  let trade := fill TARGET_ADDRESS TARGET_ADDRESS "0" "0" in
  targetIsTaker trade /\ takerAssetId trade = ZERO_ASSET /\
  determineTradeType trade = BUY /\ determineTradeType trade <> SELL.
Proof. repeat split; try reflexivity. discriminate. Qed.

(** C1 (amended): when the target is the maker, determineTradeType returns BUY
    for makerAssetId = '0' and SELL otherwise; when the target is the taker and
    not the maker, it returns SELL for takerAssetId = '0' and BUY otherwise;
    when the target is neither, it returns UNKNOWN.  Addresses are compared
    after lower-casing. *)
Theorem C1_determineTradeType_table (trade : RawFillEvent) :
  (targetIsMaker trade -> makerAssetId trade = ZERO_ASSET ->
     determineTradeType trade = BUY) /\
  (targetIsMaker trade -> makerAssetId trade <> ZERO_ASSET ->
     determineTradeType trade = SELL) /\
  (~ targetIsMaker trade -> targetIsTaker trade ->
     takerAssetId trade = ZERO_ASSET -> determineTradeType trade = SELL) /\
  (~ targetIsMaker trade -> targetIsTaker trade ->
     takerAssetId trade <> ZERO_ASSET -> determineTradeType trade = BUY) /\
  (~ targetIsMaker trade -> ~ targetIsTaker trade ->
     determineTradeType trade = UNKNOWN).
Proof.
  repeat split.
  - intros Hm Hz. rewrite (maker_branch _ Hm). now rewrite (sentinel_eqb _ Hz).
  - intros Hm Hz. rewrite (maker_branch _ Hm). now rewrite (non_sentinel_eqb _ Hz).
  - intros Hm Ht Hz. rewrite (taker_branch _ Hm Ht). now rewrite (sentinel_eqb _ Hz).
  - intros Hm Ht Hz. rewrite (taker_branch _ Hm Ht). now rewrite (non_sentinel_eqb _ Hz).
  - apply neither_branch.
Qed.

Lemma C1_determineTradeType_table_witness :
  determineTradeType (fill TARGET_ADDRESS "0x01" "0" "7") = BUY /\
  determineTradeType (fill TARGET_ADDRESS "0x01" "7" "0") = SELL /\
  determineTradeType (fill "0x01" TARGET_ADDRESS "7" "0") = SELL /\
  determineTradeType (fill "0x01" TARGET_ADDRESS "0" "7") = BUY /\
  determineTradeType (fill "0x01" "0x02" "0" "7") = UNKNOWN.
Proof.
  split; [| split; [| split; [| split]]].
  - refine (proj1 (C1_determineTradeType_table _) _ _); reflexivity.
  - refine (proj1 (proj2 (C1_determineTradeType_table _)) _ _);
      [reflexivity | vm_compute; discriminate].
  - refine (proj1 (proj2 (proj2 (C1_determineTradeType_table _))) _ _ _);
      [vm_compute; discriminate | reflexivity | reflexivity].
  - refine (proj1 (proj2 (proj2 (proj2 (C1_determineTradeType_table _)))) _ _ _);
      [vm_compute; discriminate | reflexivity | vm_compute; discriminate].
  - refine (proj2 (proj2 (proj2 (proj2 (C1_determineTradeType_table _)))) _ _);
      vm_compute; discriminate.
Defined.

(** C2, as stated, fails: with both asset ids different from '0' and the
    target as maker the function answers SELL, not UNKNOWN. *)
Lemma C2_dual_non_sentinel_counterexample :
  let trade := fill TARGET_ADDRESS "0x01" "5" "7" in
  makerAssetId trade <> ZERO_ASSET /\ takerAssetId trade <> ZERO_ASSET /\
  targetIsMaker trade /\
  determineTradeType trade = SELL /\ determineTradeType trade <> UNKNOWN.
Proof. repeat split; try reflexivity; discriminate. Qed.

(** C2 (amended): for every fill in which both makerAssetId and takerAssetId
    differ from '0', determineTradeType returns SELL when the target is the
    maker, BUY when the target is the taker and not the maker, and UNKNOWN
    only when the target is neither party. *)
Theorem C2_dual_non_sentinel (trade : RawFillEvent) :
  makerAssetId trade <> ZERO_ASSET -> takerAssetId trade <> ZERO_ASSET ->
  (targetIsMaker trade -> determineTradeType trade = SELL) /\
  (~ targetIsMaker trade -> targetIsTaker trade ->
     determineTradeType trade = BUY) /\
  (determineTradeType trade = UNKNOWN <->
     ~ targetIsMaker trade /\ ~ targetIsTaker trade).
Proof.
  intros Hmz Htz. unfold determineTradeType, targetIsMaker, targetIsTaker, sameAddress.
  rewrite (non_sentinel_eqb _ Hmz), (non_sentinel_eqb _ Htz).
  destruct (String.eqb_spec (toLowerCase (maker trade)) (toLowerCase TARGET_ADDRESS)) as [Em|Em];
  destruct (String.eqb_spec (toLowerCase (taker trade)) (toLowerCase TARGET_ADDRESS)) as [Et|Et];
  repeat split; intros; try tauto; try discriminate; try reflexivity;
  match goal with
  | H : _ /\ _ |- _ => destruct H; tauto
  | _ => idtac
  end.
Qed.

Lemma C2_dual_non_sentinel_witness :
  determineTradeType (fill TARGET_ADDRESS "0x01" "5" "7") = SELL /\
  determineTradeType (fill "0x01" TARGET_ADDRESS "5" "7") = BUY /\
  determineTradeType (fill "0x01" "0x02" "5" "7") = UNKNOWN.
Proof.
  split; [| split].
  - refine (proj1 (C2_dual_non_sentinel _ _ _) _);
      [vm_compute; discriminate | vm_compute; discriminate | reflexivity].
  - refine (proj1 (proj2 (C2_dual_non_sentinel _ _ _)) _ _);
      [vm_compute; discriminate | vm_compute; discriminate
      | vm_compute; discriminate | reflexivity].
  - refine (proj2 (proj2 (proj2 (C2_dual_non_sentinel _ _ _))) _);
      [vm_compute; discriminate | vm_compute; discriminate
      | split; vm_compute; discriminate].
Defined.

End ClassifierProofs.

(* ===================================================================== *)
(** * Properties of the two mirrorTrade functions                         *)
(* ===================================================================== *)

Module MirrorProofs.
Import JS Clob Format MirrorSpec MirrorFlow Samples.

Local Arguments Mirror.roundPrice : simpl never.
Local Arguments Mirror.roundSize : simpl never.
Local Arguments truthy : simpl never.
Local Arguments strictEqStr : simpl never.
Local Arguments renderable : simpl never.
Local Arguments parseFloatValue : simpl never.

(** ** The console lines in front of the try block *)

Lemma printable_fields td :
  printable td = true ->
  renderable (asset td) = true /\ renderable (side td) = true /\
  renderable (size td) = true /\ renderable (price td) = true.
Proof.
  unfold printable. intros H.
  repeat (apply andb_prop in H; destruct H as [H ?]). auto.
Qed.

Lemma interpolate_renderable v : renderable v = true -> interpolate v = inr tt.
Proof. intros H. unfold interpolate. now rewrite H. Qed.

Lemma parseFloat_renderable v :
  renderable v = true -> parseFloat v = inr (parseFloatValue v).
Proof. intros H. unfold parseFloat. now rewrite H. Qed.

Lemma formatPrice_renderable v : renderable v = true -> formatPrice v = inr tt.
Proof. intros H. unfold formatPrice. now rewrite (parseFloat_renderable _ H). Qed.

Ltac printable_steps Hp :=
  let Ha := fresh "Ha" in
  let Hs := fresh "Hs" in
  let Hz := fresh "Hz" in
  let Hq := fresh "Hq" in
  destruct (printable_fields _ Hp) as [Ha [Hs [Hz Hq]]];
  rewrite ?(interpolate_renderable _ Ha), ?(interpolate_renderable _ Hs),
    ?(interpolate_renderable _ Hz), ?(interpolate_renderable _ Hq),
    ?(formatPrice_renderable _ Hq), ?(parseFloat_renderable _ Hq),
    ?(parseFloat_renderable _ Hz).

Ltac unprintable_cases td :=
  unfold printable, interpolate, formatPrice, parseFloat in *;
  destruct (renderable (asset td)); destruct (renderable (side td));
  destruct (renderable (size td)); destruct (renderable (price td));
  try discriminate.

Lemma mirrorTrade_abort client td :
  Mirror.missingRequiredField td = true -> printable td = true ->
  Mirror.mirrorTrade client td = (abortTrace td, inr JNull).
Proof.
  intros H Hp. unfold Mirror.mirrorTrade. unfold Mirror.missingRequiredField in H.
  rewrite H. printable_steps Hp. reflexivity.
Qed.

(** The report line of an aborted attempt needs the text of all four fields. *)
Lemma mirrorTrade_abort_throws client td :
  Mirror.missingRequiredField td = true -> printable td = false ->
  exists e, Mirror.mirrorTrade client td = ([ConsoleError MsgMissingFields], inl e).
Proof.
  intros H Hp. unfold Mirror.mirrorTrade. unfold Mirror.missingRequiredField in H.
  rewrite H. unprintable_cases td; eexists; reflexivity.
Qed.

(** So do the two lines printed in front of the try block. *)
Lemma mirrorTrade_unprintable client td :
  Mirror.missingRequiredField td = false -> printable td = false ->
  exists tr e, Mirror.mirrorTrade client td = (tr, inl e) /\
    (tr = [ConsoleLog MsgMirroring] \/
     tr = [ConsoleLog MsgMirroring; ConsoleLog (MsgTokenId (asset td))]).
Proof.
  intros H Hp. unfold Mirror.mirrorTrade. unfold Mirror.missingRequiredField in H.
  rewrite H. unprintable_cases td; eexists; eexists; (split; [reflexivity|]); auto.
Qed.

Lemma abortTrace_no_call td e : In e (abortTrace td) -> isNetworkCall e = false.
Proof. intros [<-|[<-|[]]]; reflexivity. Qed.

Lemma mirrorTrade_submits c td :
  Mirror.missingRequiredField td = false -> printable td = true ->
  submittedOrders (Mirror.mirrorTrade (Some c) td) = [builtParams td].
Proof.
  intros H Hp. unfold Mirror.mirrorTrade. unfold Mirror.missingRequiredField in H.
  rewrite H. printable_steps Hp. unfold submittedOrders, trace, builtParams.
  cbn.
  destruct (createOrder c _) as [e|order]; cbn.
  - destruct (truthy (response_data e)); reflexivity.
  - destruct (postOrder c order IOC) as [e|result]; cbn.
    + destruct (truthy (response_data e)); reflexivity.
    + destruct (getProp result "success") as [e|flag]; cbn.
      * destruct (truthy (response_data e)); reflexivity.
      * destruct (truthy flag); reflexivity.
Qed.

(** A call that throws in front of the try block, or aborts, reaches no
    method of the client. *)
Lemma mirrorTrade_stops_early client td :
  Mirror.missingRequiredField td = true \/ printable td = false ->
  submittedOrders (Mirror.mirrorTrade client td) = [] /\
  noNetworkCall (Mirror.mirrorTrade client td).
Proof.
  intros H.
  assert (Hshape : exists tr r, Mirror.mirrorTrade client td = (tr, r) /\
            (tr = abortTrace td \/ tr = [ConsoleError MsgMissingFields] \/
             tr = [ConsoleLog MsgMirroring] \/
             tr = [ConsoleLog MsgMirroring; ConsoleLog (MsgTokenId (asset td))])).
  { destruct (Mirror.missingRequiredField td) eqn:Hm;
      destruct (printable td) eqn:Hp.
    - rewrite (mirrorTrade_abort _ _ Hm Hp). eexists; eexists; split; eauto.
    - destruct (mirrorTrade_abort_throws client _ Hm Hp) as [e ->].
      eexists; eexists; split; eauto.
    - destruct H; discriminate.
    - destruct (mirrorTrade_unprintable client _ Hm Hp) as [tr [e [-> Htr]]].
      eexists; eexists; split; [reflexivity|]. tauto. }
  destruct Hshape as [tr [r [-> Htr]]]. unfold submittedOrders, noNetworkCall, trace.
  cbn [fst].
  destruct Htr as [-> | [-> | [-> | ->]]]; (split; [reflexivity|]);
    intros e He; cbn in He; intuition (subst; reflexivity).
Qed.

Lemma mirrorTrade_no_client td :
  submittedOrders (Mirror.mirrorTrade None td) = [].
Proof.
  destruct (Mirror.missingRequiredField td) eqn:Hm;
    [apply (mirrorTrade_stops_early None td); now left|].
  destruct (printable td) eqn:Hp;
    [|apply (mirrorTrade_stops_early None td); now right].
  unfold Mirror.mirrorTrade, submittedOrders, trace.
  unfold Mirror.missingRequiredField in Hm. rewrite Hm.
  printable_steps Hp. reflexivity.
Qed.

Lemma submitted_is_built client td o :
  In o (submittedOrders (Mirror.mirrorTrade client td)) ->
  o = builtParams td /\ Mirror.missingRequiredField td = false /\
  printable td = true.
Proof.
  destruct (Mirror.missingRequiredField td) eqn:Hm.
  { rewrite (proj1 (mirrorTrade_stops_early client td (or_introl Hm))).
    intros []. }
  destruct (printable td) eqn:Hp.
  2:{ rewrite (proj1 (mirrorTrade_stops_early client td (or_intror Hp))).
      intros []. }
  destruct client as [c|].
  - rewrite (mirrorTrade_submits _ _ Hm Hp). intros [<-|[]]. now repeat split.
  - rewrite mirrorTrade_no_client. intros [].
Qed.

Lemma submitted_in_trace {A} (m : M A) p :
  In p (submittedOrders m) <-> In (CallCreateOrder p) (trace m).
Proof.
  unfold submittedOrders. rewrite in_flat_map. split.
  - intros [e [He Hp]]. destruct e; try contradiction.
    destruct Hp as [<-|[]]. exact He.
  - intros H. exists (CallCreateOrder p). split; [exact H | now left].
Qed.

(** Falsy values of the fields. *)
Lemma falsy_field_aborts td :
  truthy (asset td) = false \/ truthy (side td) = false \/
  truthy (size td) = false \/ truthy (price td) = false ->
  Mirror.missingRequiredField td = true.
Proof.
  unfold Mirror.missingRequiredField.
  intros [H|[H|[H|H]]]; rewrite H; cbn; auto using orb_true_r.
  all: repeat rewrite orb_true_r; reflexivity.
Qed.

(** ** The JavaScript fragment on sample values *)

Example parseFloat_samples :
  parseFloat (JStr "0.4567") = inr (round64 0.4567) /\
  parseFloat (JStr "  5") = inr (Fin 5) /\
  parseFloat (JStr "5e-1x") = inr (Fin (1 # 2)) /\
  parseFloat (JStr "-.5") = inr (Fin (-1 # 2)) /\
  parseFloat (JStr "abc") = inr NaN /\
  parseFloat (JStr "") = inr NaN /\
  parseFloat (JStr "-Infinity") = inr NegInf /\
  parseFloat (JStr "1e400") = inr PosInf /\
  parseFloat (JStr "1e-400") = inr (Fin 0) /\
  parseFloat JUndefined = inr NaN /\
  parseFloat (JNum (round64 1.2)) = inr (round64 1.2) /\
  parseFloat (JArr [JStr " 7px"; JObj []]) = inr (Fin 7) /\
  parseFloat (JObj []) = inr NaN /\
  parseFloat unprintable
    = inl (TypeError "Cannot convert object to primitive value") /\
  parseFloat (JArr [JNum (Fin 1); unprintable])
    = inl (TypeError "Cannot convert object to primitive value").
Proof. vm_compute. repeat split. Qed.

(** Binary64 on sample values: 0.5 is a binary64 number, the decimal 0.1 is
    not; a product is rounded, and can fall below or on a midpoint that the
    decimals do not show; there is overflow, and gradual underflow with
    ties going to the even neighbour. *)
Example round64_samples :
  round64 0.5 = Fin (1 # 2) /\
  round64 0.1 = Fin (3602879701896397 # 36028797018963968) /\
  jsMul (round64 0.5005) (Fin 1000) = round64 500.49999999999994 /\
  jsMul (round64 1.005) (Fin 100) = round64 100.49999999999999 /\
  jsMul (round64 0.0115) (Fin 1000) = Fin (23 # 2) /\
  jsMul (Fin (Qpower 10 307)) (Fin 100) = PosInf /\
  round64 (Qpower 2 (-1075)) = Fin 0 /\
  round64 (3 * Qpower 2 (-1075)) = Fin (Qpower 2 (-1073)).
Proof. vm_compute. repeat split. Qed.

Example truthy_samples :
  truthy (JStr "0") = true /\ truthy (JStr "abc") = true /\
  truthy (JStr "") = false /\ truthy (JNum (Fin 0)) = false /\
  truthy (JNum NaN) = false /\ truthy JUndefined = false /\
  truthy JNull = false /\ truthy (JNum (round64 (-0.01))) = true /\
  truthy unprintable = true /\ truthy (JArr []) = true.
Proof. vm_compute. repeat split. Qed.

Example Math_round_samples :
  Math_round (Fin (5 # 2)) = Fin 3 /\
  Math_round (Fin (-5 # 2)) = Fin (-2) /\
  Math_round (Fin (-27 # 10)) = Fin (-3) /\
  Math_round NaN = NaN /\
  Math_min Mirror.tickMax NaN = NaN /\
  Math_max Mirror.tickMin (Math_min Mirror.tickMax PosInf) = Mirror.tickMax.
Proof. vm_compute. repeat split. Qed.

(** ** C3: the side field *)

(** C3, as stated, fails: the input of the specification's own example, side
    'HOLD', passes the required-fields check, is mapped to Side.SELL and is
    sent to createOrder and postOrder, by either mirrorTrade. *)
Lemma C3_hold_is_submitted_counterexample :
  let td := order "HOLD" "5" "0.5" in
  let m := Mirror.mirrorTrade (Some acceptingClient) td in
  let m' := MirrorPlain.mirrorTrade (Some acceptingClient) td in
  side td <> JStr "BUY" /\ side td <> JStr "SELL" /\
  In (CallCreateOrder
        (OrderParams.mk (JStr "123") SELL (Fin 5) (Fin (1 # 2)) (Some 0%Z)))
     (trace m) /\
  In (CallPostOrder signedOrder IOC) (trace m) /\
  In (CallCreateOrder
        (OrderParams.mk (JStr "123") SELL (Fin 5) (Fin (1 # 2)) None))
     (trace m') /\
  In (CallPostOrder signedOrder GTC) (trace m').
Proof.
  cbv zeta. split; [discriminate|]. split; [discriminate|].
  vm_compute. intuition.
Qed.

(** C3 (amended): the mirrorTrade of lines 101-163 makes no call of
    createOrder or postOrder for an input whose side is missing or otherwise
    falsy (undefined, null, the empty string): it reports the missing fields
    and returns null, or, when one of the four fields has no string form,
    throws while it builds the report line.  Every other side that is not
    the string 'BUY' - 'HOLD' and 'UNKNOWN' included - is not rejected: with
    the four fields present and printable and a client available,
    createOrder is called once, with Side.SELL. *)
Theorem C3_side_validation (client : option ClobClient) (c : ClobClient)
    (td : TradeData) :
  (truthy (side td) = false ->
     noNetworkCall (Mirror.mirrorTrade client td) /\
     submittedOrders (Mirror.mirrorTrade client td) = [] /\
     (printable td = true ->
        Mirror.mirrorTrade client td = (abortTrace td, inr JNull)) /\
     (printable td = false ->
        exists e, Mirror.mirrorTrade client td
                  = ([ConsoleError MsgMissingFields], inl e))) /\
  (Mirror.missingRequiredField td = false -> printable td = true ->
   strictEqStr (side td) "BUY" = false ->
     submittedOrders (Mirror.mirrorTrade (Some c) td) = [builtParams td] /\
     OrderParams.side (builtParams td) = SELL).
Proof.
  split.
  - intros H.
    assert (Hm : Mirror.missingRequiredField td = true)
      by (apply falsy_field_aborts; auto).
    destruct (mirrorTrade_stops_early client td (or_introl Hm)) as [Hsub Hno].
    split; [exact Hno|]. split; [exact Hsub|]. split.
    + now apply mirrorTrade_abort.
    + now apply mirrorTrade_abort_throws.
  - intros Hm Hp Hs. split; [now apply mirrorTrade_submits|].
    unfold builtParams. cbn. now rewrite Hs.
Qed.

Lemma C3_side_validation_witness :
  (noNetworkCall (Mirror.mirrorTrade (Some acceptingClient) (order "" "5" "0.5")) /\
   submittedOrders (Mirror.mirrorTrade (Some acceptingClient) (order "" "5" "0.5")) = [] /\
   Mirror.mirrorTrade (Some acceptingClient) (order "" "5" "0.5")
     = (abortTrace (order "" "5" "0.5"), inr JNull)) /\
  (submittedOrders (Mirror.mirrorTrade (Some acceptingClient) (order "UNKNOWN" "5" "0.5"))
     = [builtParams (order "UNKNOWN" "5" "0.5")] /\
   OrderParams.side (builtParams (order "UNKNOWN" "5" "0.5")) = SELL).
Proof.
  split.
  - destruct (proj1 (C3_side_validation (Some acceptingClient) acceptingClient
                       (order "" "5" "0.5")) eq_refl) as [H1 [H2 [H3 _]]].
    split; [exact H1|]. split; [exact H2|]. apply H3. reflexivity.
  - refine (proj2 (C3_side_validation None acceptingClient
                     (order "UNKNOWN" "5" "0.5")) _ _ _); reflexivity.
Defined.

(** With a side that is falsy and an asset that has no string form, the
    attempt is aborted by the exception of the report line. *)
Example abort_report_throws :
  let td := mkTradeData unprintable (JStr "") (JStr "5") (JStr "0.5") in
  Mirror.mirrorTrade (Some acceptingClient) td
  = ([ConsoleError MsgMissingFields],
     inl (TypeError "Cannot convert object to primitive value")).
Proof. reflexivity. Qed.

(** ** C4: required fields *)

(** The values a missing or blank field can have are all falsy. *)
Lemma missing_values_are_falsy v :
  In v [JUndefined; JNull; JStr ""; JNum (Fin 0); JNum NaN; JBool false] ->
  truthy v = false.
Proof. intros H. repeat destruct H as [<-|H]; try reflexivity. destruct H. Qed.

(** C4, as stated, fails: a size that is present but not numeric, 'abc', is
    not rejected; createOrder and postOrder are called with size NaN. *)
Lemma C4_non_numeric_size_counterexample :
  let td := order "BUY" "abc" "0.5" in
  let m := Mirror.mirrorTrade (Some acceptingClient) td in
  parseFloat (size td) = inr NaN /\
  In (CallCreateOrder
        (OrderParams.mk (JStr "123") BUY NaN (Fin (1 # 2)) (Some 0%Z)))
     (trace m) /\
  In (CallPostOrder signedOrder IOC) (trace m) /\
  snd m <> inr JNull.
Proof.
  cbv zeta. split; [reflexivity|]. vm_compute. intuition discriminate.
Qed.

(** C4 (amended): for every input in which asset, side, size or price is
    missing or otherwise falsy (undefined, null, the empty string, 0, NaN), the
    mirrorTrade of lines 101-163 calls neither createOrder nor postOrder: it
    logs the missing-fields error with the four values and returns null, or,
    when one of the four fields has no string form, throws while it builds
    that line; and no order it submits comes from an input with such a
    field. *)
Theorem C4_missing_field_aborts (client : option ClobClient) (td : TradeData) :
  (truthy (asset td) = false \/ truthy (side td) = false \/
   truthy (size td) = false \/ truthy (price td) = false ->
     noNetworkCall (Mirror.mirrorTrade client td) /\
     submittedOrders (Mirror.mirrorTrade client td) = [] /\
     (printable td = true ->
        Mirror.mirrorTrade client td = (abortTrace td, inr JNull)) /\
     (printable td = false ->
        exists e, Mirror.mirrorTrade client td
                  = ([ConsoleError MsgMissingFields], inl e))) /\
  (forall o, In o (submittedOrders (Mirror.mirrorTrade client td)) ->
     truthy (asset td) = true /\ truthy (side td) = true /\
     truthy (size td) = true /\ truthy (price td) = true).
Proof.
  split.
  - intros H. apply falsy_field_aborts in H.
    destruct (mirrorTrade_stops_early client td (or_introl H)) as [Hsub Hno].
    split; [exact Hno|]. split; [exact Hsub|]. split.
    + now apply mirrorTrade_abort.
    + now apply mirrorTrade_abort_throws.
  - intros o Ho. apply submitted_is_built in Ho. destruct Ho as [_ [Hm _]].
    unfold Mirror.missingRequiredField in Hm.
    repeat (apply orb_false_elim in Hm; destruct Hm as [Hm ?]).
    repeat match goal with
    | H : negb _ = false |- _ => apply negb_false_iff in H
    end.
    auto.
Qed.

Lemma C4_missing_field_aborts_witness :
  let td := mkTradeData (JStr "123") (JStr "BUY") JUndefined (JNum (Fin (1 # 2))) in
  noNetworkCall (Mirror.mirrorTrade (Some acceptingClient) td) /\
  submittedOrders (Mirror.mirrorTrade (Some acceptingClient) td) = [] /\
  Mirror.mirrorTrade (Some acceptingClient) td = (abortTrace td, inr JNull).
Proof.
  cbv zeta.
  destruct (proj1 (C4_missing_field_aborts (Some acceptingClient)
              (mkTradeData (JStr "123") (JStr "BUY") JUndefined (JNum (Fin (1 # 2)))))
              (or_intror (or_intror (or_introl eq_refl)))) as [H1 [H2 [H3 _]]].
  split; [exact H1|]. split; [exact H2|]. apply H3. reflexivity.
Defined.

(** ** C5: price and size normalisation *)

Local Open Scope Q_scope.

Lemma Qle_bool_false a b : Qle_bool a b = false -> b < a.
Proof.
  intros H. apply Qnot_le_lt. intros Hle.
  apply Qle_bool_iff in Hle. congruence.
Qed.

Lemma least_half_small : pow2 (-1075) <= 1 # 1048576.
Proof. change (1 # 1048576) with (pow2 (-20)). apply NumberProofs.pow2_le. lia. Qed.

Lemma pow2_1023_large : 1048576 <= pow2 1023.
Proof. change 1048576 with (pow2 20). apply NumberProofs.pow2_le. lia. Qed.

Lemma roundingError_nonneg x : 0 <= roundingError x.
Proof.
  unfold roundingError. pose proof (Qabs_nonneg x).
  pose proof (NumberProofs.pow2_pos (-1075)). rewrite NumberProofs.pow2_53. lra.
Qed.

Lemma thousandths k : inject_Z k / (1000 # 1) == inject_Z k * (1 # 1000).
Proof. reflexivity. Qed.

Lemma hundredths j : inject_Z j / (100 # 1) == inject_Z j * (1 # 100).
Proof. reflexivity. Qed.

Ltac number_facts :=
  pose proof least_half_small; pose proof pow2_1023_large;
  pose proof (NumberProofs.pow2_pos (-1075));
  rewrite ?NumberProofs.pow2_53 in *.

(** Below ten thousandths the quotient is below the literal 0.01. *)
Lemma ticks_low (k : Z) :
  (k <= 9)%Z ->
  match ticks k with
  | Fin y => y < 5764607523034235 # 576460752303423488
  | NegInf => True
  | _ => False
  end.
Proof.
  intros Hk. unfold ticks.
  pose proof (NumberProofs.round64_cases (inject_Z k / (1000 # 1))) as H.
  rewrite Zle_Qle in Hk. change (inject_Z 9) with 9 in Hk.
  unfold Qdiv in *. change (/ (1000 # 1)) with (1 # 1000) in *. number_facts.
  set (K := inject_Z k) in *. set (v := pow2 (-1075)) in *.
  set (P := pow2 1023) in *.
  destruct (round64 (K * (1 # 1000))) as [| | |y]; try exact H; try exact I.
  - lra.
  - destruct H as [_ [Hhi [_ [Hneg _]]]].
    destruct (Qlt_le_dec K 0) as [Hlt|Hge].
    + assert (y <= 0) by (apply Hneg; lra). lra.
    + rewrite Qabs_pos in Hhi by lra. lra.
Qed.

(** Above 990 thousandths the quotient is above the literal 0.99. *)
Lemma ticks_high (k : Z) :
  (991 <= k)%Z ->
  match ticks k with
  | Fin y => (4458563631096791 # 4503599627370496) < y
  | PosInf => True
  | _ => False
  end.
Proof.
  intros Hk. unfold ticks.
  pose proof (NumberProofs.round64_cases (inject_Z k / (1000 # 1))) as H.
  rewrite Zle_Qle in Hk. change (inject_Z 991) with 991 in Hk.
  unfold Qdiv in *. change (/ (1000 # 1)) with (1 # 1000) in *. number_facts.
  set (K := inject_Z k) in *. set (v := pow2 (-1075)) in *.
  set (P := pow2 1023) in *.
  destruct (round64 (K * (1 # 1000))) as [| | |y]; try exact H; try exact I.
  - lra.
  - destruct H as [Hlo _]. rewrite Qabs_pos in Hlo by lra. lra.
Qed.

Lemma ticks_mid (k : Z) :
  (11 <= k <= 989)%Z ->
  exists y, ticks k = Fin y /\
    (5764607523034235 # 576460752303423488) < y /\
    y < (4458563631096791 # 4503599627370496).
Proof.
  intros [Hlo Hhi]. unfold ticks.
  pose proof (NumberProofs.round64_cases (inject_Z k / (1000 # 1))) as H.
  rewrite Zle_Qle in Hlo, Hhi.
  change (inject_Z 11) with 11 in Hlo. change (inject_Z 989) with 989 in Hhi.
  unfold Qdiv in *. change (/ (1000 # 1)) with (1 # 1000) in *. number_facts.
  set (K := inject_Z k) in *. set (v := pow2 (-1075)) in *.
  set (P := pow2 1023) in *.
  destruct (round64 (K * (1 # 1000))) as [| | |y]; try contradiction; try lra.
  exists y. split; [reflexivity|].
  destruct H as [Hb1 [Hb2 _]]. rewrite Qabs_pos in Hb1, Hb2 by lra. lra.
Qed.

(** Clamping the quotient of an integer by 1000 gives the quotient of the
    clamped integer. *)
Lemma clamp_ticks (k : Z) :
  Math_max Mirror.tickMin (Math_min Mirror.tickMax (ticks k)) =
  ticks (clampZ 10 990 k).
Proof.
  unfold clampZ.
  assert (Hmin : ticks 10 = Mirror.tickMin) by (vm_compute; reflexivity).
  assert (Hmax : ticks 990 = Mirror.tickMax) by (vm_compute; reflexivity).
  assert (Hboth : Math_max Mirror.tickMin Mirror.tickMax = Mirror.tickMax)
    by (vm_compute; reflexivity).
  destruct (Z_le_gt_dec k 9) as [Hlow|Hlow].
  { replace (Z.max 10 (Z.min 990 k)) with 10%Z by lia. rewrite Hmin.
    pose proof (ticks_low k Hlow) as H.
    destruct (ticks k) as [| | |y]; try contradiction; [reflexivity|].
    unfold Mirror.tickMin, Mirror.tickMax. cbn [Math_min].
    destruct (Qle_bool (4458563631096791 # 4503599627370496) y) eqn:E1;
      [apply Qle_bool_iff in E1; lra|].
    cbn [Math_max].
    destruct (Qle_bool (5764607523034235 # 576460752303423488) y) eqn:E2;
      [apply Qle_bool_iff in E2; lra|].
    reflexivity. }
  destruct (Z_le_gt_dec 991 k) as [Hhigh|Hhigh].
  { replace (Z.max 10 (Z.min 990 k)) with 990%Z by lia. rewrite Hmax.
    pose proof (ticks_high k Hhigh) as H.
    destruct (ticks k) as [| | |y]; try contradiction; [exact Hboth|].
    rewrite <- Hboth at 2. f_equal.
    unfold Mirror.tickMax. cbn [Math_min].
    destruct (Qle_bool (4458563631096791 # 4503599627370496) y) eqn:E1;
      [reflexivity | apply Qle_bool_false in E1; lra]. }
  replace (Z.max 10 (Z.min 990 k)) with k by lia.
  destruct (Z.eq_dec k 10) as [->|N10]; [vm_compute; reflexivity|].
  destruct (Z.eq_dec k 990) as [->|N990]; [vm_compute; reflexivity|].
  destruct (ticks_mid k) as [y [-> [Hy1 Hy2]]]; [lia|].
  unfold Mirror.tickMin, Mirror.tickMax. cbn [Math_min].
  destruct (Qle_bool (4458563631096791 # 4503599627370496) y) eqn:E1;
    [apply Qle_bool_iff in E1; lra|].
  cbn [Math_max].
  destruct (Qle_bool (5764607523034235 # 576460752303423488) y) eqn:E2;
    [reflexivity|].
  apply Qle_bool_false in E2. lra.
Qed.

(** The integer that Math.round makes of a rounded product. *)
Lemma round_of_product (x z : Q) :
  x - roundingError x <= z -> z <= x + roundingError x ->
  nearlyNearest x (Qfloor (z + (1 # 2))).
Proof.
  intros Hlo Hhi. unfold nearlyNearest.
  pose proof (Qfloor_le (z + (1 # 2))) as H1.
  pose proof (Qlt_floor (z + (1 # 2))) as H2.
  rewrite inject_Z_plus in H2. change (inject_Z 1) with 1 in H2.
  split; lra.
Qed.

Lemma floor_above (x : Q) (n : Z) :
  inject_Z n + 1 <= x -> (n <= Qfloor (x + (1 # 2)))%Z.
Proof.
  intros H. pose proof (Qlt_floor (x + (1 # 2))) as H2.
  rewrite inject_Z_plus in H2. change (inject_Z 1) with 1 in H2.
  assert (Hlt : inject_Z n < inject_Z (Qfloor (x + (1 # 2)) + 1)).
  { rewrite inject_Z_plus. change (inject_Z 1) with 1. lra. }
  rewrite <- Zlt_Qlt in Hlt. lia.
Qed.

Lemma floor_below (x : Q) (n : Z) :
  x <= inject_Z n - 1 -> (Qfloor (x + (1 # 2)) <= n)%Z.
Proof.
  intros H. pose proof (Qfloor_le (x + (1 # 2))) as H1.
  assert (Hlt : inject_Z (Qfloor (x + (1 # 2))) < inject_Z n) by lra.
  rewrite <- Zlt_Qlt in Hlt. lia.
Qed.

Lemma roundPrice_cases (x : JSNumber) :
  match x with
  | NaN => Mirror.roundPrice x = NaN
  | PosInf => Mirror.roundPrice x = ticks 990
  | NegInf => Mirror.roundPrice x = ticks 10
  | Fin p =>
      exists k, nearlyNearest (p * 1000) k /\
                Mirror.roundPrice x = ticks (clampZ 10 990 k)
  end.
Proof.
  destruct x as [| | |p]; try reflexivity.
  unfold Mirror.roundPrice, Mirror.thousand. cbn [jsMul].
  pose proof (NumberProofs.round64_cases (p * 1000)) as H.
  pose proof (roundingError_nonneg (p * 1000)) as He.
  pose proof pow2_1023_large as HP.
  destruct (round64 (p * 1000)) as [| | |z]; [contradiction| | |].
  - exists (Qfloor (p * 1000 + (1 # 2))). split.
    + apply round_of_product; lra.
    + replace (clampZ 10 990 (Qfloor (p * 1000 + (1 # 2)))) with 990%Z;
        [reflexivity|].
      assert (990 <= Qfloor (p * 1000 + (1 # 2)))%Z
        by (apply floor_above; change (inject_Z 990) with 990; lra).
      unfold clampZ. lia.
  - exists (Qfloor (p * 1000 + (1 # 2))). split.
    + apply round_of_product; lra.
    + replace (clampZ 10 990 (Qfloor (p * 1000 + (1 # 2)))) with 10%Z;
        [reflexivity|].
      assert (Qfloor (p * 1000 + (1 # 2)) <= 10)%Z
        by (apply floor_below; change (inject_Z 10) with 10; lra).
      unfold clampZ. lia.
  - exists (Qfloor (z + (1 # 2))). split.
    + apply round_of_product; unfold roundingError; tauto.
    + cbn [Math_round jsDiv].
      change (Qeq_bool (1000 # 1) 0) with false. cbv iota.
      apply clamp_ticks.
Qed.

Lemma roundSize_cases (x : JSNumber) :
  match x with
  | Fin q =>
      (exists j, nearlyNearest (q * 100) j /\ Mirror.roundSize x = cents j) \/
      (Mirror.roundSize x = PosInf /\ pow2 1023 <= q * 100) \/
      (Mirror.roundSize x = NegInf /\ q * 100 <= - pow2 1023)
  | other => Mirror.roundSize x = other
  end.
Proof.
  destruct x as [| | |q]; try reflexivity.
  unfold Mirror.roundSize, Mirror.hundred. cbn [jsMul].
  pose proof (NumberProofs.round64_cases (q * 100)) as H.
  destruct (round64 (q * 100)) as [| | |z]; [contradiction| | |].
  - right. left. split; [reflexivity | exact H].
  - right. right. split; [reflexivity | exact H].
  - left. exists (Qfloor (z + (1 # 2))). split.
    + apply round_of_product; unfold roundingError; tauto.
    + reflexivity.
Qed.

Lemma clamped_in_range (y : JSNumber) :
  y <> NaN ->
  inRange (1 # 100) (99 # 100) (Math_max Mirror.tickMin (Math_min Mirror.tickMax y)).
Proof.
  intros Hy. unfold inRange, Mirror.tickMin, Mirror.tickMax.
  destruct y as [| | |y]; [contradiction| | |]; cbn.
  - split; [discriminate | discriminate].
  - split; discriminate.
  - destruct (Qle_bool _ y) eqn:E1; cbn.
    + split; discriminate.
    + apply Qle_bool_false in E1.
      destruct (Qle_bool _ y) eqn:E2; cbn.
      * apply Qle_bool_iff in E2. split; lra.
      * split; discriminate.
Qed.

Lemma ticks_not_NaN k : ticks k <> NaN.
Proof.
  unfold ticks. pose proof (NumberProofs.round64_cases (inject_Z k / (1000 # 1))) as H.
  intros E. now rewrite E in H.
Qed.

Lemma roundPrice_in_range (x : JSNumber) :
  x <> NaN -> inRange (1 # 100) (99 # 100) (Mirror.roundPrice x).
Proof.
  intros Hx. unfold Mirror.roundPrice. apply clamped_in_range.
  destruct x as [| | |p]; [contradiction|discriminate|discriminate|].
  unfold Mirror.thousand. cbn [jsMul].
  pose proof (NumberProofs.round64_cases (p * 1000)) as H.
  destruct (round64 (p * 1000)) as [| | |z]; [contradiction|discriminate|discriminate|].
  cbn [Math_round jsDiv]. change (Qeq_bool (1000 # 1) 0) with false. cbv iota.
  apply ticks_not_NaN.
Qed.

Local Close Scope Q_scope.

(** C5, as stated, fails.  An order is submitted whose price is not a number
    of the range: the validating mirrorTrade sends NaN for the price 'abc'.
    The mirrorTrade of lines 496-534 sends price and size as parsed, 1.2
    staying 1.2 and 5.128 staying 5.128.  The tick is not always the nearest
    one: the number 0.0115 lies below the midpoint of 0.011 and 0.012, nearer
    to 0.011, and is sent as 0.012, because its product with 1000 rounds to
    11.5.  And a size is not always a number of two decimals: for '1e307'
    the product with 100 overflows and the size sent is Infinity. *)
Lemma C5_unclamped_price_counterexample :
  submittedOrders (Mirror.mirrorTrade (Some acceptingClient) (order "BUY" "5" "abc"))
    = [OrderParams.mk (JStr "123") BUY (Fin 5) NaN (Some 0%Z)] /\
  ~ inRange (1 # 100) (99 # 100) NaN /\
  submittedOrders (MirrorPlain.mirrorTrade (Some acceptingClient)
                     (mkTradeData (JStr "123") (JStr "BUY")
                        (JNum (round64 5.128)) (JNum (round64 1.2))))
    = [OrderParams.mk (JStr "123") BUY (round64 5.128) (round64 1.2) None] /\
  ~ inRange (1 # 100) (99 # 100) (round64 1.2) /\
  round64 0.0115 = Fin (3314649325744685 # 288230376151711744) /\
  (inject_Z 11 - (1 # 2) < (3314649325744685 # 288230376151711744) * 1000
   < inject_Z 11 + (1 # 2))%Q /\
  submittedOrders (Mirror.mirrorTrade (Some acceptingClient) (order "BUY" "5" "0.0115"))
    = [OrderParams.mk (JStr "123") BUY (Fin 5) (ticks 12) (Some 0%Z)] /\
  ticks 12 <> ticks 11 /\
  submittedOrders (Mirror.mirrorTrade (Some acceptingClient) (order "BUY" "1e307" "0.5"))
    = [OrderParams.mk (JStr "123") BUY PosInf (Fin (1 # 2)) (Some 0%Z)].
Proof.
  split; [vm_compute; reflexivity|]. split; [intros [[] _]|].
  split; [vm_compute; reflexivity|].
  split; [intros [_ H]; vm_compute in H; apply H; reflexivity|].
  split; [vm_compute; reflexivity|].
  split; [split; reflexivity|].
  split; [vm_compute; reflexivity|].
  split; [vm_compute; discriminate|].
  vm_compute; reflexivity.
Qed.

(** C5 (amended): for every order that the mirrorTrade of lines 101-163
    submits, in binary64 arithmetic: if the input price parses to a finite
    number p, the submitted price is the binary64 number nearest to t/1000,
    where t is k brought into the range from 10 to 990 and k is the integer
    nearest to the product p * 1000, a midpoint going up, that product being
    known up to its binary64 rounding error (a relative 2^-53); so the price
    lies between 0.01 and 0.99.  If the input size parses to a finite number
    q, the submitted size is the binary64 number nearest to j/100, j being
    the integer nearest to q * 100 in the same sense, or an infinity when
    q * 100 is beyond the binary64 range.  So 0.4567 gives 0.457, 1.2 gives
    0.99, -0.01 gives 0.01, 0.4565 gives 0.457 and 12.345 gives 12.35; and
    0.5005 gives 0.5 while 0.0115 gives 0.012. *)
Theorem C5_price_and_size_normalization :
  (forall (client : option ClobClient) (td : TradeData) (p : Q)
          (o : OrderParams.t),
     parseFloatValue (price td) = Fin p ->
     In o (submittedOrders (Mirror.mirrorTrade client td)) ->
     exists k : Z,
       nearlyNearest (p * 1000) k /\
       OrderParams.price o = ticks (clampZ 10 990 k) /\
       inRange (1 # 100) (99 # 100) (OrderParams.price o)) /\
  (forall (client : option ClobClient) (td : TradeData) (q : Q)
          (o : OrderParams.t),
     parseFloatValue (size td) = Fin q ->
     In o (submittedOrders (Mirror.mirrorTrade client td)) ->
     (exists j : Z,
        nearlyNearest (q * 100) j /\ OrderParams.size o = cents j) \/
     (OrderParams.size o = PosInf /\ (pow2 1023 <= q * 100)%Q) \/
     (OrderParams.size o = NegInf /\ (q * 100 <= - pow2 1023)%Q)) /\
  Mirror.roundPrice (round64 0.4567) = round64 0.457 /\
  Mirror.roundPrice (round64 1.2) = round64 0.99 /\
  Mirror.roundPrice (round64 (-0.01)) = round64 0.01 /\
  Mirror.roundPrice (round64 0.4565) = round64 0.457 /\
  Mirror.roundPrice (parseFloatValue (JStr "0.4567")) = round64 0.457 /\
  Mirror.roundSize (round64 12.345) = round64 12.35 /\
  Mirror.roundPrice (round64 0.5005) = round64 0.5 /\
  Mirror.roundPrice (round64 0.0115) = round64 0.012.
Proof.
  split; [|split; [|vm_compute; repeat split]].
  - intros client td p o Hp Ho.
    apply submitted_is_built in Ho. destruct Ho as [-> _].
    unfold builtParams. cbn [OrderParams.price]. rewrite Hp.
    destruct (roundPrice_cases (Fin p)) as [k [Hk E]].
    exists k. split; [exact Hk|]. split; [exact E|].
    apply roundPrice_in_range. discriminate.
  - intros client td q o Hq Ho.
    apply submitted_is_built in Ho. destruct Ho as [-> _].
    unfold builtParams. cbn [OrderParams.size]. rewrite Hq.
    exact (roundSize_cases (Fin q)).
Qed.

Lemma C5_price_and_size_normalization_witness :
  exists k : Z,
    nearlyNearest ((4113587899640211 # 9007199254740992) * 1000) k /\
    ticks 457 = ticks (clampZ 10 990 k) /\
    inRange (1 # 100) (99 # 100) (ticks 457).
Proof.
  refine (proj1 C5_price_and_size_normalization (Some acceptingClient)
            (order "BUY" "5" "0.4567") (4113587899640211 # 9007199254740992)%Q
            (OrderParams.mk (JStr "123") BUY (Fin 5) (ticks 457) (Some 0%Z)) _ _).
  - vm_compute. reflexivity.
  - vm_compute. left. reflexivity.
Defined.

(** ** C9: how the submission result is reported *)

Ltac scan_trace H :=
  let e := fresh "e" in
  let Hin := fresh "Hin" in
  let He := fresh "He" in
  destruct H as [e [Hin He]]; cbn in Hin;
  repeat (destruct Hin as [<-|Hin]; [try contradiction|]);
  try contradiction.

Ltac pick_member :=
  cbn; first [left; reflexivity | right; pick_member].

Ltac find_event ev :=
  exists ev; split; [pick_member | exact I].

(** A call that stops in front of the try block prints no verdict. *)
Lemma early_stop_reports_nothing client td :
  Mirror.missingRequiredField td = true \/ printable td = false ->
  ~ reportsSuccess (Mirror.mirrorTrade client td).
Proof.
  intros H [e [Hin He]].
  assert (Hshape : exists tr r, Mirror.mirrorTrade client td = (tr, r) /\
            (tr = abortTrace td \/ tr = [ConsoleError MsgMissingFields] \/
             tr = [ConsoleLog MsgMirroring] \/
             tr = [ConsoleLog MsgMirroring; ConsoleLog (MsgTokenId (asset td))])).
  { destruct (Mirror.missingRequiredField td) eqn:Hm;
      destruct (printable td) eqn:Hp.
    - rewrite (mirrorTrade_abort _ _ Hm Hp). eexists; eexists; split; eauto.
    - destruct (mirrorTrade_abort_throws client _ Hm Hp) as [e' ->].
      eexists; eexists; split; eauto.
    - destruct H; discriminate.
    - destruct (mirrorTrade_unprintable client _ Hm Hp) as [tr [e' [-> Htr]]].
      eexists; eexists; split; [reflexivity|]. tauto. }
  destruct Hshape as [tr [r [E Htr]]]. rewrite E in Hin. unfold trace in Hin.
  cbn [fst] in Hin.
  destruct Htr as [-> | [-> | [-> | ->]]]; cbn in Hin;
    repeat (destruct Hin as [<-|Hin]; [contradiction|]); contradiction.
Qed.

(** The mirrorTrade of lines 101-163 follows the flag: a run reports success
    only if postOrder returned a result with a truthy success property, and
    a returned result whose flag is absent or falsy is reported as failed. *)
Lemma validating_mirror_reports_by_flag (client : option ClobClient)
    (td : TradeData) :
  (reportsSuccess (Mirror.mirrorTrade client td) ->
     exists c order result,
       client = Some c /\
       createOrder c (builtParams td) = inr order /\
       postOrder c order IOC = inr result /\
       successFlag result = true) /\
  (forall c order result,
     client = Some c ->
     Mirror.missingRequiredField td = false ->
     printable td = true ->
     createOrder c (builtParams td) = inr order ->
     postOrder c order IOC = inr result ->
     successFlag result = false ->
     reportsFailure (Mirror.mirrorTrade client td) /\
     ~ reportsSuccess (Mirror.mirrorTrade client td)).
Proof.
  split.
  - destruct (Mirror.missingRequiredField td) eqn:Hm;
      [intros H; now apply (early_stop_reports_nothing client td (or_introl Hm)) in H|].
    destruct (printable td) eqn:Hp;
      [|intros H; now apply (early_stop_reports_nothing client td (or_intror Hp)) in H].
    unfold Mirror.mirrorTrade, reportsSuccess, trace, successFlag.
    unfold Mirror.missingRequiredField in Hm. rewrite Hm. printable_steps Hp.
    destruct client as [c|]; [|intros H; scan_trace H].
    cbn. change (OrderParams.mk _ _ _ _ _) with (builtParams td).
    destruct (createOrder c (builtParams td)) as [e|order] eqn:Ec; cbn.
    { destruct (truthy (response_data e)); intros H; scan_trace H. }
    destruct (postOrder c order IOC) as [e|result] eqn:Ep; cbn.
    { destruct (truthy (response_data e)); intros H; scan_trace H. }
    destruct (getProp result "success") as [e|flag] eqn:Eg; cbn.
    { destruct (truthy (response_data e)); intros H; scan_trace H. }
    destruct (truthy flag) eqn:Ef; cbn.
    + intros _. exists c, order, result. rewrite Eg. auto.
    + intros H; scan_trace H.
  - intros c order result -> Hm Hp Hc Hpost Hf.
    unfold Mirror.mirrorTrade, reportsSuccess, reportsFailure, trace, successFlag in *.
    unfold Mirror.missingRequiredField in Hm. rewrite Hm. printable_steps Hp.
    cbn. change (OrderParams.mk _ _ _ _ _) with (builtParams td).
    rewrite Hc. cbn. rewrite Hpost. cbn.
    destruct (getProp result "success") as [e|flag]; cbn.
    + destruct (truthy (response_data e)); cbn; split;
        try (intros H; scan_trace H);
        find_event (ConsoleError (MsgFailedToMirror (message e))).
    + rewrite Hf. cbn. split; [|intros H; scan_trace H].
      find_event (ConsoleLog (MsgOrderFailed result)).
Qed.

(** C9 fails on the mirrorTrade of lines 496-534: whatever postOrder
    returns, a result without a success flag and a result whose flag is
    false alike, the run logs that the order was placed successfully and
    logs no failure. *)
Theorem C9_plain_mirror_success_by_default :
  let td := order "BUY" "5" "0.5" in
  let absent := MirrorPlain.mirrorTrade (Some flaglessClient) td in
  let refused := MirrorPlain.mirrorTrade (Some rejectingClient) td in
  successFlag (JObj [("error", JStr "invalid order")]) = false /\
  returned absent (JObj [("error", JStr "invalid order")]) /\
  reportsSuccess absent /\ ~ reportsFailure absent /\
  successFlag (JObj [("success", JBool false);
                     ("errorMsg", JStr "not enough balance")]) = false /\
  returned refused (JObj [("success", JBool false);
                          ("errorMsg", JStr "not enough balance")]) /\
  reportsSuccess refused /\ ~ reportsFailure refused.
Proof.
  cbv zeta. unfold reportsSuccess, reportsFailure, returned, trace.
  repeat split; try (find_event (ConsoleLog MsgOrderPlaced));
    intros H; scan_trace H.
Qed.

(** On the same two answers the mirrorTrade of lines 101-163 logs a failure. *)
Example validating_mirror_on_flagless_result :
  let td := order "BUY" "5" "0.5" in
  reportsFailure (Mirror.mirrorTrade (Some flaglessClient) td) /\
  ~ reportsSuccess (Mirror.mirrorTrade (Some flaglessClient) td) /\
  reportsFailure (Mirror.mirrorTrade (Some rejectingClient) td) /\
  ~ reportsSuccess (Mirror.mirrorTrade (Some rejectingClient) td).
Proof.
  cbv zeta. unfold reportsSuccess, reportsFailure, trace.
  repeat split; try (intros H; scan_trace H).
  - find_event (ConsoleLog (MsgOrderFailed (JObj [("error", JStr "invalid order")]))).
  - find_event (ConsoleLog (MsgOrderFailed
      (JObj [("success", JBool false); ("errorMsg", JStr "not enough balance")]))).
Qed.

End MirrorProofs.

(* ===================================================================== *)
(** * Properties of the activity poller                                   *)
(* ===================================================================== *)

Module PollerProofs.
Import JS Poller PollerSpec.
Local Open Scope Z_scope.

(** ** The set operations *)

Lemma has_In seen id : JSSet.has seen id = true <-> In id seen.
Proof.
  unfold JSSet.has. rewrite existsb_exists. split.
  - intros [x [Hx He]]. apply String.eqb_eq in He. now subst.
  - intros H. exists id. split; [exact H | apply String.eqb_refl].
Qed.

Lemma has_false seen id : JSSet.has seen id = false <-> ~ In id seen.
Proof.
  rewrite <- has_In. destruct (JSSet.has seen id); split; congruence.
Qed.

Lemma add_In seen id x : In x (JSSet.add seen id) <-> In x seen \/ x = id.
Proof.
  unfold JSSet.add. destruct (JSSet.has seen id) eqn:H.
  - apply has_In in H. split; [auto | intros [? | ->]; auto].
  - rewrite in_app_iff. cbn. intuition.
Qed.

Lemma add_new seen id : JSSet.has seen id = false -> JSSet.add seen id = (seen ++ [id])%list.
Proof. intros H. unfold JSSet.add. now rewrite H. Qed.

Lemma add_NoDup seen id : NoDup seen -> NoDup (JSSet.add seen id).
Proof.
  intros H. unfold JSSet.add. destruct (JSSet.has seen id) eqn:E; [exact H|].
  apply has_false in E. apply NoDup_app; [exact H | repeat constructor; auto |].
  intros x Hx Hin. destruct Hin as [Heq | []]. subst. contradiction.
Qed.

Lemma delete_absent seen id : ~ In id seen -> JSSet.delete seen id = seen.
Proof.
  unfold JSSet.delete. induction seen as [|x rest IH]; intros H; [reflexivity|].
  cbn. destruct (String.eqb_spec x id) as [->|Hne].
  - exfalso. apply H. now left.
  - cbn. f_equal. apply IH. intros Hin. apply H. now right.
Qed.

Lemma delete_head seen id : ~ In id seen -> JSSet.delete (id :: seen) id = seen.
Proof.
  intros H. unfold JSSet.delete. cbn. rewrite String.eqb_refl. cbn.
  now apply delete_absent.
Qed.

(** Deleting, one after the other, the elements of a prefix leaves the rest. *)
Lemma delete_prefix (prefix rest : list string) :
  NoDup (prefix ++ rest) ->
  fold_left JSSet.delete prefix (prefix ++ rest)%list = rest.
Proof.
  induction prefix as [|a prefix IH]; intros H; [reflexivity|].
  cbn [fold_left app]. cbn [app] in H. inversion H as [|? ? Hnotin Hnd]; subst.
  rewrite (delete_head _ _ Hnotin). now apply IH.
Qed.

Lemma compact_spec seen :
  NoDup seen ->
  Poller.compact seen =
  if 10000 <? JSSet.size seen then skipn (Z.to_nat 5000) seen else seen.
Proof.
  intros H. unfold Poller.compact, JSSet.toArray, JSSet.slice0.
  destruct (10000 <? JSSet.size seen); [|reflexivity].
  rewrite <- (firstn_skipn (Z.to_nat 5000) seen) at 2.
  apply delete_prefix. now rewrite firstn_skipn.
Qed.

Lemma size_skipn seen :
  5000 <= JSSet.size seen ->
  JSSet.size (skipn (Z.to_nat 5000) seen) = JSSet.size seen - 5000.
Proof. unfold JSSet.size. rewrite length_skipn. lia. Qed.

Lemma NoDup_skipn {A} n (l : list A) : NoDup l -> NoDup (skipn n l).
Proof.
  intros H. rewrite <- (firstn_skipn n l) in H. now apply NoDup_app_remove_l in H.
Qed.


(** ** Sorting *)


Lemma insertSorted_In a l x : In x (insertSorted a l) <-> x = a \/ In x l.
Proof.
  induction l as [|b rest IH]; cbn.
  - intuition.
  - destruct (0 <? compareFn a b); cbn; rewrite ?IH; intuition.
Qed.

Lemma sortTrades_In l x : In x (sortTrades l) <-> In x l.
Proof.
  induction l as [|a rest IH]; cbn; [reflexivity|].
  rewrite insertSorted_In, IH. intuition.
Qed.

Lemma insertSorted_length a l : List.length (insertSorted a l) = S (List.length l).
Proof.
  induction l as [|b rest IH]; cbn; [reflexivity|].
  destruct (0 <? compareFn a b); cbn; congruence.
Qed.

Lemma sortTrades_length l : List.length (sortTrades l) = List.length l.
Proof.
  induction l as [|a rest IH]; cbn; [reflexivity|].
  now rewrite insertSorted_length, IH.
Qed.

Lemma insertSorted_sorted a l :
  StronglySorted newestFirst l -> StronglySorted newestFirst (insertSorted a l).
Proof.
  induction 1 as [|b rest Hs IH Hall]; cbn.
  - repeat constructor.
  - unfold compareFn. destruct (Z.ltb_spec 0 (timestamp b - timestamp a)) as [Hlt|Hge].
    + constructor; [exact IH|].
      apply Forall_forall. intros x Hx. apply insertSorted_In in Hx.
      destruct Hx as [->|Hx].
      * unfold newestFirst. lia.
      * rewrite Forall_forall in Hall. now apply Hall.
    + constructor; [now constructor|].
      constructor; [unfold newestFirst; lia|].
      rewrite Forall_forall in *. intros x Hx. specialize (Hall x Hx).
      unfold newestFirst in *. lia.
Qed.

Lemma sortTrades_sorted l : StronglySorted newestFirst (sortTrades l).
Proof.
  induction l as [|a rest IH]; cbn; [constructor|].
  now apply insertSorted_sorted.
Qed.

Lemma maxTimestamp_cons a l w :
  maxTimestamp (a :: l) w = Z.max (timestamp a) (maxTimestamp l w).
Proof. reflexivity. Qed.

Lemma maxTimestamp_ge_floor l w : w <= maxTimestamp l w.
Proof.
  induction l as [|a rest IH]; [cbn; lia|]. rewrite maxTimestamp_cons. lia.
Qed.

Lemma maxTimestamp_ge l w x : In x l -> timestamp x <= maxTimestamp l w.
Proof.
  induction l as [|a rest IH]; [contradiction|].
  rewrite maxTimestamp_cons. intros [->|H]; [lia|]. specialize (IH H). lia.
Qed.

Lemma maxTimestamp_attained l w :
  maxTimestamp l w = w \/ exists x, In x l /\ timestamp x = maxTimestamp l w.
Proof.
  induction l as [|a rest IH]; [now left|].
  rewrite maxTimestamp_cons.
  destruct (Z.max_spec (timestamp a) (maxTimestamp rest w)) as [[Hlt ->]|[Hge ->]].
  - destruct IH as [IH|[x [Hx Hmax]]]; [now left|].
    right. exists x. split; [now right | exact Hmax].
  - right. exists a. split; [now left | reflexivity].
Qed.

(** The first record after sorting carries the largest timestamp, so the
    watermark update takes the maximum of the old watermark and of every
    timestamp of the batch. *)
Lemma updateLastTimestamp_max l w :
  updateLastTimestamp (sortTrades l) w = maxTimestamp l w.
Proof.
  pose proof (sortTrades_sorted l) as Hs.
  pose proof (sortTrades_In l) as Hin.
  destruct (sortTrades l) as [|first rest] eqn:E; cbn.
  - destruct l as [|a l']; [reflexivity|].
    exfalso. apply (proj2 (Hin a)). now left.
  - apply StronglySorted_inv in Hs. destruct Hs as [_ Hall].
    rewrite Forall_forall in Hall.
    assert (Hfirst : In first l) by (apply Hin; now left).
    pose proof (maxTimestamp_ge l w first Hfirst) as Hle.
    pose proof (maxTimestamp_ge_floor l w) as Hw.
    destruct (maxTimestamp_attained l w) as [Heq|[x [Hx Hmax]]].
    + destruct (Z.ltb_spec w (timestamp first)); lia.
    + assert (Hxle : timestamp x <= timestamp first).
      { apply Hin in Hx. destruct Hx as [->|Hx]; [lia|].
        apply (Hall x Hx). }
      destruct (Z.ltb_spec w (timestamp first)); lia.
Qed.

(** ** The loop *)

(** The four ways of one iteration. *)
Lemma forLoop_step wm t rest seen :
  (JSSet.has seen (tradeId t) = true /\
   forLoop wm (t :: rest) seen =
   mkLoop (loopSeen (forLoop wm rest seen))
     ((t, AlreadySeen) :: loopOutcomes (forLoop wm rest seen))
     (loopThrown (forLoop wm rest seen))) \/
  (JSSet.has seen (tradeId t) = false /\ timestamp t < wm - 5 /\
   forLoop wm (t :: rest) seen =
   mkLoop (loopSeen (forLoop wm rest (JSSet.add seen (tradeId t))))
     ((t, StaleBacklog) :: loopOutcomes (forLoop wm rest (JSSet.add seen (tradeId t))))
     (loopThrown (forLoop wm rest (JSSet.add seen (tradeId t))))) \/
  (JSSet.has seen (tradeId t) = false /\ wm - 5 <= timestamp t /\
   displayable t /\
   forLoop wm (t :: rest) seen =
   mkLoop (loopSeen (forLoop wm rest (JSSet.add seen (tradeId t))))
     ((t, Logged) :: loopOutcomes (forLoop wm rest (JSSet.add seen (tradeId t))))
     (loopThrown (forLoop wm rest (JSSet.add seen (tradeId t))))) \/
  (JSSet.has seen (tradeId t) = false /\ wm - 5 <= timestamp t /\
   exists e, logTrade t = inl e /\
     forLoop wm (t :: rest) seen =
     mkLoop (JSSet.add seen (tradeId t)) [(t, Logged)] (Some e)).
Proof.
  cbn [forLoop]. destruct (JSSet.has seen (tradeId t)); [left; now split | right].
  destruct (Z.ltb_spec (timestamp t) (wm - 5)) as [Hlt|Hge];
    [left; now repeat split | right].
  destruct (logTrade t) as [e|td] eqn:E.
  - right. repeat split; [exact Hge|]. now exists e.
  - left. repeat split; [exact Hge|]. now exists td.
Qed.

Ltac loop_cases wm t rest seen :=
  let E := fresh "E" in
  destruct (forLoop_step wm t rest seen)
    as [[Hhas E] | [[Hhas [Hts E]] | [[Hhas [Hts [Hdisp E]]]
       | [Hhas [Hts [err [Hlog E]]]]]]];
  rewrite E; clear E; cbn [loopSeen loopOutcomes loopThrown].

Lemma logged_cons t o out :
  logged ((t, o) :: out) =
  match o with Logged => t :: logged out | _ => logged out end.
Proof. now destruct o. Qed.

Lemma inserted_cons t o out :
  inserted ((t, o) :: out) =
  match o with AlreadySeen => inserted out | _ => t :: inserted out end.
Proof. now destruct o. Qed.

(** The loop goes through the records in order, and through all of them
    unless it throws. *)
Lemma forLoop_records wm trades seen :
  exists rest,
    trades = (map fst (loopOutcomes (forLoop wm trades seen)) ++ rest)%list /\
    (loopThrown (forLoop wm trades seen) = None -> rest = []).
Proof.
  revert seen. induction trades as [|t rest IH]; intros seen.
  - exists []. split; reflexivity.
  - loop_cases wm t rest seen.
    + destruct (IH seen) as [r [E H]]. exists r. cbn. split; [now f_equal | exact H].
    + destruct (IH (JSSet.add seen (tradeId t))) as [r [E H]].
      exists r. cbn. split; [now f_equal | exact H].
    + destruct (IH (JSSet.add seen (tradeId t))) as [r [E H]].
      exists r. cbn. split; [now f_equal | exact H].
    + exists rest. split; [reflexivity | discriminate].
Qed.

Lemma forLoop_records_completed wm trades seen :
  loopThrown (forLoop wm trades seen) = None ->
  map fst (loopOutcomes (forLoop wm trades seen)) = trades.
Proof.
  intros H. destruct (forLoop_records wm trades seen) as [rest [E Hr]].
  rewrite (Hr H), app_nil_r in E. now symmetry.
Qed.


Lemma forLoop_length wm trades seen :
  (List.length (loopOutcomes (forLoop wm trades seen)) <= List.length trades)%nat.
Proof.
  destruct (forLoop_records wm trades seen) as [rest [E _]].
  rewrite E at 2. rewrite length_app, length_map. lia.
Qed.

(** The set after the loop: the old elements, then the inserted ids in the
    order in which they were inserted. *)
Lemma forLoop_ledger wm trades seen :
  loopSeen (forLoop wm trades seen) =
  (seen ++ map tradeId (inserted (loopOutcomes (forLoop wm trades seen))))%list.
Proof.
  revert seen. induction trades as [|t rest IH]; intros seen.
  - cbn. now rewrite app_nil_r.
  - loop_cases wm t rest seen; rewrite ?inserted_cons.
    + apply IH.
    + rewrite IH, (add_new _ _ Hhas), <- app_assoc. reflexivity.
    + rewrite IH, (add_new _ _ Hhas), <- app_assoc. reflexivity.
    + rewrite (add_new _ _ Hhas). reflexivity.
Qed.

Lemma inserted_incl out t : In t (inserted out) -> In t (map fst out).
Proof.
  induction out as [|[x o] rest IH]; [intros []|].
  rewrite inserted_cons. destruct o; cbn; intuition.
Qed.

(** What the set holds when the loop is left: what it held, and the ids of
    the records that the loop went through. *)
Lemma forLoop_In wm trades seen x :
  In x (loopSeen (forLoop wm trades seen)) <->
  In x seen \/ In x (map tradeId (map fst (loopOutcomes (forLoop wm trades seen)))).
Proof.
  revert seen. induction trades as [|t rest IH]; intros seen.
  - cbn. intuition.
  - loop_cases wm t rest seen; cbn [map fst In].
    + rewrite IH. apply has_In in Hhas. intuition. subst. auto.
    + rewrite IH, add_In. intuition.
    + rewrite IH, add_In. intuition.
    + rewrite add_In. intuition.
Qed.

Lemma forLoop_In_completed wm trades seen x :
  loopThrown (forLoop wm trades seen) = None ->
  (In x (loopSeen (forLoop wm trades seen)) <->
   In x seen \/ In x (map tradeId trades)).
Proof.
  intros H. rewrite forLoop_In, (forLoop_records_completed _ _ _ H). reflexivity.
Qed.

Lemma forLoop_keeps wm trades seen x :
  In x seen -> In x (loopSeen (forLoop wm trades seen)).
Proof. intros H. apply forLoop_In. now left. Qed.

Lemma forLoop_NoDup wm trades seen :
  NoDup seen -> NoDup (loopSeen (forLoop wm trades seen)).
Proof.
  revert seen. induction trades as [|t rest IH]; intros seen H; [exact H|].
  loop_cases wm t rest seen; auto using add_NoDup.
Qed.

Lemma inserted_length_le out : (List.length (inserted out) <= List.length out)%nat.
Proof.
  unfold inserted. induction out as [|[t o] rest IH]; cbn; [lia|].
  destruct o; cbn; lia.
Qed.

Lemma forLoop_size wm trades seen :
  JSSet.size (loopSeen (forLoop wm trades seen)) =
  JSSet.size seen
  + Z.of_nat (List.length (inserted (loopOutcomes (forLoop wm trades seen)))).
Proof.
  rewrite forLoop_ledger at 1. unfold JSSet.size.
  rewrite length_app, length_map. lia.
Qed.

Lemma forLoop_size_le wm trades seen :
  JSSet.size (loopSeen (forLoop wm trades seen)) <=
  JSSet.size seen + Z.of_nat (List.length trades).
Proof.
  rewrite forLoop_size.
  pose proof (inserted_length_le (loopOutcomes (forLoop wm trades seen))) as H.
  pose proof (forLoop_length wm trades seen) as H'. lia.
Qed.

Lemma countId_cons id t l :
  countId id (t :: l) =
  ((if String.eqb (tradeId t) id then 1 else 0) + countId id l)%nat.
Proof. unfold countId. cbn. now destruct (String.eqb (tradeId t) id). Qed.

Lemma countId_zero id l :
  (forall t, In t l -> tradeId t <> id) -> countId id l = 0%nat.
Proof.
  induction l as [|t rest IH]; intros H; [reflexivity|].
  rewrite countId_cons, IH by (intros x Hx; apply H; now right).
  destruct (String.eqb_spec (tradeId t) id) as [E|_]; [|reflexivity].
  exfalso. apply (H t); [now left | exact E].
Qed.

Lemma countId_positive id l :
  (0 < countId id l)%nat <-> exists t, In t l /\ tradeId t = id.
Proof.
  induction l as [|t rest IH]; [cbn; split; [lia | intros [? [[] _]]]|].
  rewrite countId_cons.
  destruct (String.eqb_spec (tradeId t) id) as [E|N]; split.
  - intros _. exists t. split; [now left | exact E].
  - intros _. lia.
  - intros H. cbn in H. apply IH in H. destruct H as [x [Hx Ex]].
    exists x. split; [now right | exact Ex].
  - intros [x [[<- | Hx] Ex]]; [contradiction|]. cbn. apply IH. now exists x.
Qed.

Lemma logged_incl_inserted out t : In t (logged out) -> In t (inserted out).
Proof.
  induction out as [|[x o] rest IH]; [intros []|].
  rewrite logged_cons, inserted_cons.
  destruct o; cbn; intuition.
Qed.

Lemma countId_logged_le_inserted id out :
  (countId id (logged out) <= countId id (inserted out))%nat.
Proof.
  induction out as [|[x o] rest IH]; [cbn; lia|].
  rewrite logged_cons, inserted_cons. destruct o; rewrite ?countId_cons; lia.
Qed.

(** What the loop hands to logTrade: records inside the tolerance window whose
    id the set did not hold when the cycle began. *)
Lemma logged_sound wm trades seen t :
  In t (logged (loopOutcomes (forLoop wm trades seen))) ->
  In t trades /\ wm - 5 <= timestamp t /\ ~ In (tradeId t) seen.
Proof.
  revert seen. induction trades as [|x rest IH]; intros seen; [intros []|].
  assert (Hnext : In t (logged (loopOutcomes (forLoop wm rest (JSSet.add seen (tradeId x))))) ->
                  In t (x :: rest) /\ wm - 5 <= timestamp t /\ ~ In (tradeId t) seen).
  { intros H. apply IH in H. destruct H as [H1 [H2 H3]].
    repeat split; [now right | exact H2 |].
    intros Hin. apply H3. apply add_In. now left. }
  loop_cases wm x rest seen; rewrite logged_cons.
  - intros H. apply IH in H. destruct H as [H1 [H2 H3]].
    repeat split; [now right | exact H2 | exact H3].
  - exact Hnext.
  - intros [<- | H]; [|now apply Hnext].
    repeat split; [now left | lia | now apply has_false].
  - intros [<- | []].
    repeat split; [now left | lia | now apply has_false].
Qed.

Lemma inserted_sound wm trades seen t :
  In t (inserted (loopOutcomes (forLoop wm trades seen))) ->
  In t trades /\ ~ In (tradeId t) seen.
Proof.
  revert seen. induction trades as [|x rest IH]; intros seen; [intros []|].
  assert (Hnext : In t (x :: inserted (loopOutcomes (forLoop wm rest (JSSet.add seen (tradeId x))))) ->
                  JSSet.has seen (tradeId x) = false ->
                  In t (x :: rest) /\ ~ In (tradeId t) seen).
  { intros [<- | H] Hhas.
    - split; [now left | now apply has_false].
    - apply IH in H. destruct H as [H1 H3].
      split; [now right|]. intros Hin. apply H3. apply add_In. now left. }
  loop_cases wm x rest seen; rewrite inserted_cons.
  - intros H. apply IH in H. destruct H as [H1 H3].
    split; [now right | exact H3].
  - intros H. now apply Hnext.
  - intros H. now apply Hnext.
  - intros [<- | []]. split; [now left | now apply has_false].
Qed.

(** Among the records that the loop inserted, those handed to logTrade are
    the ones inside the tolerance window. *)
Lemma inserted_logged_iff wm trades seen t :
  In t (inserted (loopOutcomes (forLoop wm trades seen))) ->
  (In t (logged (loopOutcomes (forLoop wm trades seen))) <-> wm - 5 <= timestamp t).
Proof.
  intros Hins. split; [intros H; now apply logged_sound in H|].
  revert seen Hins. induction trades as [|x rest IH]; intros seen; [intros []|].
  loop_cases wm x rest seen; rewrite inserted_cons, logged_cons.
  - intros H Hf. now apply (IH seen).
  - intros [<- | H] Hf; [lia | now apply (IH (JSSet.add seen (tradeId x)))].
  - intros [<- | H] Hf; [now left | right].
    now apply (IH (JSSet.add seen (tradeId x))).
  - intros [<- | []] Hf. now left.
Qed.

(** An id that the set holds is never inserted again by the loop. *)
Lemma inserted_none_if_seen wm trades seen id :
  In id seen -> countId id (inserted (loopOutcomes (forLoop wm trades seen))) = 0%nat.
Proof.
  intros H. apply countId_zero. intros t Ht E.
  apply inserted_sound in Ht. destruct Ht as [_ Hn]. apply Hn. now rewrite E.
Qed.

(** Every id is inserted at most once. *)
Lemma inserted_at_most_once wm trades seen id :
  (countId id (inserted (loopOutcomes (forLoop wm trades seen))) <= 1)%nat.
Proof.
  revert seen. induction trades as [|x rest IH]; intros seen; [cbn; lia|].
  assert (Hnext : (countId id
            (x :: inserted (loopOutcomes (forLoop wm rest (JSSet.add seen (tradeId x)))))
            <= 1)%nat).
  { rewrite countId_cons. destruct (String.eqb_spec (tradeId x) id) as [E|N].
    - rewrite (inserted_none_if_seen wm rest (JSSet.add seen (tradeId x)) id);
        [lia|]. apply add_In. now right.
    - apply IH. }
  loop_cases wm x rest seen; rewrite inserted_cons; try exact Hnext.
  - apply IH.
  - rewrite countId_cons. cbn. destruct (String.eqb (tradeId x) id); lia.
Qed.

(** In a loop that does not throw, an id that the set does not hold and that
    occurs in the batch is inserted exactly once. *)
Lemma inserted_once wm trades seen id :
  loopThrown (forLoop wm trades seen) = None ->
  ~ In id seen -> In id (map tradeId trades) ->
  countId id (inserted (loopOutcomes (forLoop wm trades seen))) = 1%nat.
Proof.
  intros Hc Hn Hin.
  pose proof (inserted_at_most_once wm trades seen id) as Hle.
  assert (Hpos : (0 < countId id (inserted (loopOutcomes (forLoop wm trades seen))))%nat);
    [|lia].
  assert (Hseen : In id (loopSeen (forLoop wm trades seen)))
    by (apply (forLoop_In_completed _ _ _ _ Hc); now right).
  rewrite forLoop_ledger in Hseen. apply in_app_or in Hseen.
  destruct Hseen as [Hs | Hs]; [contradiction|].
  apply in_map_iff in Hs. destruct Hs as [t [E Ht]].
  apply countId_positive. now exists t.
Qed.

(** A record that the loop goes through while the set holds its id takes
    the skip branch. *)
Lemma seen_takes_skip wm trades seen t o :
  In (tradeId t) seen ->
  In (t, o) (loopOutcomes (forLoop wm trades seen)) -> o = AlreadySeen.
Proof.
  revert seen. induction trades as [|x rest IH]; intros seen Hs; [intros []|].
  assert (Hadd : In (tradeId t) (JSSet.add seen (tradeId x)))
    by (apply add_In; now left).
  loop_cases wm x rest seen; cbn [In].
  - intros [E | H]; [now injection E | now apply (IH seen)].
  - intros [E | H]; [|now apply (IH _ Hadd)].
    injection E as -> _. apply has_false in Hhas. contradiction.
  - intros [E | H]; [|now apply (IH _ Hadd)].
    injection E as -> _. apply has_false in Hhas. contradiction.
  - intros [E | []]. injection E as -> _. apply has_false in Hhas. contradiction.
Qed.

Lemma seen_is_skipped wm trades seen t :
  loopThrown (forLoop wm trades seen) = None ->
  In (tradeId t) seen -> In t trades ->
  In (t, AlreadySeen) (loopOutcomes (forLoop wm trades seen)).
Proof.
  intros Hc Hs Hin.
  rewrite <- (forLoop_records_completed _ _ _ Hc) in Hin.
  apply in_map_iff in Hin. destruct Hin as [[t' o] [E Hin]]. cbn in E. subst t'.
  now rewrite <- (seen_takes_skip _ _ _ _ _ Hs Hin).
Qed.



(** The loop does not throw when logTrade can display every record. *)
Lemma forLoop_completes wm trades seen :
  (forall t, In t trades -> displayable t) ->
  loopThrown (forLoop wm trades seen) = None.
Proof.
  revert seen. induction trades as [|x rest IH]; intros seen H; [reflexivity|].
  assert (Hrest : forall t, In t rest -> displayable t)
    by (intros t Ht; apply H; now right).
  loop_cases wm x rest seen; auto.
  destruct (H x (or_introl eq_refl)) as [td Htd]. congruence.
Qed.

(** ** One cycle *)

Lemma pollCycle_before st r : before (pollCycle st r) = st.
Proof. unfold pollCycle. now destruct (loopThrown _). Qed.

Lemma pollCycle_sorted st r :
  sorted (pollCycle st r) = sortTrades (fetchTargetActivity r).
Proof. unfold pollCycle. now destruct (loopThrown _). Qed.

Lemma pollCycle_outcomes st r :
  outcomes (pollCycle st r) =
  loopOutcomes (forLoop (lastTimestamp st) (sortTrades (fetchTargetActivity r))
                  (seenTrades st)).
Proof. unfold pollCycle. now destruct (loopThrown _). Qed.

Lemma pollCycle_thrown st r :
  thrown (pollCycle st r) =
  loopThrown (forLoop (lastTimestamp st) (sortTrades (fetchTargetActivity r))
                (seenTrades st)).
Proof. unfold pollCycle. now destruct (loopThrown _). Qed.

Lemma pollCycle_loopEnd st r :
  seenTrades (afterLoop (pollCycle st r)) =
  loopSeen (forLoop (lastTimestamp st) (sortTrades (fetchTargetActivity r))
              (seenTrades st)).
Proof. unfold pollCycle. now destruct (loopThrown _). Qed.

Lemma pollCycle_completed st r :
  completed (pollCycle st r) ->
  afterLoop (pollCycle st r) =
    mkPollState
      (loopSeen (forLoop (lastTimestamp st) (sortTrades (fetchTargetActivity r))
                   (seenTrades st)))
      (updateLastTimestamp (sortTrades (fetchTargetActivity r)) (lastTimestamp st)) /\
  after (pollCycle st r) =
    mkPollState
      (compact (seenTrades (afterLoop (pollCycle st r))))
      (lastTimestamp (afterLoop (pollCycle st r))).
Proof.
  unfold completed. rewrite pollCycle_thrown. unfold pollCycle.
  destruct (loopThrown _); [discriminate|]. intros _. now split.
Qed.

Lemma pollCycle_aborted st r e :
  thrown (pollCycle st r) = Some e ->
  after (pollCycle st r) = afterLoop (pollCycle st r) /\
  lastTimestamp (after (pollCycle st r)) = lastTimestamp st.
Proof.
  rewrite pollCycle_thrown. unfold pollCycle.
  destruct (loopThrown _); [|discriminate]. intros _. now split.
Qed.

(** A cycle completes when logTrade can display every record of the batch. *)
Lemma pollCycle_completes st r :
  (forall t, In t (fetchTargetActivity r) -> displayable t) ->
  completed (pollCycle st r).
Proof.
  intros H. unfold completed. rewrite pollCycle_thrown.
  apply forLoop_completes. intros t Ht. apply H. now apply sortTrades_In.
Qed.

Lemma In_map_tradeId_sorted l id :
  In id (map tradeId (sortTrades l)) <-> In id (map tradeId l).
Proof.
  rewrite !in_map_iff. split; intros [x [E H]]; exists x; split; auto;
    now apply sortTrades_In.
Qed.


Lemma mirrorArgument_at_most_one t : (List.length (mirrorArgument t) <= 1)%nat.
Proof. unfold mirrorArgument. destruct (logTrade t); cbn; lia. Qed.



(** ** C8: what a cycle does with the records *)

(** A trade whose timestamp, taken for seconds, lies beyond the last day
    that a Date can hold. *)
Lemma late_trade_is_not_displayable n :
  logTrade (sampleTrade n 10000000000000) = inl (RangeError "Invalid time value").
Proof. reflexivity. Qed.




(** ** Runs of cycles *)

Lemma cycleAt_pollCycle st responses n c :
  cycleAt st responses n = Some c ->
  exists r, In r responses /\ c = pollCycle (before c) r.
Proof.
  unfold cycleAt. revert st n.
  induction responses as [|r rest IH]; intros st n H; [now destruct n|].
  destruct n as [|n]; cbn in H.
  - injection H as <-. exists r. split; [now left|]. now rewrite pollCycle_before.
  - destruct (thrown (pollCycle st r)); [now destruct n|].
    apply IH in H. destruct H as [r' [Hin E]]. exists r'. split; [now right | exact E].
Qed.

(** Only a cycle that completed has a successor. *)
Lemma cycleAt_chain st responses n c c' :
  cycleAt st responses n = Some c ->
  cycleAt st responses (S n) = Some c' ->
  before c' = after c /\ completed c.
Proof.
  unfold cycleAt. revert st n.
  induction responses as [|r rest IH]; intros st n H H'; [now destruct n|].
  destruct n as [|n]; cbn in H, H'.
  - injection H as <-. unfold completed.
    destruct (thrown (pollCycle st r)); [discriminate H'|].
    destruct rest as [|r' rest']; [discriminate|].
    cbn in H'. injection H' as <-. split; [apply pollCycle_before | reflexivity].
  - destruct (thrown (pollCycle st r)); [now destruct n|].
    eapply IH; eassumption.
Qed.

Lemma cycleAt_defined_below st responses n m c :
  cycleAt st responses n = Some c -> (m <= n)%nat ->
  exists c', cycleAt st responses m = Some c'.
Proof.
  unfold cycleAt. intros H Hle.
  destruct (nth_error (runPolls st responses) m) as [c'|] eqn:E; [now exists c'|].
  apply nth_error_None in E.
  assert (Hn : nth_error (runPolls st responses) n <> None) by congruence.
  apply nth_error_Some in Hn. lia.
Qed.

(** An id that is in the set after every cycle from [i] to [j - 1] is in the
    set when cycle [j] begins. *)
Lemma kept_until st responses i j cj id :
  (i < j)%nat ->
  cycleAt st responses j = Some cj ->
  (forall m cm, (i <= m < j)%nat -> cycleAt st responses m = Some cm ->
     In id (seenTrades (after cm))) ->
  In id (seenTrades (before cj)).
Proof.
  intros Hlt Hj Hkept. destruct j as [|j]; [lia|].
  destruct (cycleAt_defined_below _ _ _ j _ Hj) as [cm Hm]; [lia|].
  rewrite (proj1 (cycleAt_chain _ _ _ _ _ Hm Hj)). apply (Hkept j cm); [lia | exact Hm].
Qed.

(** ** C6: admission into the set *)

(** C6, as stated, fails: a record older than lastTimestamp - 5 passes the
    has-check and is added to the set, but it is not processed - not then,
    and not when the feed returns it again, when it is skipped as seen. *)
Lemma C6_stale_is_not_processed_counterexample :
  let st := mkPollState [] 100 in
  let stale := sampleTrade 7 50 in
  let responses := [HttpOk [stale]; HttpOk [stale]] in
  let c := pollCycle st (HttpOk [stale]) in
  ~ In (tradeId stale) (seenTrades st) /\
  countId (tradeId stale) (inserted (outcomes c)) = 1%nat /\
  In (tradeId stale) (seenTrades (after c)) /\
  logged (outcomes c) = [] /\ mirrorCalls c = [] /\
  flat_map (fun c => logged (outcomes c)) (runPolls st responses) = [].
Proof.
  cbv zeta. vm_compute. repeat split; try reflexivity.
  - intros [].
  - now left.
Qed.

(** C6 (amended): in a poll cycle a trade id is inserted into seenTrades at
    most once; an id that the set holds when the cycle begins is not
    inserted, and in a cycle that does not throw an id that the set does not
    hold and that occurs in the batch is inserted exactly once.  The record
    that is inserted is handed to logTrade exactly when its timestamp is at
    least lastTimestamp - 5; an older one is inserted without being
    processed.  Over a run of cycles, an id inserted in one cycle and still
    in the set after that cycle and after every later one up to a cycle j
    (not evicted by the compaction step) is inserted once in its cycle and is
    neither inserted nor handed to logTrade in cycle j, where every record
    that carries it takes the skip branch. *)
Theorem C6_admission_exactly_once :
  (forall st response id,
     let c := pollCycle st response in
     (countId id (inserted (outcomes c)) <= 1)%nat /\
     (countId id (logged (outcomes c)) <= countId id (inserted (outcomes c)))%nat /\
     (In id (seenTrades st) -> countId id (inserted (outcomes c)) = 0%nat) /\
     (completed c -> ~ In id (seenTrades st) ->
      In id (map tradeId (fetchTargetActivity response)) ->
        countId id (inserted (outcomes c)) = 1%nat /\
        In id (seenTrades (afterLoop c))) /\
     (forall r, In r (inserted (outcomes c)) ->
        In (tradeId r) (seenTrades (afterLoop c)) /\
        (In r (logged (outcomes c)) <-> lastTimestamp st - 5 <= timestamp r))) /\
  (forall st responses i j ci cj id,
     (i < j)%nat ->
     cycleAt st responses i = Some ci ->
     cycleAt st responses j = Some cj ->
     (0 < countId id (inserted (outcomes ci)))%nat ->
     (forall m cm, (i <= m < j)%nat -> cycleAt st responses m = Some cm ->
        In id (seenTrades (after cm))) ->
     countId id (inserted (outcomes ci)) = 1%nat /\
     countId id (inserted (outcomes cj)) = 0%nat /\
     countId id (logged (outcomes cj)) = 0%nat /\
     (forall t o, In (t, o) (outcomes cj) -> tradeId t = id -> o = AlreadySeen)).
Proof.
  split.
  - intros st response id. cbv zeta.
    rewrite pollCycle_outcomes, pollCycle_loopEnd.
    set (wm := lastTimestamp st).
    set (trades := sortTrades (fetchTargetActivity response)).
    split; [apply inserted_at_most_once|].
    split; [apply countId_logged_le_inserted|].
    split; [apply inserted_none_if_seen|].
    split.
    + unfold completed. rewrite pollCycle_thrown. fold wm trades.
      intros Hc Hn Hin. split.
      * apply inserted_once; [exact Hc | exact Hn | now apply In_map_tradeId_sorted].
      * apply (forLoop_In_completed _ _ _ _ Hc). right.
        now apply In_map_tradeId_sorted.
    + intros r Hr. split; [|now apply inserted_logged_iff].
      rewrite forLoop_ledger. apply in_or_app. right. now apply in_map.
  - intros st responses i j ci cj id Hlt Hi Hj Hadm Hkept.
    pose proof (kept_until _ _ _ _ _ _ Hlt Hj Hkept) as Hheld.
    destruct (cycleAt_pollCycle _ _ _ _ Hi) as [ri [_ Ei]].
    destruct (cycleAt_pollCycle _ _ _ _ Hj) as [rj [_ Ej]].
    assert (Hnone : countId id (inserted (outcomes cj)) = 0%nat).
    { rewrite Ej, pollCycle_outcomes. now apply inserted_none_if_seen. }
    split; [|split; [exact Hnone|split]].
    + pose proof (inserted_at_most_once (lastTimestamp (before ci))
                    (sortTrades (fetchTargetActivity ri)) (seenTrades (before ci)) id)
        as Hle.
      rewrite <- pollCycle_outcomes, <- Ei in Hle. lia.
    + pose proof (countId_logged_le_inserted id (outcomes cj)). lia.
    + intros t o Hin Et. rewrite Ej, pollCycle_outcomes in Hin.
      apply (seen_takes_skip _ _ _ _ _ (eq_ind_r (fun x => In x _) Hheld Et) Hin).
Qed.

Lemma C6_admission_exactly_once_witness :
  let st := mkPollState [] 100 in
  let responses := [HttpOk [sampleTrade 7 101; sampleTrade 7 101];
                    HttpOk [sampleTrade 7 130]] in
  exists ci cj,
    cycleAt st responses 0 = Some ci /\ cycleAt st responses 1 = Some cj /\
    countId (tradeId (sampleTrade 7 101)) (inserted (outcomes ci)) = 1%nat /\
    countId (tradeId (sampleTrade 7 101)) (inserted (outcomes cj)) = 0%nat /\
    countId (tradeId (sampleTrade 7 101)) (logged (outcomes cj)) = 0%nat /\
    (forall t o, In (t, o) (outcomes cj) ->
       tradeId t = tradeId (sampleTrade 7 101) -> o = AlreadySeen).
Proof.
  cbv zeta.
  exists (pollCycle (mkPollState [] 100)
            (HttpOk [sampleTrade 7 101; sampleTrade 7 101])).
  eexists. split; [reflexivity|]. split; [reflexivity|].
  refine (proj2 C6_admission_exactly_once
            (mkPollState [] 100)
            [HttpOk [sampleTrade 7 101; sampleTrade 7 101];
             HttpOk [sampleTrade 7 130]]
            0%nat 1%nat _ _ (tradeId (sampleTrade 7 101)) _ _ _ _ _).
  - lia.
  - reflexivity.
  - reflexivity.
  - vm_compute. lia.
  - intros m cm Hm Hcm. assert (m = 0%nat) by lia. subst m.
    vm_compute in Hcm. injection Hcm as <-. vm_compute. tauto.
Defined.

(** ** C10: no second mirroring while the id is in the set *)

(** C10: an id that a cycle inserted into seenTrades, by the branch that
    logs and mirrors the trade or by the stale-backlog branch, is in the set
    when the loop of that cycle ends; and in every later cycle at whose
    beginning the set still holds the id, no record handed to logTrade (and so
    to mirrorTrade) carries it: every record with that id that the cycle
    reaches takes the skip branch, whatever its timestamp, and a cycle that
    completes reaches them all. *)
Theorem C10_no_second_mirror (st : PollState) (responses : list FetchResponse)
    (i j : nat) (ci cj : Cycle) (r : ActivityRecord) :
  (i < j)%nat ->
  cycleAt st responses i = Some ci ->
  cycleAt st responses j = Some cj ->
  In (r, StaleBacklog) (outcomes ci) \/ In (r, Logged) (outcomes ci) ->
  In (tradeId r) (seenTrades (before cj)) ->
  In (tradeId r) (seenTrades (afterLoop ci)) /\
  countId (tradeId r) (logged (outcomes cj)) = 0%nat /\
  (forall t, In t (logged (outcomes cj)) -> tradeId t <> tradeId r) /\
  (forall t o, In (t, o) (outcomes cj) -> tradeId t = tradeId r ->
     o = AlreadySeen) /\
  (completed cj ->
   forall t, In t (sorted cj) -> tradeId t = tradeId r ->
     In (t, AlreadySeen) (outcomes cj)).
Proof.
  intros Hlt Hi Hj Hins Hheld.
  destruct (cycleAt_pollCycle _ _ _ _ Hi) as [ri [_ Ei]].
  destruct (cycleAt_pollCycle _ _ _ _ Hj) as [rj [_ Ej]].
  assert (Hnone : forall t, In t (logged (outcomes cj)) -> tradeId t <> tradeId r).
  { intros t Ht E. rewrite Ej, pollCycle_outcomes in Ht.
    apply logged_sound in Ht. destruct Ht as [_ [_ Hn]]. apply Hn. now rewrite E. }
  split; [|split; [|split; [|split]]].
  - rewrite Ei, pollCycle_loopEnd.
    apply forLoop_In. right. apply in_map.
    rewrite <- pollCycle_outcomes, <- Ei.
    destruct Hins as [H | H]; apply (in_map fst) in H; exact H.
  - apply countId_zero. exact Hnone.
  - exact Hnone.
  - intros t o Hin Et. rewrite Ej, pollCycle_outcomes in Hin.
    apply (seen_takes_skip _ _ _ _ _ (eq_ind_r (fun x => In x _) Hheld Et) Hin).
  - intros Hc t Ht Et. rewrite Ej in Ht, Hc |- *.
    unfold completed in Hc. rewrite pollCycle_thrown in Hc.
    rewrite pollCycle_sorted in Ht. rewrite pollCycle_outcomes.
    apply seen_is_skipped; [exact Hc | now rewrite Et | exact Ht].
Qed.

Lemma C10_no_second_mirror_witness :
  let st := mkPollState [] 100 in
  let responses := [HttpOk [sampleTrade 7 50]; HttpOk [sampleTrade 7 130]] in
  exists ci cj,
    cycleAt st responses 0 = Some ci /\ cycleAt st responses 1 = Some cj /\
    outcomes ci = [(sampleTrade 7 50, StaleBacklog)] /\
    lastTimestamp (before cj) - 5 <= 130 /\
    In (tradeId (sampleTrade 7 50)) (seenTrades (afterLoop ci)) /\
    countId (tradeId (sampleTrade 7 50)) (logged (outcomes cj)) = 0%nat.
Proof.
  cbv zeta. eexists. eexists.
  split; [reflexivity|]. split; [reflexivity|].
  split; [reflexivity|]. split; [vm_compute; discriminate|].
  pose proof (C10_no_second_mirror (mkPollState [] 100)
    [HttpOk [sampleTrade 7 50]; HttpOk [sampleTrade 7 130]] 0 1 _ _
    (sampleTrade 7 50) (Nat.lt_0_1) eq_refl eq_refl) as H.
  destruct H as [H1 [H2 _]].
  - left. vm_compute. tauto.
  - vm_compute. tauto.
  - split; [exact H1 | exact H2].
Defined.

(** ** C7: the size of the set and the compaction step *)

Lemma string_length_append (s t : string) :
  String.length (s ++ t) = (String.length s + String.length t)%nat.
Proof. induction s as [|c s IH]; cbn; [reflexivity | now rewrite IH]. Qed.

Lemma string_append_cancel_r (s1 s2 t : string) :
  (s1 ++ t = s2 ++ t)%string -> s1 = s2.
Proof.
  intros H.
  assert (L : String.length s1 = String.length s2).
  { apply (f_equal String.length) in H. rewrite !string_length_append in H. lia. }
  revert s2 H L. induction s1 as [|c s1 IH]; intros [|c' s2] H L;
    cbn in *; try discriminate; [reflexivity|].
  injection H as -> H. f_equal. apply IH; [exact H | lia].
Qed.

Lemma sampleTrade_id_inj a b ts ts' :
  tradeId (sampleTrade a ts) = tradeId (sampleTrade b ts') -> a = b.
Proof.
  unfold tradeId, sampleTrade, txHashOf. cbn [transactionHash asset].
  intros H. cbn [String.append] in H. injection H as H.
  apply string_append_cancel_r in H.
  apply DecimalNat.Unsigned.to_uint_inj.
  assert (E : Some (Nat.to_uint a) = Some (Nat.to_uint b))
    by (rewrite <- !NilEmpty.usu; now rewrite H).
  now injection E.
Qed.

Lemma ledgerOf_In n k ts :
  In (tradeId (sampleTrade k ts)) (ledgerOf n) <-> (k < n)%nat.
Proof.
  unfold ledgerOf. rewrite in_map_iff. split.
  - intros [m [E Hm]]. apply sampleTrade_id_inj in E. subst m.
    apply in_seq in Hm. lia.
  - intros H. exists k. split; [reflexivity | apply in_seq; lia].
Qed.

Lemma ledgerOf_NoDup n : NoDup (ledgerOf n).
Proof.
  unfold ledgerOf. apply Injective_map_NoDup; [|apply seq_NoDup].
  intros a b. apply sampleTrade_id_inj.
Qed.

Lemma ledgerOf_size n : JSSet.size (ledgerOf n) = Z.of_nat n.
Proof. unfold JSSet.size, ledgerOf. now rewrite length_map, length_seq. Qed.

(** logTrade can display a sample record whose timestamp a Date can hold. *)
Lemma sampleTrade_displayable n ts :
  Z.abs (ts * 1000) <= Format.maxTimeValue -> displayable (sampleTrade n ts).
Proof.
  intros H. unfold displayable, logTrade, Format.formatTimestamp.
  cbn [timestamp sampleTrade].
  destruct (ts =? 0); [eexists; reflexivity|].
  destruct (Z.leb_spec (Z.abs (ts * 1000)) Format.maxTimeValue) as [_|Hgt];
    [eexists; reflexivity | lia].
Qed.

(** A cycle that meets one new record inside the tolerance window. *)
Lemma one_new_record st n ts :
  seenTrades st = ledgerOf n -> lastTimestamp st - 5 <= ts ->
  Z.abs (ts * 1000) <= Format.maxTimeValue ->
  let c := pollCycle st (HttpOk [sampleTrade n ts]) in
  completed c /\
  outcomes c = [(sampleTrade n ts, Logged)] /\
  seenTrades (afterLoop c) = (ledgerOf n ++ [tradeId (sampleTrade n ts)])%list.
Proof.
  intros Hs Hwin Hdate. cbv zeta.
  assert (Hbatch : sortTrades (fetchTargetActivity (HttpOk [sampleTrade n ts])) =
                   [sampleTrade n ts]) by reflexivity.
  split.
  { apply pollCycle_completes. intros t [<- | []].
    now apply sampleTrade_displayable. }
  rewrite pollCycle_outcomes, pollCycle_loopEnd, Hbatch, Hs.
  assert (Hnew : JSSet.has (ledgerOf n) (tradeId (sampleTrade n ts)) = false).
  { apply has_false. rewrite ledgerOf_In. lia. }
  loop_cases (lastTimestamp st) (sampleTrade n ts) (@nil ActivityRecord) (ledgerOf n).
  - congruence.
  - cbn [timestamp sampleTrade] in Hts. lia.
  - cbn [forLoop loopSeen loopOutcomes]. rewrite (add_new _ _ Hnew).
    split; reflexivity.
  - destruct (sampleTrade_displayable n ts Hdate) as [td Htd]. congruence.
Qed.

(** A cycle that starts with 10,000 ids in the set and meets one new trade. *)
Lemma cycle_at_capacity (n : nat) :
  Z.of_nat n = 10000 ->
  let st := mkPollState (ledgerOf n) 0 in
  let c := pollCycle st (HttpOk [sampleTrade n 10]) in
  NoDup (seenTrades st) /\
  JSSet.size (seenTrades st) = 10000 /\
  completed c /\
  outcomes c = [(sampleTrade n 10, Logged)] /\
  JSSet.size (seenTrades (afterLoop c)) = 10001 /\
  JSSet.size (seenTrades (after c)) = 5001.
Proof.
  intros Hn. cbv zeta.
  set (st := mkPollState (ledgerOf n) 0).
  assert (Hwin : lastTimestamp st - 5 <= 10) by (cbn [lastTimestamp st]; lia).
  assert (Hdate : Z.abs (10 * 1000) <= Format.maxTimeValue)
    by (unfold Format.maxTimeValue; lia).
  destruct (one_new_record st n 10 eq_refl Hwin Hdate) as [Hc [Hout Hseen]].
  set (c := pollCycle st (HttpOk [sampleTrade n 10])) in *.
  assert (Hsize : JSSet.size (seenTrades (afterLoop c)) = 10001).
  { rewrite Hseen. unfold JSSet.size. rewrite length_app.
    unfold ledgerOf. rewrite length_map, length_seq.
    cbn [List.length]. lia. }
  assert (Hnd : NoDup (seenTrades (afterLoop c))).
  { unfold c. rewrite pollCycle_loopEnd. apply forLoop_NoDup.
    apply ledgerOf_NoDup. }
  split; [apply ledgerOf_NoDup|].
  split; [cbn [seenTrades st]; rewrite ledgerOf_size; exact Hn|].
  split; [exact Hc|].
  split; [exact Hout|].
  split; [exact Hsize|].
  pose proof (proj2 (pollCycle_completed st (HttpOk [sampleTrade n 10]) Hc)) as Hafter.
  fold c in Hafter. rewrite Hafter. cbn [seenTrades].
  rewrite (compact_spec _ Hnd), Hsize.
  change (10000 <? 10001) with true. cbv iota.
  rewrite size_skipn; lia.
Qed.

Lemma capacity_nat : Z.of_nat (Z.to_nat 10000) = 10000.
Proof. apply Z2Nat.id. lia. Qed.

(** C7, as stated, fails: starting a cycle with 10,000 ids in the set, one
    new trade makes the set hold 10,001 ids when logTrade runs and until the
    end of the loop; only the compaction step at the end of the cycle brings
    the size down, to 5,001. *)
Lemma C7_size_exceeds_capacity_counterexample :
  let st := mkPollState (ledgerOf (Z.to_nat 10000)) 0 in
  let c := pollCycle st (HttpOk [sampleTrade (Z.to_nat 10000) 10]) in
  JSSet.size (seenTrades st) = 10000 /\
  outcomes c = [(sampleTrade (Z.to_nat 10000) 10, Logged)] /\
  JSSet.size (seenTrades (afterLoop c)) = 10001 /\
  ~ JSSet.size (seenTrades (afterLoop c)) <= 10000 /\
  JSSet.size (seenTrades (after c)) = 5001.
Proof.
  destruct (cycle_at_capacity (Z.to_nat 10000) capacity_nat)
    as [_ [H1 [_ [H2 [H3 H4]]]]].
  cbv zeta. split; [exact H1|]. split; [exact H2|]. split; [exact H3|].
  split; [|exact H4]. rewrite H3. lia.
Qed.

(** C7 (amended): starting a cycle with at most C = 10,000 distinct ids in
    the set and fetching at most 5,000 trade records, the set holds at most C
    ids when the cycle ends, that is, when it reaches its last statement and
    no call of logTrade threw; inside the cycle, before the compaction step,
    it can hold up to C plus the number of fetched records.  When the size
    exceeds C at the end of the loop, the compaction step deletes the 5,000
    oldest ids by insertion order in one pass and keeps the others in order;
    so compaction triggered at C + 1 ids leaves 5,001 ids, the most recently
    inserted ones.  A cycle that a throwing logTrade ends does not reach the
    compaction step and leaves the set as the loop left it. *)
Theorem C7_ledger_bound (st : PollState) (response : FetchResponse) :
  NoDup (seenTrades st) ->
  JSSet.size (seenTrades st) <= 10000 ->
  Z.of_nat (List.length (fetchTargetActivity response)) <= 5000 ->
  let c := pollCycle st response in
  let loopEnd := seenTrades (afterLoop c) in
  NoDup (seenTrades (after c)) /\
  JSSet.size loopEnd <=
    JSSet.size (seenTrades st) + Z.of_nat (List.length (fetchTargetActivity response)) /\
  (completed c ->
     JSSet.size (seenTrades (after c)) <= 10000 /\
     (JSSet.size loopEnd <= 10000 -> seenTrades (after c) = loopEnd) /\
     (10000 < JSSet.size loopEnd ->
        seenTrades (after c) = skipn (Z.to_nat 5000) loopEnd /\
        loopEnd = (firstn (Z.to_nat 5000) loopEnd ++ seenTrades (after c))%list /\
        JSSet.size (seenTrades (after c)) = JSSet.size loopEnd - 5000) /\
     (JSSet.size loopEnd = 10001 -> JSSet.size (seenTrades (after c)) = 5001)) /\
  (forall e, thrown c = Some e -> seenTrades (after c) = loopEnd).
Proof.
  intros Hnd Hsize Hbatch. cbv zeta.
  set (c := pollCycle st response).
  set (trades := sortTrades (fetchTargetActivity response)).
  assert (Eend : seenTrades (afterLoop c) =
                 loopSeen (forLoop (lastTimestamp st) trades (seenTrades st)))
    by apply pollCycle_loopEnd.
  set (loopEnd := seenTrades (afterLoop c)) in *.
  assert (Hnd' : NoDup loopEnd) by (rewrite Eend; now apply forLoop_NoDup).
  assert (Hle : JSSet.size loopEnd <=
                JSSet.size (seenTrades st)
                + Z.of_nat (List.length (fetchTargetActivity response))).
  { rewrite Eend. unfold trades.
    rewrite <- (sortTrades_length (fetchTargetActivity response)).
    apply forLoop_size_le. }
  assert (Hdone : completed c ->
            seenTrades (after c) =
            if 10000 <? JSSet.size loopEnd
            then skipn (Z.to_nat 5000) loopEnd else loopEnd).
  { intros Hc. pose proof (proj2 (pollCycle_completed st response Hc)) as Hafter.
    fold c in Hafter. rewrite Hafter. cbn [seenTrades]. fold loopEnd.
    apply (compact_spec _ Hnd'). }
  assert (Hstop : forall e, thrown c = Some e -> seenTrades (after c) = loopEnd).
  { intros e He. pose proof (proj1 (pollCycle_aborted st response e He)) as Hafter.
    fold c in Hafter. now rewrite Hafter. }
  split; [|split; [exact Hle|split; [|exact Hstop]]].
  - destruct (thrown c) as [e|] eqn:Ec.
    + now rewrite (Hstop e eq_refl).
    + rewrite (Hdone Ec).
      destruct (10000 <? JSSet.size loopEnd); [now apply NoDup_skipn | exact Hnd'].
  - intros Hc. rewrite (Hdone Hc).
    destruct (Z.ltb_spec 10000 (JSSet.size loopEnd)) as [Hbig|Hsmall].
    + assert (Hsk : JSSet.size (skipn (Z.to_nat 5000) loopEnd) = JSSet.size loopEnd - 5000)
        by (apply size_skipn; lia).
      repeat split; try lia.
      now rewrite firstn_skipn.
    + repeat split; try lia; auto.
Qed.

Lemma C7_ledger_bound_witness :
  let st := mkPollState (ledgerOf (Z.to_nat 10000)) 0 in
  let c := pollCycle st (HttpOk [sampleTrade (Z.to_nat 10000) 10]) in
  NoDup (seenTrades (after c)) /\
  JSSet.size (seenTrades (after c)) <= 10000 /\
  seenTrades (after c) = skipn (Z.to_nat 5000) (seenTrades (afterLoop c)).
Proof.
  destruct (cycle_at_capacity (Z.to_nat 10000) capacity_nat)
    as [Hnd [Hs [Hc [_ [Hl _]]]]].
  cbv zeta.
  pose proof (C7_ledger_bound (mkPollState (ledgerOf (Z.to_nat 10000)) 0)
                (HttpOk [sampleTrade (Z.to_nat 10000) 10]) Hnd) as H.
  cbv zeta in H.
  destruct H as [H1 [_ [H3 _]]].
  - rewrite Hs. lia.
  - cbn [fetchTargetActivity filter sampleTrade type String.eqb Ascii.eqb
         Bool.eqb List.length]. lia.
  - cbv zeta in Hc. destruct (H3 Hc) as [H2 [_ [H5 _]]].
    split; [exact H1|]. split; [exact H2|].
    refine (proj1 (H5 _)). cbv zeta in Hl. rewrite Hl. lia.
Defined.

End PollerProofs.
(* ===================================================================== *)
(** * Further properties of the two mirrorTrade functions                 *)
(* ===================================================================== *)

Module MirrorExtras.
Import JS Clob Format MirrorSpec MirrorFlow Samples.

Local Arguments Mirror.roundPrice : simpl never.
Local Arguments Mirror.roundSize : simpl never.
Local Arguments truthy : simpl never.
Local Arguments strictEqStr : simpl never.
Local Arguments renderable : simpl never.
Local Arguments parseFloatValue : simpl never.

(** ** The run of either function, case by case *)

Lemma validating_run (c : ClobClient) (td : TradeData) :
  Mirror.missingRequiredField td = false -> printable td = true ->
  let m := Mirror.mirrorTrade (Some c) td in
  match createOrder c (builtParams td) with
  | inl e =>
      networkCalls m = [CallCreateOrder (builtParams td)] /\
      snd m = inr JNull /\ logsError m e
  | inr order =>
      match postOrder c order IOC with
      | inl e =>
          networkCalls m =
            [CallCreateOrder (builtParams td); CallPostOrder order IOC] /\
          snd m = inr JNull /\ logsError m e
      | inr result =>
          networkCalls m =
            [CallCreateOrder (builtParams td); CallPostOrder order IOC] /\
          (snd m = inr result \/ snd m = inr JNull)
      end
  end.
Proof.
  intros H Hp. cbv zeta. unfold Mirror.mirrorTrade, networkCalls, logsError, trace.
  unfold Mirror.missingRequiredField in H. rewrite H.
  MirrorProofs.printable_steps Hp.
  cbn. change (OrderParams.mk _ _ _ _ _) with (builtParams td).
  destruct (createOrder c (builtParams td)) as [e|order]; cbn.
  - destruct (truthy (response_data e)); cbn; repeat split; auto 10.
  - destruct (postOrder c order IOC) as [e|result]; cbn.
    + destruct (truthy (response_data e)); cbn; repeat split; auto 12.
    + destruct (getProp result "success") as [e|flag]; cbn.
      * destruct (truthy (response_data e)); cbn; split; auto.
      * destruct (truthy flag); cbn; split; auto.
Qed.

Lemma plain_run (c : ClobClient) (td : TradeData) :
  printable td = true ->
  let m := MirrorPlain.mirrorTrade (Some c) td in
  match createOrder c (plainParams td) with
  | inl e =>
      networkCalls m = [CallCreateOrder (plainParams td)] /\
      snd m = inr JNull /\ logsError m e
  | inr order =>
      match postOrder c order GTC with
      | inl e =>
          networkCalls m =
            [CallCreateOrder (plainParams td); CallPostOrder order GTC] /\
          snd m = inr JNull /\ logsError m e
      | inr result =>
          networkCalls m =
            [CallCreateOrder (plainParams td); CallPostOrder order GTC] /\
          (snd m = inr result \/ snd m = inr JNull)
      end
  end.
Proof.
  intros Hp. cbv zeta. unfold MirrorPlain.mirrorTrade, networkCalls, logsError, trace.
  MirrorProofs.printable_steps Hp.
  cbn. change (OrderParams.mk _ _ _ _ _) with (plainParams td).
  destruct (createOrder c (plainParams td)) as [e|order]; cbn.
  - destruct (truthy (response_data e)); cbn; repeat split; auto 10.
  - destruct (postOrder c order GTC) as [e|result]; cbn.
    + destruct (truthy (response_data e)); cbn; repeat split; auto 12.
    + destruct (getProp result "orderID") as [e|orderID] eqn:E1; cbn.
      * destruct (truthy (response_data e)); cbn; split; auto.
      * destruct (getProp result "id") as [e|id] eqn:E2; cbn.
        { destruct (truthy (response_data e)); cbn; split; auto. }
        destruct (interpolate (orElse (orElse orderID id) (JStr "N/A")))
          as [e|[]]; cbn.
        { destruct (truthy (response_data e)); cbn; split; auto. }
        destruct (getProp result "status") as [e|status] eqn:E3; cbn.
        { destruct (truthy (response_data e)); cbn; split; auto. }
        destruct (interpolate (orElse status (JStr "submitted"))) as [e|[]]; cbn.
        { destruct (truthy (response_data e)); cbn; split; auto. }
        split; auto.
Qed.

Lemma no_call_no_network {A} (m : M A) : noNetworkCall m -> networkCalls m = [].
Proof.
  unfold noNetworkCall, networkCalls. induction (trace m) as [|e tr IH]; intros H;
    [reflexivity|].
  cbn. rewrite (H e (or_introl eq_refl)). apply IH. intros x Hx. apply H. now right.
Qed.

Lemma validating_stops_early client td :
  Mirror.missingRequiredField td = true \/ printable td = false ->
  networkCalls (Mirror.mirrorTrade client td) = [].
Proof.
  intros H. apply no_call_no_network.
  apply (MirrorProofs.mirrorTrade_stops_early client td H).
Qed.

Lemma validating_aborted client td :
  Mirror.missingRequiredField td = true -> printable td = true ->
  networkCalls (Mirror.mirrorTrade client td) = [] /\
  snd (Mirror.mirrorTrade client td) = inr JNull.
Proof.
  intros H Hp. rewrite (MirrorProofs.mirrorTrade_abort _ _ H Hp). split; reflexivity.
Qed.

(** A field without a text: the call throws in front of the try block. *)
Lemma validating_unprintable client td :
  printable td = false -> rejectsEarly (Mirror.mirrorTrade client td).
Proof.
  intros Hp. split; [|apply validating_stops_early; now right].
  unfold rejects. destruct (Mirror.missingRequiredField td) eqn:Hm.
  - destruct (MirrorProofs.mirrorTrade_abort_throws client td Hm Hp) as [e ->].
    now exists e.
  - destruct (MirrorProofs.mirrorTrade_unprintable client td Hm Hp) as [tr [e [-> _]]].
    now exists e.
Qed.

Lemma plain_unprintable client td :
  printable td = false -> rejectsEarly (MirrorPlain.mirrorTrade client td).
Proof.
  intros Hp. unfold rejectsEarly, rejects, networkCalls, trace,
    MirrorPlain.mirrorTrade.
  MirrorProofs.unprintable_cases td; (split; [eexists|]; reflexivity).
Qed.

Lemma validating_no_client td :
  printable td = true ->
  networkCalls (Mirror.mirrorTrade None td) = [] /\
  snd (Mirror.mirrorTrade None td) = inr JNull.
Proof.
  intros Hp. destruct (Mirror.missingRequiredField td) eqn:Hm;
    [now apply validating_aborted|].
  unfold Mirror.mirrorTrade, networkCalls, trace.
  unfold Mirror.missingRequiredField in Hm. rewrite Hm.
  MirrorProofs.printable_steps Hp. split; reflexivity.
Qed.

Lemma plain_no_client td :
  printable td = true ->
  networkCalls (MirrorPlain.mirrorTrade None td) = [] /\
  snd (MirrorPlain.mirrorTrade None td) = inr JNull.
Proof.
  intros Hp. unfold MirrorPlain.mirrorTrade, networkCalls, trace.
  MirrorProofs.printable_steps Hp. split; reflexivity.
Qed.

(** A call on fields that all have a text returns: null, or what postOrder
    resolved to. *)
Lemma validating_returns client td :
  printable td = true ->
  exists v, snd (Mirror.mirrorTrade client td) = inr v /\
    (v = JNull \/
     exists c order, client = Some c /\
       createOrder c (builtParams td) = inr order /\
       postOrder c order IOC = inr v).
Proof.
  intros Hp. destruct client as [c|].
  - destruct (Mirror.missingRequiredField td) eqn:Hm.
    + exists JNull. split; [apply (validating_aborted _ _ Hm Hp) | now left].
    + pose proof (validating_run c td Hm Hp) as H. cbv zeta in H.
      destruct (createOrder c (builtParams td)) as [e|order] eqn:Ec.
      { exists JNull. split; [apply H | now left]. }
      destruct (postOrder c order IOC) as [e|result] eqn:Ep.
      { exists JNull. split; [apply H | now left]. }
      destruct H as [_ [H | H]].
      { exists result. split; [exact H|]. right. now exists c, order. }
      { exists JNull. split; [exact H | now left]. }
  - exists JNull. split; [now apply validating_no_client | now left].
Qed.

Lemma plain_returns client td :
  printable td = true ->
  exists v, snd (MirrorPlain.mirrorTrade client td) = inr v /\
    (v = JNull \/
     exists c order, client = Some c /\
       createOrder c (plainParams td) = inr order /\
       postOrder c order GTC = inr v).
Proof.
  intros Hp. destruct client as [c|].
  - pose proof (plain_run c td Hp) as H. cbv zeta in H.
    destruct (createOrder c (plainParams td)) as [e|order] eqn:Ec.
    { exists JNull. split; [apply H | now left]. }
    destruct (postOrder c order GTC) as [e|result] eqn:Ep.
    { exists JNull. split; [apply H | now left]. }
    destruct H as [_ [H | H]].
    { exists result. split; [exact H|]. right. now exists c, order. }
    { exists JNull. split; [exact H | now left]. }
  - exists JNull. split; [now apply plain_no_client | now left].
Qed.

(** X1: the mirrorTrade of lines 101-163 reports by the success flag: a run
    logs the success line only if postOrder returned a result whose success
    property is truthy, and a returned result whose flag is absent or falsy
    is logged as failed and never as executed.  (A result is returned only in
    a call that reached the try block: all four fields are present and have
    a text.) *)
Theorem X1_validating_mirror_follows_flag (client : option ClobClient)
    (td : TradeData) :
  (reportsSuccess (Mirror.mirrorTrade client td) ->
     exists c order result,
       client = Some c /\
       createOrder c (builtParams td) = inr order /\
       postOrder c order IOC = inr result /\
       successFlag result = true) /\
  (forall c order result,
     client = Some c ->
     Mirror.missingRequiredField td = false ->
     printable td = true ->
     createOrder c (builtParams td) = inr order ->
     postOrder c order IOC = inr result ->
     successFlag result = false ->
     reportsFailure (Mirror.mirrorTrade client td) /\
     ~ reportsSuccess (Mirror.mirrorTrade client td)).
Proof. exact (MirrorProofs.validating_mirror_reports_by_flag client td). Qed.

(** X2: when an exception escapes from a mirrorTrade.  Either function
    throws exactly when one of the four fields has no text (an object whose
    own toString property hides the inherited method, or an array that
    holds such an object): the template literal
    that prints the field, in front of the try block, throws a TypeError,
    and no method of the client has been called.  For every other input and
    every client state the call returns, and what it returns is null or the
    very value that postOrder resolved to for the order that createOrder
    returned. *)
Theorem X2_mirrorTrade_throws_only_unprintable (client : option ClobClient)
    (td : TradeData) :
  (printable td = false ->
     rejectsEarly (Mirror.mirrorTrade client td) /\
     rejectsEarly (MirrorPlain.mirrorTrade client td)) /\
  (printable td = true ->
     (exists v, snd (Mirror.mirrorTrade client td) = inr v /\
        (v = JNull \/
         exists c order, client = Some c /\
           createOrder c (builtParams td) = inr order /\
           postOrder c order IOC = inr v)) /\
     (exists v, snd (MirrorPlain.mirrorTrade client td) = inr v /\
        (v = JNull \/
         exists c order, client = Some c /\
           createOrder c (plainParams td) = inr order /\
           postOrder c order GTC = inr v))).
Proof.
  split; [intros Hp; split; [now apply validating_unprintable
                            | now apply plain_unprintable]|].
  intros Hp. split; [now apply validating_returns | now apply plain_returns].
Qed.

(** Both functions on an asset without a text. *)
Example unprintable_asset_throws :
  let td := mkTradeData unprintable (JStr "BUY") (JStr "5") (JStr "0.5") in
  Mirror.mirrorTrade (Some acceptingClient) td
  = ([ConsoleLog MsgMirroring],
     inl (TypeError "Cannot convert object to primitive value")) /\
  MirrorPlain.mirrorTrade (Some acceptingClient) td
  = ([ConsoleLog MsgMirroring],
     inl (TypeError "Cannot convert object to primitive value")).
Proof. split; reflexivity. Qed.

(** X3: an exception thrown by createOrder, or by postOrder after createOrder
    returned, is caught by either mirrorTrade: the error message is logged
    with console.error and the call returns null.  (The client is called
    only for an input that passed the lines in front of the try block.) *)
Theorem X3_client_errors_are_caught (c : ClobClient) (td : TradeData) (e : JSError) :
  (Mirror.missingRequiredField td = false -> printable td = true ->
   (createOrder c (builtParams td) = inl e \/
    exists order, createOrder c (builtParams td) = inr order /\
                  postOrder c order IOC = inl e) ->
     snd (Mirror.mirrorTrade (Some c) td) = inr JNull /\
     logsError (Mirror.mirrorTrade (Some c) td) e) /\
  (printable td = true ->
   (createOrder c (plainParams td) = inl e \/
    exists order, createOrder c (plainParams td) = inr order /\
                  postOrder c order GTC = inl e) ->
     snd (MirrorPlain.mirrorTrade (Some c) td) = inr JNull /\
     logsError (MirrorPlain.mirrorTrade (Some c) td) e).
Proof.
  split.
  - intros Hm Hp Hthrow. pose proof (validating_run c td Hm Hp) as H. cbv zeta in H.
    destruct Hthrow as [Ec | [order [Ec Ep]]].
    + rewrite Ec in H. tauto.
    + rewrite Ec, Ep in H. tauto.
  - intros Hp Hthrow. pose proof (plain_run c td Hp) as H. cbv zeta in H.
    destruct Hthrow as [Ec | [order [Ec Ep]]].
    + rewrite Ec in H. tauto.
    + rewrite Ec, Ep in H. tauto.
Qed.

Lemma X3_client_errors_are_caught_witness :
  (snd (Mirror.mirrorTrade (Some unsignedClient) (order "BUY" "5" "0.5")) = inr JNull /\
   logsError (Mirror.mirrorTrade (Some unsignedClient) (order "BUY" "5" "0.5"))
     (mkJSError "invalid signature" JUndefined)) /\
  (snd (MirrorPlain.mirrorTrade (Some offlineClient) (order "BUY" "5" "0.5")) = inr JNull /\
   logsError (MirrorPlain.mirrorTrade (Some offlineClient) (order "BUY" "5" "0.5"))
     (mkJSError "Request failed with status code 400"
        (JObj [("error", JStr "invalid order")]))).
Proof.
  split.
  - refine (proj1 (X3_client_errors_are_caught unsignedClient _ _) _ _ _).
    + reflexivity.
    + reflexivity.
    + left. reflexivity.
  - refine (proj2 (X3_client_errors_are_caught offlineClient _ _) _ _).
    + reflexivity.
    + right. eexists. split; reflexivity.
Defined.

(** X4: the call protocol of both mirrorTrade functions: createOrder is called
    at most once, with the parameters built from the input; postOrder is
    called exactly when createOrder returned, once, with the order it
    returned (type IOC in lines 101-163, GTC in lines 496-534); without a
    client, after a failed required-fields check, and in a call that throws
    in front of the try block because a field has no text, no call is
    made. *)
Theorem X4_call_protocol (client : option ClobClient) (td : TradeData) :
  networkCalls (Mirror.mirrorTrade client td) =
    match client with
    | None => []
    | Some c =>
        if Mirror.missingRequiredField td || negb (printable td) then []
        else match createOrder c (builtParams td) with
             | inl _ => [CallCreateOrder (builtParams td)]
             | inr order =>
                 [CallCreateOrder (builtParams td); CallPostOrder order IOC]
             end
    end /\
  networkCalls (MirrorPlain.mirrorTrade client td) =
    match client with
    | None => []
    | Some c =>
        if negb (printable td) then []
        else match createOrder c (plainParams td) with
             | inl _ => [CallCreateOrder (plainParams td)]
             | inr order =>
                 [CallCreateOrder (plainParams td); CallPostOrder order GTC]
             end
    end.
Proof.
  destruct (printable td) eqn:Hp.
  - rewrite orb_false_r. cbn [negb]. split.
    + destruct client as [c|]; [|now apply validating_no_client].
      destruct (Mirror.missingRequiredField td) eqn:Hm;
        [apply (validating_aborted _ _ Hm Hp)|].
      pose proof (validating_run c td Hm Hp) as H. cbv zeta in H.
      destruct (createOrder c (builtParams td)) as [e|order]; [apply H|].
      destruct (postOrder c order IOC); apply H.
    + destruct client as [c|]; [|now apply plain_no_client].
      pose proof (plain_run c td Hp) as H. cbv zeta in H.
      destruct (createOrder c (plainParams td)) as [e|order]; [apply H|].
      destruct (postOrder c order GTC); apply H.
  - rewrite orb_true_r. cbn [negb].
    rewrite (proj2 (validating_unprintable client td Hp)).
    rewrite (proj2 (plain_unprintable client td Hp)).
    destruct client; split; reflexivity.
Qed.

(** ** Normalised prices and sizes *)

Local Open Scope Q_scope.

Lemma floor_unique (x : Q) (k : Z) :
  inject_Z k <= x -> x < inject_Z k + 1 -> Qfloor x = k.
Proof.
  intros Hlo Hhi.
  pose proof (Qfloor_le x) as H1. pose proof (Qlt_floor x) as H2.
  rewrite inject_Z_plus in H2. change (inject_Z 1) with 1 in H2.
  assert (Ha : inject_Z (Qfloor x) < inject_Z (k + 1))
    by (rewrite inject_Z_plus; change (inject_Z 1) with 1; lra).
  assert (Hb : inject_Z k < inject_Z (Qfloor x + 1))
    by (rewrite inject_Z_plus; change (inject_Z 1) with 1; lra).
  rewrite <- Zlt_Qlt in Ha, Hb. lia.
Qed.

(** A whole number of ticks between 10 and 990 is left as it is: the
    rounding errors of the division and of the product are far below half a
    tick. *)
Lemma roundPrice_ticks (k : Z) :
  (10 <= k <= 990)%Z -> Mirror.roundPrice (ticks k) = ticks k.
Proof.
  intros [Hlo Hhi].
  assert (Hclamp : clampZ 10 990 k = k) by (unfold clampZ; lia).
  rewrite <- Hclamp at 2. rewrite <- MirrorProofs.clamp_ticks.
  unfold Mirror.roundPrice. do 2 f_equal.
  unfold ticks at 1.
  pose proof (NumberProofs.round64_cases (inject_Z k / (1000 # 1))) as H.
  rewrite Zle_Qle in Hlo, Hhi.
  change (inject_Z 10) with 10 in Hlo. change (inject_Z 990) with 990 in Hhi.
  unfold Qdiv in H |- *. change (/ (1000 # 1)) with (1 # 1000) in H |- *.
  MirrorProofs.number_facts.
  destruct (round64 (inject_Z k * (1 # 1000))) as [| | |y];
    [contradiction | lra | lra |].
  destruct H as [Hy1 [Hy2 [Hpos _]]].
  rewrite Qabs_pos in Hy1, Hy2 by lra.
  assert (Hy0 : 0 <= y) by (apply Hpos; lra).
  unfold Mirror.thousand. cbn [jsMul].
  pose proof (NumberProofs.round64_cases (y * 1000)) as Hz.
  rewrite ?NumberProofs.pow2_53 in Hz.
  destruct (round64 (y * 1000)) as [| | |z]; [contradiction | lra | lra |].
  destruct Hz as [Hz1 [Hz2 _]].
  rewrite Qabs_pos in Hz1, Hz2 by lra.
  cbn [Math_round jsDiv]. change (Qeq_bool (1000 # 1) 0) with false. cbv iota.
  rewrite (floor_unique (z + (1 # 2)) k) by lra.
  reflexivity.
Qed.

Local Close Scope Q_scope.

(** X5: whatever number parseFloat made of the input price, the price that
    the mirrorTrade of lines 101-163 puts into the order is NaN exactly when
    that number is NaN, and otherwise the binary64 quotient by 1000 of a
    whole number of ticks between 10 and 990, a number from 0.01 to 0.99; an
    infinite input price is clamped like any other. *)
Theorem X5_price_is_whole_ticks (x : JSNumber) :
  (Mirror.roundPrice x = NaN <-> x = NaN) /\
  (x <> NaN ->
     exists k, (10 <= k <= 990)%Z /\ Mirror.roundPrice x = ticks k /\
               inRange (1 # 100) (99 # 100) (Mirror.roundPrice x)).
Proof.
  pose proof (MirrorProofs.roundPrice_cases x) as H.
  assert (Hk : forall k, (10 <= clampZ 10 990 k <= 990)%Z)
    by (intros k; unfold clampZ; lia).
  split.
  - split; [|intros ->; reflexivity].
    destruct x as [| | |p]; [reflexivity| | |]; intros E; exfalso.
    + rewrite H in E. now apply MirrorProofs.ticks_not_NaN in E.
    + rewrite H in E. now apply MirrorProofs.ticks_not_NaN in E.
    + destruct H as [k [_ Hr]]. rewrite Hr in E.
      now apply MirrorProofs.ticks_not_NaN in E.
  - intros Hx. pose proof (MirrorProofs.roundPrice_in_range x Hx) as Hr.
    destruct x as [| | |p]; [contradiction| | |].
    + exists 990%Z. split; [lia|]. now split.
    + exists 10%Z. split; [lia|]. now split.
    + destruct H as [k [_ Hp]]. exists (clampZ 10 990 k).
      split; [apply Hk|]. split; [exact Hp | exact Hr].
Qed.

Lemma X5_price_is_whole_ticks_witness :
  exists k, (10 <= k <= 990)%Z /\
    Mirror.roundPrice (parseFloatValue (JStr "0.4567")) = ticks k /\
    inRange (1 # 100) (99 # 100) (Mirror.roundPrice (parseFloatValue (JStr "0.4567"))).
Proof.
  refine (proj2 (X5_price_is_whole_ticks (parseFloatValue (JStr "0.4567"))) _).
  vm_compute. discriminate.
Defined.

(** X6: normalising a price is idempotent: a price that mirrorTrade has
    rounded and clamped comes out unchanged when it is given to
    mirrorTrade's rounding again, so mirroring an already mirrored order
    does not move its price.  The size has no such bound and can move: the
    binary64 number nearest to 36220243498675.336 is rounded to the one
    nearest to 36220243498675.34, and that one to another number. *)
Theorem X6_price_normalisation_is_idempotent :
  (forall x : JSNumber,
     Mirror.roundPrice (Mirror.roundPrice x) = Mirror.roundPrice x) /\
  Mirror.roundSize (round64 36220243498675.336) = round64 36220243498675.34 /\
  Mirror.roundSize (round64 36220243498675.34) = round64 36220243498675.35 /\
  round64 36220243498675.35 <> round64 36220243498675.34.
Proof.
  split.
  - intros x. pose proof (MirrorProofs.roundPrice_cases x) as H.
    destruct x as [| | |p].
    + rewrite H. reflexivity.
    + rewrite H. apply roundPrice_ticks. lia.
    + rewrite H. apply roundPrice_ticks. lia.
    + destruct H as [k [_ ->]]. apply roundPrice_ticks. unfold clampZ. lia.
  - vm_compute. repeat split. discriminate.
Qed.

End MirrorExtras.

(* ===================================================================== *)
(** * Further properties of the activity poller                           *)
(* ===================================================================== *)

Module PollerExtras.
Import JS Clob Poller PollerSpec PollerFlow.
Local Open Scope Z_scope.

(** ** A cycle that fetches nothing *)

Lemma compact_small seen : JSSet.size seen <= 10000 -> compact seen = seen.
Proof.
  intros H. unfold compact.
  destruct (Z.ltb_spec 10000 (JSSet.size seen)); [lia | reflexivity].
Qed.

Lemma fetch_no_trade activity :
  (forall item, In item activity -> type item <> "TRADE"%string) ->
  fetchTargetActivity (HttpOk activity) = [].
Proof.
  intros H. cbn [fetchTargetActivity].
  induction activity as [|a rest IH]; [reflexivity|].
  cbn [filter].
  destruct (String.eqb_spec (type a) "TRADE") as [E|_].
  - exfalso. apply (H a); [now left | exact E].
  - apply IH. intros item Hin. apply H. now right.
Qed.

(** X7: a cycle whose fetch fails (transport error or non-ok status), or
    whose response holds no record of type TRADE, is skipped: it hands
    nothing to logTrade and, the set holding at most 10,000 ids, it leaves
    both seenTrades and lastTimestamp as they were. *)
Theorem X7_failed_fetch_skips_cycle (st : PollState) (response : FetchResponse) :
  JSSet.size (seenTrades st) <= 10000 ->
  match response with
  | HttpOk activity => forall item, In item activity -> type item <> "TRADE"%string
  | _ => True
  end ->
  pollForTrades st response = st /\
  outcomes (pollCycle st response) = [] /\
  mirrorCalls (pollCycle st response) = [].
Proof.
  intros Hsize Hresp.
  assert (E : fetchTargetActivity response = []).
  { destruct response as [msg|status|activity]; try reflexivity.
    now apply fetch_no_trade. }
  unfold pollForTrades, mirrorCalls, pollCycle. rewrite E. cbn.
  rewrite (compact_small _ Hsize). destruct st. repeat split.
Qed.

Lemma X7_failed_fetch_skips_cycle_witness :
  let st := mkPollState [tradeId (sampleTrade 1 90)] 100 in
  (pollForTrades st (HttpError 503) = st /\
   outcomes (pollCycle st (HttpError 503)) = [] /\
   mirrorCalls (pollCycle st (HttpError 503)) = []) /\
  (pollForTrades st (FetchFailed "socket hang up") = st /\
   outcomes (pollCycle st (FetchFailed "socket hang up")) = [] /\
   mirrorCalls (pollCycle st (FetchFailed "socket hang up")) = []).
Proof.
  cbv zeta. split.
  - refine (X7_failed_fetch_skips_cycle _ (HttpError 503) _ I). cbn. lia.
  - refine (X7_failed_fetch_skips_cycle _ (FetchFailed "socket hang up") _ I).
    cbn. lia.
Defined.

(** ** The watermark *)

(** The watermark and the set at the end of a cycle: the update and the
    compaction step are reached only when the loop did not throw. *)
Lemma pollCycle_watermark st r :
  lastTimestamp (after (pollCycle st r)) =
  match thrown (pollCycle st r) with
  | None => maxTimestamp (fetchTargetActivity r) (lastTimestamp st)
  | Some _ => lastTimestamp st
  end.
Proof.
  unfold pollCycle. destruct (loopThrown _); cbn [after thrown lastTimestamp];
    [reflexivity | apply PollerProofs.updateLastTimestamp_max].
Qed.

Lemma pollCycle_after_seen st r :
  seenTrades (after (pollCycle st r)) =
  match thrown (pollCycle st r) with
  | None => compact (seenTrades (afterLoop (pollCycle st r)))
  | Some _ => seenTrades (afterLoop (pollCycle st r))
  end.
Proof. unfold pollCycle. now destruct (loopThrown _). Qed.

Lemma pollCycle_watermark_le st r :
  lastTimestamp st <= lastTimestamp (after (pollCycle st r)).
Proof.
  rewrite pollCycle_watermark. destruct (thrown _); [lia|].
  apply PollerProofs.maxTimestamp_ge_floor.
Qed.

Lemma run_watermark_step st responses n c :
  cycleAt st responses n = Some c ->
  lastTimestamp (before c) <= lastTimestamp (after c).
Proof.
  intros H. destruct (PollerProofs.cycleAt_pollCycle _ _ _ _ H) as [r [_ E]].
  rewrite E at 2. apply pollCycle_watermark_le.
Qed.

(** X8: lastTimestamp never moves backwards: a cycle leaves it at least as
    large as it found it, whatever the feed returns (records older than the
    watermark included), and over a run of cycles the value at the end of an
    earlier cycle is at most the value at the end of any later cycle; a cycle
    changes it only to the timestamp of a record it fetched. *)
Theorem X8_watermark_is_monotone :
  (forall st response,
     lastTimestamp st <= lastTimestamp (pollForTrades st response) /\
     (lastTimestamp (pollForTrades st response) = lastTimestamp st \/
      exists t, In t (fetchTargetActivity response) /\
                lastTimestamp (pollForTrades st response) = timestamp t)) /\
  (forall st responses i j ci cj,
     (i <= j)%nat ->
     cycleAt st responses i = Some ci ->
     cycleAt st responses j = Some cj ->
     lastTimestamp (after ci) <= lastTimestamp (after cj)).
Proof.
  split.
  - intros st response. unfold pollForTrades.
    split; [apply pollCycle_watermark_le|].
    rewrite pollCycle_watermark. destruct (thrown _); [now left|].
    destruct (PollerProofs.maxTimestamp_attained (fetchTargetActivity response)
                (lastTimestamp st)) as [H | [t [Ht E]]]; [now left | right].
    exists t. split; [exact Ht | now rewrite E].
  - intros st responses i j ci cj Hle Hi Hj. revert cj Hj.
    induction Hle as [|j Hle IH]; intros cj Hj.
    + assert (ci = cj) by congruence. subst. lia.
    + destruct (PollerProofs.cycleAt_defined_below _ _ _ j _ Hj) as [cm Hm]; [lia|].
      specialize (IH cm Hm).
      pose proof (run_watermark_step _ _ _ _ Hj) as Hstep.
      rewrite (proj1 (PollerProofs.cycleAt_chain _ _ _ _ _ Hm Hj)) in Hstep. lia.
Qed.

Lemma X8_watermark_is_monotone_witness :
  let st := mkPollState [] 100 in
  let responses := [HttpOk [sampleTrade 1 130]; HttpOk [sampleTrade 2 90]] in
  exists ci cj,
    cycleAt st responses 0 = Some ci /\ cycleAt st responses 1 = Some cj /\
    lastTimestamp (after ci) = 130 /\
    lastTimestamp (after ci) <= lastTimestamp (after cj).
Proof.
  cbv zeta. eexists. eexists.
  split; [reflexivity|]. split; [reflexivity|]. split; [reflexivity|].
  refine (proj2 X8_watermark_is_monotone (mkPollState [] 100)
            [HttpOk [sampleTrade 1 130]; HttpOk [sampleTrade 2 90]]
            0%nat 1%nat _ _ _ eq_refl eq_refl).
  lia.
Defined.


(** ** The set over a run of cycles *)

Lemma cycle_keeps_invariant st r :
  NoDup (seenTrades st) ->
  JSSet.size (seenTrades st) <= 10000 ->
  Z.of_nat (List.length (fetchTargetActivity r)) <= 5000 ->
  NoDup (seenTrades (afterLoop (pollCycle st r))) /\
  JSSet.size (seenTrades (afterLoop (pollCycle st r))) <= 15000 /\
  NoDup (seenTrades (after (pollCycle st r))) /\
  JSSet.size (seenTrades (after (pollCycle st r))) <= 15000 /\
  (completed (pollCycle st r) ->
   JSSet.size (seenTrades (after (pollCycle st r))) <= 10000).
Proof.
  intros Hnd Hsize Hbatch.
  rewrite pollCycle_after_seen. unfold completed.
  rewrite PollerProofs.pollCycle_loopEnd.
  set (loopEnd := loopSeen (forLoop (lastTimestamp st)
                              (sortTrades (fetchTargetActivity r)) (seenTrades st))).
  assert (Hnd' : NoDup loopEnd) by now apply PollerProofs.forLoop_NoDup.
  assert (Hle : JSSet.size loopEnd <= 15000).
  { pose proof (PollerProofs.forLoop_size_le (lastTimestamp st)
                  (sortTrades (fetchTargetActivity r)) (seenTrades st)) as H.
    rewrite PollerProofs.sortTrades_length in H. fold loopEnd in H. lia. }
  split; [exact Hnd'|]. split; [exact Hle|].
  destruct (thrown (pollCycle st r)) as [e|].
  { split; [exact Hnd'|]. split; [exact Hle | discriminate]. }
  rewrite (PollerProofs.compact_spec _ Hnd').
  destruct (Z.ltb_spec 10000 (JSSet.size loopEnd)) as [Hbig|Hsmall].
  - split; [now apply PollerProofs.NoDup_skipn|].
    rewrite PollerProofs.size_skipn by lia. split; [lia | intros _; lia].
  - split; [exact Hnd' | split; [lia | intros _; lia]].
Qed.

(** X9: over a whole run that starts with at most 10,000 distinct ids in
    seenTrades and in which every fetch returns at most 5,000 trade records,
    every cycle begins with a duplicate-free set of at most 10,000 ids, every
    cycle that reaches its end (no call of logTrade threw) ends with such a
    set, and the set never holds more than 15,000 ids in between, nor when a
    throwing logTrade ends the cycle and the run. *)
Theorem X9_run_keeps_the_set_bounded (st : PollState)
    (responses : list FetchResponse) (n : nat) (c : Cycle) :
  NoDup (seenTrades st) ->
  JSSet.size (seenTrades st) <= 10000 ->
  batchesWithin 5000 responses ->
  cycleAt st responses n = Some c ->
  NoDup (seenTrades (before c)) /\ JSSet.size (seenTrades (before c)) <= 10000 /\
  NoDup (seenTrades (afterLoop c)) /\ JSSet.size (seenTrades (afterLoop c)) <= 15000 /\
  NoDup (seenTrades (after c)) /\ JSSet.size (seenTrades (after c)) <= 15000 /\
  (completed c -> JSSet.size (seenTrades (after c)) <= 10000).
Proof.
  unfold cycleAt, batchesWithin. revert st n.
  induction responses as [|r rest IH]; intros st n Hnd Hsize Hb Hc;
    [now destruct n|].
  assert (Hr : Z.of_nat (List.length (fetchTargetActivity r)) <= 5000)
    by (apply Hb; now left).
  pose proof (cycle_keeps_invariant st r Hnd Hsize Hr) as [H1 [H2 [H3 [H4 H5]]]].
  destruct n as [|n]; cbn in Hc.
  - injection Hc as <-. rewrite PollerProofs.pollCycle_before. tauto.
  - destruct (thrown (pollCycle st r)) eqn:Ec; [now destruct n|].
    apply (IH (after (pollCycle st r)) n H3 (H5 Ec)); [|exact Hc].
    intros r' Hr'. apply Hb. now right.
Qed.

Lemma X9_run_keeps_the_set_bounded_witness :
  let st := mkPollState [tradeId (sampleTrade 1 90)] 100 in
  let c := pollCycle (pollForTrades st (HttpOk [sampleTrade 2 101]))
             (HttpOk [sampleTrade 3 102]) in
  NoDup (seenTrades (after c)) /\ JSSet.size (seenTrades (after c)) <= 10000.
Proof.
  cbv zeta.
  pose proof (X9_run_keeps_the_set_bounded
    (mkPollState [tradeId (sampleTrade 1 90)] 100)
    [HttpOk [sampleTrade 2 101]; HttpOk [sampleTrade 3 102]] 1
    (pollCycle (pollForTrades (mkPollState [tradeId (sampleTrade 1 90)] 100)
                  (HttpOk [sampleTrade 2 101]))
       (HttpOk [sampleTrade 3 102]))) as H.
  destruct H as [_ [_ [_ [_ [H5 [_ H6]]]]]].
  - repeat constructor. intros [].
  - cbn. lia.
  - intros r [<- | [<- | []]]; cbn; lia.
  - reflexivity.
  - split; [exact H5 | apply H6; vm_compute; reflexivity].
Defined.

(** ** The order in which a cycle goes through the records *)






(** A record that logTrade cannot display ends the loop: the older record
    behind it is not reached. *)
Example throwing_record_ends_the_loop :
  let c := pollCycle (mkPollState [] 100)
             (HttpOk [sampleTrade 1 120; sampleTrade 2 10000000000000]) in
  sorted c = [sampleTrade 2 10000000000000; sampleTrade 1 120] /\
  outcomes c = [(sampleTrade 2 10000000000000, Logged)] /\
  thrown c = Some (RangeError "Invalid time value") /\
  seenTrades (after c) = [tradeId (sampleTrade 2 10000000000000)] /\
  lastTimestamp (after c) = 100.
Proof. vm_compute. repeat split. Qed.


(** ** What the compaction step keeps *)

Lemma inserted_iff out r :
  In r (inserted out) <-> In (r, StaleBacklog) out \/ In (r, Logged) out.
Proof.
  induction out as [|[x o] rest IH]; [cbn; tauto|].
  rewrite PollerProofs.inserted_cons.
  destruct o; cbn [In]; rewrite IH; split.
  - tauto.
  - intros [[E | H] | [E | H]]; try discriminate E; tauto.
  - intros [-> | H]; tauto.
  - intros [[E | H] | [E | H]]; try discriminate E; try tauto.
    injection E as ->. now left.
  - intros [-> | H]; tauto.
  - intros [[E | H] | [E | H]]; try discriminate E; try tauto.
    injection E as ->. now left.
Qed.

Lemma skipn_keeps_tail {A} (n : nat) (old new : list A) :
  (n <= List.length old)%nat -> skipn n (old ++ new) = (skipn n old ++ new)%list.
Proof.
  intros H. rewrite skipn_app.
  replace (n - List.length old)%nat with 0%nat by lia. reflexivity.
Qed.

(** X11: with at most 5,000 trade records in the batch, the compaction step
    at the end of a cycle never evicts an id that the same cycle inserted:
    every record that took the stale-backlog branch or was handed to logTrade
    has its id in seenTrades when the cycle ends, so that the next cycle,
    whatever it fetches, hands no record with that id to logTrade. *)
Theorem X11_compaction_keeps_new_ids (st : PollState) (response next : FetchResponse)
    (r : ActivityRecord) :
  NoDup (seenTrades st) ->
  Z.of_nat (List.length (fetchTargetActivity response)) <= 5000 ->
  insertedIn (pollCycle st response) r ->
  In (tradeId r) (seenTrades (pollForTrades st response)) /\
  countId (tradeId r)
    (logged (outcomes (pollCycle (pollForTrades st response) next))) = 0%nat.
Proof.
  intros Hnd Hbatch Hins.
  assert (Hkept : In (tradeId r) (seenTrades (pollForTrades st response))).
  { unfold pollForTrades, insertedIn in *.
    rewrite PollerProofs.pollCycle_outcomes in Hins.
    rewrite pollCycle_after_seen, PollerProofs.pollCycle_loopEnd.
    set (wm := lastTimestamp st) in *.
    set (trades := sortTrades (fetchTargetActivity response)) in *.
    pose proof (PollerProofs.forLoop_NoDup wm trades (seenTrades st) Hnd) as Hnd'.
    pose proof (PollerProofs.forLoop_ledger wm trades (seenTrades st)) as Hled.
    pose proof (PollerProofs.inserted_length_le
                  (loopOutcomes (forLoop wm trades (seenTrades st)))) as Hlen.
    pose proof (PollerProofs.forLoop_length wm trades (seenTrades st)) as Hrec.
    unfold trades in Hrec at 2.
    rewrite PollerProofs.sortTrades_length in Hrec.
    apply inserted_iff in Hins. apply (in_map tradeId) in Hins.
    set (new := map tradeId
                  (inserted (loopOutcomes (forLoop wm trades (seenTrades st))))) in *.
    assert (Hnew : (List.length new <= List.length (fetchTargetActivity response))%nat).
    { unfold new. rewrite length_map. lia. }
    assert (Hend : In (tradeId r) (seenTrades st ++ new)%list)
      by (apply in_or_app; now right).
    destruct (thrown (pollCycle st response)); [now rewrite Hled|].
    rewrite (PollerProofs.compact_spec _ Hnd'). rewrite Hled.
    destruct (Z.ltb_spec 10000 (JSSet.size (seenTrades st ++ new)%list)) as [Hbig|Hsmall].
    - unfold JSSet.size in Hbig. rewrite length_app in Hbig.
      rewrite skipn_keeps_tail by lia. apply in_or_app. now right.
    - exact Hend. }
  split; [exact Hkept|].
  rewrite PollerProofs.pollCycle_outcomes.
  apply Nat.le_0_r.
  rewrite <- (PollerProofs.inserted_none_if_seen
                (lastTimestamp (pollForTrades st response))
                (sortTrades (fetchTargetActivity next))
                (seenTrades (pollForTrades st response)) (tradeId r) Hkept).
  apply PollerProofs.countId_logged_le_inserted.
Qed.

Lemma X11_compaction_keeps_new_ids_witness :
  let st := mkPollState [] 100 in
  let response := HttpOk [sampleTrade 7 101] in
  In (tradeId (sampleTrade 7 101)) (seenTrades (pollForTrades st response)) /\
  countId (tradeId (sampleTrade 7 101))
    (logged (outcomes (pollCycle (pollForTrades st response)
                         (HttpOk [sampleTrade 7 130])))) = 0%nat.
Proof.
  cbv zeta.
  refine (X11_compaction_keeps_new_ids (mkPollState [] 100)
            (HttpOk [sampleTrade 7 101]) (HttpOk [sampleTrade 7 130])
            (sampleTrade 7 101) _ _ _).
  - constructor.
  - cbn. lia.
  - right. vm_compute. tauto.
Defined.

(** ** Polling a feed that shows nothing new *)

Lemma forLoop_all_seen wm trades seen :
  (forall t, In t trades -> In (tradeId t) seen) ->
  forLoop wm trades seen = mkLoop seen (map (fun t => (t, AlreadySeen)) trades) None.
Proof.
  induction trades as [|x rest IH]; intros H; [reflexivity|].
  cbn [forLoop map].
  rewrite (proj2 (PollerProofs.has_In seen (tradeId x))) by (apply H; now left).
  rewrite IH by (intros t Ht; apply H; now right). reflexivity.
Qed.

Lemma logged_all_seen trades :
  logged (map (fun t => (t, AlreadySeen)) trades) = [].
Proof. induction trades as [|x rest IH]; [reflexivity | exact IH]. Qed.

Lemma maxTimestamp_idem l w : maxTimestamp l (maxTimestamp l w) = maxTimestamp l w.
Proof.
  assert (H : forall v, maxTimestamp l w <= v -> maxTimestamp l v = v).
  { intros v. induction l as [|a rest IH]; [reflexivity|].
    rewrite !PollerProofs.maxTimestamp_cons. intros Hv.
    rewrite IH by lia.
    pose proof (PollerProofs.maxTimestamp_ge_floor rest w). lia. }
  apply H. lia.
Qed.

(** A cycle in which the set holds the id of every record calls nothing
    and, in particular, does not throw. *)
Lemma cycle_all_seen st response :
  JSSet.size (seenTrades st) <= 10000 ->
  (forall t, In t (fetchTargetActivity response) -> In (tradeId t) (seenTrades st)) ->
  completed (pollCycle st response) /\
  mirrorCalls (pollCycle st response) = [] /\
  seenTrades (pollForTrades st response) = seenTrades st.
Proof.
  intros Hsize Hseen.
  assert (Hloop : forLoop (lastTimestamp st) (sortTrades (fetchTargetActivity response))
                    (seenTrades st) =
                  mkLoop (seenTrades st)
                    (map (fun t => (t, AlreadySeen))
                       (sortTrades (fetchTargetActivity response))) None).
  { apply forLoop_all_seen. intros t Ht. apply Hseen.
    now apply (proj1 (PollerProofs.sortTrades_In _ _)). }
  assert (Hc : completed (pollCycle st response)).
  { unfold completed. rewrite PollerProofs.pollCycle_thrown, Hloop. reflexivity. }
  split; [exact Hc|]. unfold mirrorCalls, pollForTrades.
  rewrite pollCycle_after_seen, Hc, PollerProofs.pollCycle_loopEnd,
    PollerProofs.pollCycle_outcomes, Hloop.
  cbn [loopSeen loopOutcomes]. rewrite logged_all_seen.
  split; [reflexivity | now apply compact_small].
Qed.

(** X12: a cycle in which every fetched trade record carries an id that the
    set already holds hands nothing to logTrade and leaves the set as it is;
    in particular, when a cycle reached its end without compaction, polling
    the same response once more is a no-op: nothing is logged or mirrored and
    neither seenTrades nor lastTimestamp changes. *)
Theorem X12_nothing_new_is_a_no_op :
  (forall st response,
     JSSet.size (seenTrades st) <= 10000 ->
     (forall t, In t (fetchTargetActivity response) -> In (tradeId t) (seenTrades st)) ->
     mirrorCalls (pollCycle st response) = [] /\
     seenTrades (pollForTrades st response) = seenTrades st) /\
  (forall st response,
     completed (pollCycle st response) ->
     JSSet.size (seenTrades (afterLoop (pollCycle st response))) <= 10000 ->
     mirrorCalls (pollCycle (pollForTrades st response) response) = [] /\
     pollForTrades (pollForTrades st response) response = pollForTrades st response).
Proof.
  split; [intros st response Hsize Hseen; now apply cycle_all_seen|].
  intros st response Hdone Hsize.
  assert (Hafter : seenTrades (pollForTrades st response)
                   = seenTrades (afterLoop (pollCycle st response))).
  { unfold pollForTrades. rewrite pollCycle_after_seen, Hdone.
    now apply compact_small. }
  destruct (cycle_all_seen (pollForTrades st response) response)
    as [Hc [Hcalls Hset]].
  - now rewrite Hafter.
  - intros t Ht. rewrite Hafter, PollerProofs.pollCycle_loopEnd.
    unfold completed in Hdone. rewrite PollerProofs.pollCycle_thrown in Hdone.
    apply (PollerProofs.forLoop_In_completed _ _ _ _ Hdone). right. apply in_map.
    now apply PollerProofs.sortTrades_In.
  - split; [exact Hcalls|].
    assert (Hwm : lastTimestamp (pollForTrades (pollForTrades st response) response)
                  = lastTimestamp (pollForTrades st response)).
    { unfold pollForTrades at 1. rewrite pollCycle_watermark, Hc.
      unfold pollForTrades. rewrite pollCycle_watermark, Hdone.
      apply maxTimestamp_idem. }
    destruct (pollForTrades (pollForTrades st response) response) as [s2 w2].
    destruct (pollForTrades st response) as [s1 w1].
    cbn [seenTrades lastTimestamp] in *. now subst.
Qed.

Lemma X12_nothing_new_is_a_no_op_witness :
  let st := mkPollState [] 100 in
  let response := HttpOk [sampleTrade 7 101; sampleTrade 8 120] in
  mirrorCalls (pollCycle (pollForTrades st response) response) = [] /\
  pollForTrades (pollForTrades st response) response = pollForTrades st response.
Proof.
  cbv zeta.
  refine (proj2 X12_nothing_new_is_a_no_op (mkPollState [] 100)
            (HttpOk [sampleTrade 7 101; sampleTrade 8 120]) _ _).
  - vm_compute. reflexivity.
  - vm_compute. discriminate.
Defined.


(** ** From the feed to the orders *)

Lemma submitted_at_most_one client td :
  (List.length (submittedOrders (Mirror.mirrorTrade client td)) <= 1)%nat.
Proof.
  destruct (Mirror.missingRequiredField td) eqn:H.
  { rewrite (proj1 (MirrorProofs.mirrorTrade_stops_early client td (or_introl H))).
    cbn. lia. }
  destruct (MirrorSpec.printable td) eqn:Hp.
  2:{ rewrite (proj1 (MirrorProofs.mirrorTrade_stops_early client td (or_intror Hp))).
      cbn. lia. }
  destruct client as [c|].
  - rewrite (MirrorProofs.mirrorTrade_submits _ _ H Hp). cbn. lia.
  - rewrite MirrorProofs.mirrorTrade_no_client. cbn. lia.
Qed.

Lemma flat_map_length_le {A B} (f : A -> list B) (l : list A) :
  (forall a, (List.length (f a) <= 1)%nat) ->
  (List.length (flat_map f l) <= List.length l)%nat.
Proof.
  intros H. induction l as [|a rest IH]; cbn; [lia|].
  rewrite length_app. specialize (H a). lia.
Qed.

(** The argument of mirrorTrade is built from the record. *)
Lemma logTrade_argument t td :
  logTrade t = inr td ->
  td = mkTradeData (JStr (asset t)) (side t) (size t) (price t).
Proof.
  unfold logTrade, andThen. intros H.
  repeat match type of H with
         | match ?x with _ => _ end = _ => destruct x; [discriminate|]
         end.
  now injection H.
Qed.

(** What logTrade hands to mirrorTrade it has printed before: every field
    has a text, and the call of mirrorTrade, which nothing awaits, is never
    rejected. *)
Lemma logTrade_printable t td :
  logTrade t = inr td -> MirrorSpec.printable td = true.
Proof.
  intros H. pose proof (logTrade_argument _ _ H) as ->.
  unfold MirrorSpec.printable.
  cbn [Clob.asset Clob.side Clob.size Clob.price renderable andb].
  unfold logTrade, andThen in H.
  destruct (Format.formatTimestamp (timestamp t)); [discriminate|].
  destruct (interpolate (title t)); [discriminate|].
  destruct (interpolate (outcome t)); [discriminate|].
  unfold interpolate, Format.formatPrice, Format.formatSize, parseFloat, andThen in H.
  destruct (renderable (side t)); [|discriminate].
  destruct (renderable (price t)); [|discriminate].
  destruct (renderable (size t)); [|discriminate]. reflexivity.
Qed.

Lemma mirror_calls_return client c td :
  In td (mirrorCalls c) -> exists v, snd (Mirror.mirrorTrade client td) = inr v.
Proof.
  unfold mirrorCalls. intros H. apply in_flat_map in H. destruct H as [t [_ Ht]].
  unfold mirrorArgument in Ht.
  destruct (logTrade t) as [e|td'] eqn:E; [destruct Ht|].
  destruct Ht as [<- | []].
  destruct (MirrorExtras.validating_returns client td' (logTrade_printable _ _ E))
    as [v [Hv _]].
  now exists v.
Qed.

(** X13: every order that a poll cycle submits through the mirrorTrade of
    lines 101-163 stems from a record of the response that has type TRADE, a
    timestamp of at least lastTimestamp - 5 and an id that seenTrades did not
    hold when the cycle began; the order's tokenID is that record's asset,
    its side is BUY exactly when the record's side is the string 'BUY', and
    its price and size are what parseFloat reads in the record's,
    normalised; a cycle submits at most one order per record handed to
    logTrade. *)
Theorem X13_orders_stem_from_fresh_trades (client : option ClobClient)
    (st : PollState) (activity : list ActivityRecord) :
  let c := pollCycle st (HttpOk activity) in
  (List.length (cycleOrders client c) <= List.length (logged (outcomes c)))%nat /\
  (forall o, In o (cycleOrders client c) ->
     exists t,
       In t activity /\ type t = "TRADE"%string /\
       lastTimestamp st - 5 <= timestamp t /\
       ~ In (tradeId t) (seenTrades st) /\
       OrderParams.tokenID o = JStr (asset t) /\
       (OrderParams.side o = BUY <-> side t = JStr "BUY") /\
       OrderParams.price o = Mirror.roundPrice (parseFloatValue (price t)) /\
       OrderParams.size o = Mirror.roundSize (parseFloatValue (size t))).
Proof.
  cbv zeta. unfold cycleOrders, mirrorCalls. split.
  - etransitivity; [apply flat_map_length_le; intros td; apply submitted_at_most_one|].
    apply flat_map_length_le. intros t. apply PollerProofs.mirrorArgument_at_most_one.
  - intros o Ho. apply in_flat_map in Ho. destruct Ho as [td [Htd Ho]].
    apply in_flat_map in Htd. destruct Htd as [t [Ht Htd]].
    unfold mirrorArgument in Htd.
    destruct (logTrade t) as [e|td'] eqn:Elog; [destruct Htd|].
    destruct Htd as [<- | []].
    apply logTrade_argument in Elog. subst td'.
    apply MirrorProofs.submitted_is_built in Ho. destruct Ho as [-> _].
    rewrite PollerProofs.pollCycle_outcomes in Ht.
    apply PollerProofs.logged_sound in Ht. destruct Ht as [Hin [Hfresh Hnew]].
    apply (proj1 (PollerProofs.sortTrades_In _ _)) in Hin.
    cbn [fetchTargetActivity] in Hin.
    apply (proj1 (filter_In _ _ _)) in Hin. destruct Hin as [Hin Htype].
    exists t. split; [exact Hin|]. split; [now apply String.eqb_eq|].
    split; [exact Hfresh|]. split; [exact Hnew|].
    unfold MirrorSpec.builtParams.
    cbn [OrderParams.tokenID OrderParams.side OrderParams.price OrderParams.size
         Clob.asset Clob.side Clob.size Clob.price].
    split; [reflexivity|]. split; [|split; reflexivity].
    destruct (side t) as [| | b | n | s | items | f]; cbn;
      try (split; discriminate).
    destruct (String.eqb_spec s "BUY") as [->|N]; split; try tauto; try discriminate.
    intros E. injection E as E. contradiction.
Qed.

Lemma X13_orders_stem_from_fresh_trades_witness :
  let st := mkPollState [] 100 in
  let activity := [sampleTrade 7 101] in
  exists t,
    In t activity /\ type t = "TRADE"%string /\
    lastTimestamp st - 5 <= timestamp t /\
    ~ In (tradeId t) (seenTrades st) /\
    JStr "123" = JStr (asset t) /\
    (BUY = BUY <-> side t = JStr "BUY") /\
    MirrorSpec.ticks 500 = Mirror.roundPrice (parseFloatValue (price t)) /\
    MirrorSpec.cents 500 = Mirror.roundSize (parseFloatValue (size t)).
Proof.
  cbv zeta.
  refine (proj2 (X13_orders_stem_from_fresh_trades (Some Samples.acceptingClient)
                   (mkPollState [] 100) [sampleTrade 7 101])
            (OrderParams.mk (JStr "123") BUY (MirrorSpec.cents 500)
               (MirrorSpec.ticks 500) (Some 0)) _).
  vm_compute. now left.
Defined.

(** ** The dedup key *)

Lemma hyphenFree_split (h1 h2 a1 a2 : string) :
  hyphenFree h1 = true -> hyphenFree h2 = true ->
  (h1 ++ "-" ++ a1 = h2 ++ "-" ++ a2)%string -> h1 = h2 /\ a1 = a2.
Proof.
  revert h2. induction h1 as [|c h1 IH]; intros [|c' h2] H1 H2 E; cbn in *.
  - injection E as E. now split.
  - injection E as <- E. cbn in H2. discriminate.
  - injection E as -> E. cbn in H1. discriminate.
  - injection E as -> E.
    apply andb_prop in H1, H2. destruct H1 as [_ H1], H2 as [_ H2].
    destruct (IH h2 H1 H2 E) as [-> ->]. now split.
Qed.

(** X14: the dedup key transactionHash-asset determines the pair it was
    built from whenever the transaction hashes contain no hyphen (as the
    0x-prefixed hexadecimal hashes of the feed do): two records with the same
    key then have the same transaction hash and the same asset, so the
    has-check never confuses two different (hash, asset) pairs. *)
Theorem X14_tradeId_determines_hash_and_asset (t1 t2 : ActivityRecord) :
  hyphenFree (transactionHash t1) = true ->
  hyphenFree (transactionHash t2) = true ->
  tradeId t1 = tradeId t2 ->
  transactionHash t1 = transactionHash t2 /\ asset t1 = asset t2.
Proof. unfold tradeId. apply hyphenFree_split. Qed.

Lemma X14_tradeId_determines_hash_and_asset_witness :
  transactionHash (sampleTrade 7 101) = transactionHash (sampleTrade 7 130) /\
  asset (sampleTrade 7 101) = asset (sampleTrade 7 130).
Proof.
  refine (X14_tradeId_determines_hash_and_asset
            (sampleTrade 7 101) (sampleTrade 7 130) _ _ _); reflexivity.
Defined.

(** Without that proviso the key is ambiguous: the hyphen of the separator
    can be taken for a hyphen of the hash or of the asset. *)
Example tradeId_collision_with_hyphens :
  tradeId (mkActivityRecord 0 "TRADE" JUndefined JUndefined JUndefined "c" "a-b"
             JUndefined JUndefined JUndefined JUndefined JUndefined JUndefined
             JUndefined) =
  tradeId (mkActivityRecord 0 "TRADE" JUndefined JUndefined JUndefined "b-c" "a"
             JUndefined JUndefined JUndefined JUndefined JUndefined JUndefined
             JUndefined).
Proof. reflexivity. Qed.


(** ** At most once over a whole run *)

Lemma countId_app id l1 l2 :
  countId id (l1 ++ l2) = (countId id l1 + countId id l2)%nat.
Proof. unfold countId. now rewrite filter_app, length_app. Qed.

Lemma cycle_logs_at_most_once st r id :
  (countId id (logged (outcomes (pollCycle st r))) <= 1)%nat /\
  (In id (seenTrades st) ->
     countId id (logged (outcomes (pollCycle st r))) = 0%nat) /\
  (In id (seenTrades st) \/
   (0 < countId id (logged (outcomes (pollCycle st r))))%nat ->
     In id (seenTrades (afterLoop (pollCycle st r)))).
Proof.
  rewrite PollerProofs.pollCycle_outcomes, PollerProofs.pollCycle_loopEnd.
  set (wm := lastTimestamp st). set (trades := sortTrades (fetchTargetActivity r)).
  pose proof (PollerProofs.countId_logged_le_inserted id
                (loopOutcomes (forLoop wm trades (seenTrades st)))) as Hle.
  pose proof (PollerProofs.inserted_at_most_once wm trades (seenTrades st) id) as Hone.
  split; [lia|]. split.
  - intros Hin.
    rewrite (PollerProofs.inserted_none_if_seen wm trades _ _ Hin) in Hle. lia.
  - intros [Hin | Hpos]; [now apply PollerProofs.forLoop_keeps|].
    apply PollerProofs.countId_positive in Hpos. destruct Hpos as [t [Ht E]].
    apply PollerProofs.logged_incl_inserted in Ht.
    rewrite PollerProofs.forLoop_ledger. apply in_or_app. right.
    rewrite <- E. now apply in_map.
Qed.

(** X26: over a run in which no cycle reaches the compaction threshold,
    every trade id is handed to logTrade, and so to mirrorTrade, at most once
    in the whole run, however often and with whatever timestamps the feed
    returns it; an id that the set holds at the start is never handed over. *)
Theorem X26_at_most_once_per_run (st : PollState) (responses : list FetchResponse)
    (id : string) :
  neverCompacts st responses ->
  (countId id (runLogged st responses) <= 1)%nat /\
  (In id (seenTrades st) -> countId id (runLogged st responses) = 0%nat).
Proof.
  unfold neverCompacts, runLogged. revert st.
  induction responses as [|r rest IH]; intros st Hnc; [cbn; split; [lia | reflexivity]|].
  cbn [runPolls flat_map] in *. rewrite countId_app.
  set (c := pollCycle st r) in *.
  destruct (cycle_logs_at_most_once st r id) as [H1 [H2 H3]]. fold c in H1, H2, H3.
  destruct (thrown c) eqn:Ec.
  { cbn [flat_map]. change (countId id []) with 0%nat. rewrite Nat.add_0_r.
    split; [exact H1 | exact H2]. }
  assert (Hc : JSSet.size (seenTrades (afterLoop c)) <= 10000)
    by (apply Hnc; now left).
  assert (Hafter : seenTrades (after c) = seenTrades (afterLoop c)).
  { unfold c. rewrite pollCycle_after_seen. fold c. rewrite Ec.
    now apply compact_small. }
  destruct (IH (after c)) as [IH1 IH2];
    [intros c' Hc'; apply Hnc; now right|].
  split.
  - destruct (Nat.eq_dec (countId id (logged (outcomes c))) 0) as [Hz|Hnz]; [lia|].
    rewrite IH2; [lia|]. rewrite Hafter. apply H3. right. lia.
  - intros Hin. rewrite (H2 Hin). rewrite IH2; [reflexivity|].
    rewrite Hafter. apply H3. now left.
Qed.

Lemma X26_at_most_once_per_run_witness :
  let responses := [HttpOk [sampleTrade 7 101; sampleTrade 8 120];
                    HttpOk [sampleTrade 7 125; sampleTrade 8 120; sampleTrade 9 121]] in
  (countId (tradeId (sampleTrade 7 101)) (runLogged (mkPollState [] 100) responses)
     <= 1)%nat.
Proof.
  cbv zeta.
  refine (proj1 (X26_at_most_once_per_run (mkPollState [] 100) _ _ _)).
  intros c Hc. cbn [runPolls In] in Hc.
  destruct Hc as [<- | [<- | []]]; vm_compute; discriminate.
Defined.

End PollerExtras.

(* ===================================================================== *)
(** * Further properties of the event handler                             *)
(* ===================================================================== *)

Module ListenerExtras.
Import WebsocketListener ListenerFlow.

Ltac role_cases trade :=
  unfold determineTradeType, outcomeTokenId, targetIsMaker, targetIsTaker,
    sameAddress, ZERO_ASSET in *;
  destruct (String.eqb_spec (toLowerCase (maker trade)) (toLowerCase TARGET_ADDRESS));
  destruct (String.eqb_spec (toLowerCase (taker trade)) (toLowerCase TARGET_ADDRESS));
  destruct (String.eqb_spec (makerAssetId trade) "0");
  destruct (String.eqb_spec (takerAssetId trade) "0");
  cbn [negb].

(** X15: determineTradeType answers UNKNOWN exactly when the target is
    neither the maker nor the taker of the fill; for a fill in which the
    target is a party (all that the four filtered subscriptions deliver) the
    answer is BUY or SELL, whatever the asset ids are. *)
Theorem X15_unknown_iff_target_is_no_party (trade : RawFillEvent) :
  (determineTradeType trade = UNKNOWN <->
     ~ targetIsMaker trade /\ ~ targetIsTaker trade) /\
  (targetIsMaker trade \/ targetIsTaker trade ->
     determineTradeType trade = BUY \/ determineTradeType trade = SELL).
Proof.
  role_cases trade; split; try split; intros; try tauto; try discriminate;
    try (destruct H; tauto); auto.
Qed.

Lemma X15_unknown_iff_target_is_no_party_witness :
  determineTradeType (fill checksummedTarget "0x01" "5" "7") = BUY \/
  determineTradeType (fill checksummedTarget "0x01" "5" "7") = SELL.
Proof.
  refine (proj2 (X15_unknown_iff_target_is_no_party _) _).
  left. reflexivity.
Defined.

(** X16: for a fill with exactly one sentinel leg in which the target is a
    party, the side does not depend on the target's role: it is BUY when
    makerAssetId is '0' and SELL when takerAssetId is '0', for the maker and
    for the taker alike; and the token id shown is the other, non-sentinel
    leg. *)
Theorem X16_side_follows_the_sentinel_leg (trade : RawFillEvent) :
  oneSentinelLeg trade ->
  targetIsMaker trade \/ targetIsTaker trade ->
  (makerAssetId trade = ZERO_ASSET ->
     determineTradeType trade = BUY /\ outcomeTokenId trade = takerAssetId trade) /\
  (takerAssetId trade = ZERO_ASSET ->
     determineTradeType trade = SELL /\ outcomeTokenId trade = makerAssetId trade) /\
  outcomeTokenId trade <> ZERO_ASSET.
Proof.
  unfold oneSentinelLeg. intros Hone Hparty.
  role_cases trade; repeat split; intros; try tauto; try congruence.
Qed.

Lemma X16_side_follows_the_sentinel_leg_witness :
  (determineTradeType (fill TARGET_ADDRESS "0x01" "0" "7") = BUY /\
   outcomeTokenId (fill TARGET_ADDRESS "0x01" "0" "7") = "7") /\
  (determineTradeType (fill "0x01" TARGET_ADDRESS "0" "7") = BUY /\
   outcomeTokenId (fill "0x01" TARGET_ADDRESS "0" "7") = "7").
Proof.
  split.
  - refine (proj1 (X16_side_follows_the_sentinel_leg
                     (fill TARGET_ADDRESS "0x01" "0" "7") _ _) _).
    + left. split; [reflexivity | vm_compute; discriminate].
    + left. reflexivity.
    + reflexivity.
  - refine (proj1 (X16_side_follows_the_sentinel_leg
                     (fill "0x01" TARGET_ADDRESS "0" "7") _ _) _).
    + left. split; [reflexivity | vm_compute; discriminate].
    + right. reflexivity.
    + reflexivity.
Defined.

(** X17: the token id that the handler shows is always one of the two asset
    ids of the fill, and it is the sentinel '0' only when both asset ids are
    '0'. *)
Theorem X17_token_id_is_a_leg (trade : RawFillEvent) :
  (outcomeTokenId trade = makerAssetId trade \/
   outcomeTokenId trade = takerAssetId trade) /\
  (outcomeTokenId trade = ZERO_ASSET <->
     makerAssetId trade = ZERO_ASSET /\ takerAssetId trade = ZERO_ASSET).
Proof.
  role_cases trade; repeat split; intros; try tauto; try congruence;
    try (destruct H; congruence).
Qed.


(** ** Events as the provider delivers them *)

Lemma bigNumberToString_inj (a b : N) :
  bigNumberToString a = bigNumberToString b -> a = b.
Proof.
  unfold bigNumberToString. intros H.
  apply DecimalN.Unsigned.to_uint_inj.
  assert (E : Some (N.to_uint a) = Some (N.to_uint b))
    by (rewrite <- !NilEmpty.usu; now rewrite H).
  now injection E.
Qed.

Lemma bigNumberToString_zero (n : N) :
  bigNumberToString n = ZERO_ASSET <-> n = 0%N.
Proof.
  split.
  - intros H. apply bigNumberToString_inj. exact H.
  - intros ->. reflexivity.
Qed.

(** X18: on an event as the provider delivers it, with uint256 asset ids,
    the handler's string test against '0' is a test for the number zero:
    with the target as maker the reported type is BUY exactly when
    makerAssetId is 0 and SELL otherwise; with the target as taker only, it
    is SELL exactly when takerAssetId is 0 and BUY otherwise; the marker is
    green for BUY, red for SELL and white for UNKNOWN; and the address
    comparison accepts the target in any capitalisation. *)
Theorem X18_handler_tests_numeric_zero (ev : OrderFilledArgs) :
  let report := handleOrderFilled ev in
  (sameAddress (argMaker ev) TARGET_ADDRESS ->
     (reportType report = BUY <-> argMakerAssetId ev = 0%N) /\
     (reportType report = SELL <-> argMakerAssetId ev <> 0%N)) /\
  (~ sameAddress (argMaker ev) TARGET_ADDRESS ->
   sameAddress (argTaker ev) TARGET_ADDRESS ->
     (reportType report = SELL <-> argTakerAssetId ev = 0%N) /\
     (reportType report = BUY <-> argTakerAssetId ev <> 0%N)) /\
  (reportEmoji report = Green <-> reportType report = BUY) /\
  (reportEmoji report = Red <-> reportType report = SELL) /\
  (reportEmoji report = White <-> reportType report = UNKNOWN).
Proof.
  cbv zeta. unfold handleOrderFilled, logTrade. cbn [reportType reportEmoji].
  pose proof (bigNumberToString_zero (argMakerAssetId ev)) as Hm.
  pose proof (bigNumberToString_zero (argTakerAssetId ev)) as Ht.
  unfold determineTradeType, sameAddress, ZERO_ASSET in *.
  cbn [tradeOf maker taker makerAssetId takerAssetId].
  destruct (String.eqb_spec (toLowerCase (argMaker ev)) (toLowerCase TARGET_ADDRESS));
  destruct (String.eqb_spec (toLowerCase (argTaker ev)) (toLowerCase TARGET_ADDRESS));
  destruct (String.eqb_spec (bigNumberToString (argMakerAssetId ev)) "0");
  destruct (String.eqb_spec (bigNumberToString (argTakerAssetId ev)) "0");
  repeat split; intros; try tauto; try discriminate;
    try (exfalso; tauto).
Qed.

Lemma X18_handler_tests_numeric_zero_witness :
  let ev := sampleEvent checksummedTarget "0x01" 0
              21742633143463906290569050155826241533067272736897614950488156847949938836455 in
  (reportType (handleOrderFilled ev) = BUY <-> argMakerAssetId ev = 0%N) /\
  (reportType (handleOrderFilled ev) = SELL <-> argMakerAssetId ev <> 0%N).
Proof.
  cbv zeta.
  refine (proj1 (X18_handler_tests_numeric_zero _) _).
  reflexivity.
Defined.

(** A real fill: the target buys with currency as maker. *)
Example handler_on_checksummed_maker :
  let report := handleOrderFilled (sampleEvent checksummedTarget "0x01" 0 77) in
  reportType report = BUY /\ reportEmoji report = Green /\
  reportTokenId report = "77".
Proof. repeat split. Qed.

End ListenerExtras.

(* ===================================================================== *)
(** * Properties of getOutcomeFromTokenId                                 *)
(* ===================================================================== *)

Module ResolverProofs.
Import JS OutcomeResolver.

Example resolver_samples :
  getOutcomeFromTokenId directNet [] "42"
    = mkResolution [TokenInfo "42"] (JsString "Yes") [("42", JsString "Yes")] /\
  getOutcomeFromTokenId (marketNet "42") [] "42"
    = mkResolution [TokenInfo "42"; MarketDetail (JsString "m1")]
        (JsString "No") [("42", JsString "No")] /\
  getOutcomeFromTokenId emptyNet [] "42"
    = mkResolution [TokenInfo "42"; OrderBook "42"] JsNull [] /\
  getOutcomeFromTokenId downNet [] "42"
    = mkResolution [TokenInfo "42"] JsNull [].
Proof. repeat split. Qed.

(** A market reference without a string form: the address of the market
    request cannot be built, the call makes no further request and returns
    null. *)
Example unrenderable_market_reference :
  let env := mkEnv (fun _ => jsonOk (JsObject
                      [("marketId", JsObject [("toString", JsNumber (Fin 1))])]))
                   (fun _ => None) in
  getOutcomeFromTokenId env [] "42" = mkResolution [TokenInfo "42"] JsNull [].
Proof. reflexivity. Qed.

(** ** The cache *)

Lemma cacheHas_set cache k v k' :
  cacheHas (cacheSet cache k v) k' = cacheHas cache k' || String.eqb k k'.
Proof.
  unfold cacheHas. induction cache as [|[k0 v0] rest IH]; cbn.
  - now rewrite orb_false_r.
  - destruct (String.eqb_spec k0 k) as [->|N]; cbn.
    + destruct (String.eqb k k'); cbn; [reflexivity|].
      now rewrite orb_false_r.
    + rewrite IH. now rewrite orb_assoc.
Qed.

Lemma cacheGet_set_same cache k v : cacheGet (cacheSet cache k v) k = v.
Proof.
  unfold cacheGet. induction cache as [|[k0 v0] rest IH]; cbn.
  - now rewrite String.eqb_refl.
  - destruct (String.eqb_spec k0 k) as [->|N]; cbn.
    + now rewrite String.eqb_refl.
    + rewrite (proj2 (String.eqb_neq _ _) N). exact IH.
Qed.

Lemma cacheGet_set_other cache k v k' :
  k <> k' -> cacheGet (cacheSet cache k v) k' = cacheGet cache k'.
Proof.
  intros Hne. unfold cacheGet. induction cache as [|[k0 v0] rest IH]; cbn.
  - now rewrite (proj2 (String.eqb_neq _ _) Hne).
  - destruct (String.eqb_spec k0 k) as [->|N]; cbn.
    + now rewrite (proj2 (String.eqb_neq _ _) Hne).
    + destruct (String.eqb k0 k'); [reflexivity | exact IH].
Qed.

Lemma cacheSet_In cache k v k' v' :
  In (k', v') (cacheSet cache k v) -> In (k', v') cache \/ (k', v') = (k, v).
Proof.
  induction cache as [|[k0 v0] rest IH]; cbn.
  - intros [E | []]. right. now symmetry.
  - destruct (String.eqb_spec k0 k) as [->|N]; cbn.
    + intros [E | H]; [right; now symmetry | left; now right].
    + intros [E | H]; [left; now left|].
      destruct (IH H) as [H' | H']; [left; now right | now right].
Qed.

(** ** The shape of a run *)

Lemma bind_requests {A B} (m : R A) (k : A -> R B) :
  fst (bind m k) =
  (fst m ++ match snd m with Goes a => fst (k a) | _ => [] end)%list.
Proof.
  destruct m as [reqs [e|o|a]]; cbn; try now rewrite app_nil_r.
  now destruct (k a).
Qed.

Lemma bind_step {A B} (m : R A) (k : A -> R B) :
  snd (bind m k) =
  match snd m with
  | Throws e => Throws e
  | Found o => Found o
  | Goes a => snd (k a)
  end.
Proof. destruct m as [reqs [e|o|a]]; cbn; try reflexivity. now destruct (k a). Qed.

Lemma lift_silent {A} (r : JSError + A) : silent (lift r) /\ foundTruthy (lift r).
Proof. destruct r; split; try reflexivity; intros x H; discriminate H. Qed.

Lemma ret_silent {A} (a : A) : silent (ret a) /\ foundTruthy (ret a).
Proof. split; [reflexivity | intros x H; discriminate H]. Qed.

Lemma returnIfTruthy_silent x :
  silent (returnIfTruthy x) /\ foundTruthy (returnIfTruthy x).
Proof.
  unfold returnIfTruthy. destruct (truthy x) eqn:E; split; try reflexivity.
  - intros y H. cbn in H. now injection H as <-.
  - intros y H. discriminate H.
Qed.

Lemma bind_silent {A B} (m : R A) (k : A -> R B) :
  silent m /\ foundTruthy m ->
  (forall a, silent (k a) /\ foundTruthy (k a)) ->
  silent (bind m k) /\ foundTruthy (bind m k).
Proof.
  intros [Hs Hf] Hk. unfold silent, foundTruthy in *.
  rewrite bind_requests, Hs. split.
  - destruct (snd m); try reflexivity. apply Hk.
  - intros x. rewrite bind_step. destruct (snd m) as [e|o|a] eqn:E.
    + discriminate.
    + intros H. injection H as <-. now apply Hf.
    + apply Hk.
Qed.

Ltac silent_steps :=
  repeat first
    [ apply bind_silent; [|intros ?]
    | apply lift_silent
    | apply ret_silent
    | apply returnIfTruthy_silent
    | match goal with |- context [if ?b then _ else _] => destruct b end ].

Lemma fetch_shape env req :
  fst (fetch env req) = [req] /\ foundTruthy (fetch env req).
Proof.
  unfold fetch, foundTruthy. destruct (net env req); cbn; split;
    try reflexivity; intros x H; discriminate H.
Qed.

Lemma after_fetch {A} env req (k : bool * (JSError + Json) -> R A) :
  (forall a, silent (k a) /\ foundTruthy (k a)) ->
  fst (bind (fetch env req) k) = [req] /\ foundTruthy (bind (fetch env req) k).
Proof.
  intros Hk. destruct (fetch_shape env req) as [Hf Ht].
  unfold foundTruthy. rewrite bind_requests, Hf. split.
  - destruct (snd (fetch env req)); try reflexivity.
    destruct (Hk a) as [Hs _]. unfold silent in Hs. now rewrite Hs.
  - intros x. rewrite bind_step. destruct (snd (fetch env req)) as [e|o|a] eqn:E.
    + discriminate.
    + intros H. injection H as <-. now apply Ht.
    + apply Hk.
Qed.

Lemma bind_lift_ok {A B} (a : A) (k : A -> R B) : bind (lift (inr a)) k = k a.
Proof. unfold bind, lift. now destruct (k a). Qed.

(** The market stage asks the market endpoint once, unless the market id
    has no string form: then the address cannot be built, and the stage
    throws without a request. *)
Lemma marketStage_shape env tokenId marketId :
  fst (marketStage env tokenId marketId) =
    (if renderable marketId then [MarketDetail marketId] else []) /\
  foundTruthy (marketStage env tokenId marketId).
Proof.
  unfold marketStage, interpolate. destruct (renderable marketId).
  - rewrite bind_lift_ok. apply after_fetch. intros a. silent_steps.
  - split; [reflexivity | intros x H; discriminate H].
Qed.

Lemma bookStage_shape env tokenId :
  fst (bookStage env tokenId) = [OrderBook tokenId] /\
  foundTruthy (bookStage env tokenId).
Proof. unfold bookStage. apply after_fetch. intros a. silent_steps. Qed.


Lemma tokenStage_shape env tokenId :
  fst (tokenStage env tokenId) = TokenInfo tokenId :: marketRequest env tokenId /\
  foundTruthy (tokenStage env tokenId).
Proof.
  unfold tokenStage, marketRequest, fetch, foundTruthy.
  destruct (net env (TokenInfo tokenId)) as [e|ok body]; cbn.
  - split; [reflexivity | intros x H; discriminate H].
  - destruct ok; cbn; [|split; [reflexivity | intros x H; discriminate H]].
    destruct body as [e|tokenData]; cbn;
      [split; [reflexivity | intros x H; discriminate H]|].
    unfold returnIfTruthy.
    destruct (truthy (optProp tokenData "outcome")) eqn:Eo; cbn.
    + split; [reflexivity|]. intros x H. now injection H as <-.
    + destruct (truthy (optProp tokenData "marketId")) eqn:Em.
      * destruct (marketStage_shape env tokenId (optProp tokenData "marketId"))
          as [Hreq Hfound].
        destruct (marketStage env tokenId (optProp tokenData "marketId"))
          as [reqs step] eqn:E.
        cbn [fst] in Hreq. subst reqs. cbn [andb].
        destruct (renderable (optProp tokenData "marketId")); cbn;
          (split; [reflexivity|]); intros x Hx; apply Hfound; exact Hx.
      * cbn. split; [reflexivity | intros x H; discriminate H].
Qed.

Lemma tryBlock_shape env tokenId :
  fst (tryBlock env tokenId) =
    (TokenInfo tokenId :: marketRequest env tokenId ++
     match snd (tokenStage env tokenId) with
     | Goes _ => [OrderBook tokenId]
     | _ => []
     end)%list /\
  foundTruthy (tryBlock env tokenId).
Proof.
  unfold tryBlock. destruct (tokenStage_shape env tokenId) as [Hreq Hfound].
  destruct (bookStage_shape env tokenId) as [Hb Hbf].
  unfold foundTruthy in *. rewrite bind_requests, Hreq. split.
  - cbn. f_equal. f_equal. destruct (snd (tokenStage env tokenId)); try reflexivity.
    exact Hb.
  - intros x. rewrite bind_step.
    destruct (snd (tokenStage env tokenId)) as [e|o|a] eqn:E.
    + discriminate.
    + intros H. injection H as <-. now apply Hfound.
    + apply Hbf.
Qed.

(** The three ways a call can end. *)
Lemma resolution_cases env cache tokenId :
  let r := getOutcomeFromTokenId env cache tokenId in
  (cacheHas cache tokenId = true /\
   r = mkResolution [] (cacheGet cache tokenId) cache) \/
  (cacheHas cache tokenId = false /\
   exists x, truthy x = true /\ snd (tryBlock env tokenId) = Found x /\
     r = mkResolution (fst (tryBlock env tokenId)) x (cacheSet cache tokenId x)) \/
  (cacheHas cache tokenId = false /\
   (forall x, snd (tryBlock env tokenId) <> Found x) /\
   r = mkResolution (fst (tryBlock env tokenId)) JsNull cache).
Proof.
  cbv zeta. unfold getOutcomeFromTokenId.
  destruct (cacheHas cache tokenId); [left; now split | right].
  destruct (tryBlock_shape env tokenId) as [_ Hfound].
  destruct (tryBlock env tokenId) as [reqs [e|x|a]] eqn:E; cbn [fst snd].
  - right. split; [reflexivity|]. split; [discriminate | reflexivity].
  - left. split; [reflexivity|]. exists x. split; [now apply Hfound|]. now split.
  - right. split; [reflexivity|]. split; [discriminate | reflexivity].
Qed.

Lemma truthy_not_null x : truthy x = true -> x <> JsNull.
Proof. intros H ->. discriminate H. Qed.

(** X19: a label, once found, is remembered: after a call that returned a
    label (anything but null), every later call for the same token id, made
    on the cache that call left, returns the same label without a single
    request, whatever the network would answer. *)
Theorem X19_found_label_is_remembered (env env' : Env) (cache : Cache)
    (tokenId : string) :
  let r := getOutcomeFromTokenId env cache tokenId in
  outcome r <> JsNull ->
  getOutcomeFromTokenId env' (cacheAfter r) tokenId =
  mkResolution [] (outcome r) (cacheAfter r).
Proof.
  cbv zeta. intros Hnn.
  destruct (resolution_cases env cache tokenId)
    as [[Hhit E] | [[Hmiss [x [Hx [_ E]]]] | [Hmiss [_ E]]]];
    cbv zeta in E; rewrite E in *; cbn [outcome cacheAfter requests] in *.
  - unfold getOutcomeFromTokenId. now rewrite Hhit.
  - unfold getOutcomeFromTokenId.
    rewrite cacheHas_set, String.eqb_refl, orb_true_r.
    now rewrite cacheGet_set_same.
  - now contradiction Hnn.
Qed.

Lemma X19_found_label_is_remembered_witness :
  getOutcomeFromTokenId downNet
    (cacheAfter (getOutcomeFromTokenId (marketNet "42") [] "42")) "42" =
  mkResolution [] (JsString "No") [("42", JsString "No")].
Proof.
  refine (X19_found_label_is_remembered (marketNet "42") downNet [] "42" _).
  vm_compute. discriminate.
Defined.

(** X20: a miss is not cached: when a call for a token id that the cache does
    not hold returns null, the cache is left exactly as it was, and the next
    call for that id queries the token endpoint again. *)
Theorem X20_miss_is_not_cached (env env' : Env) (cache : Cache) (tokenId : string) :
  let r := getOutcomeFromTokenId env cache tokenId in
  cacheHas cache tokenId = false ->
  outcome r = JsNull ->
  cacheAfter r = cache /\
  hd_error (requests (getOutcomeFromTokenId env' (cacheAfter r) tokenId))
    = Some (TokenInfo tokenId).
Proof.
  cbv zeta. intros Hmiss Hnull.
  assert (Hfirst : forall e, hd_error (requests (getOutcomeFromTokenId e cache tokenId))
                             = Some (TokenInfo tokenId)).
  { intros e. unfold getOutcomeFromTokenId. rewrite Hmiss.
    destruct (tryBlock_shape e tokenId) as [Hreq _].
    destruct (tryBlock e tokenId) as [reqs [err|x|a]]; cbn [fst] in Hreq;
      subst reqs; reflexivity. }
  destruct (resolution_cases env cache tokenId)
    as [[Hhit E] | [[_ [x [Hx [_ E]]]] | [_ [_ E]]]];
    cbv zeta in E; rewrite E in *; cbn [outcome cacheAfter requests] in *.
  - congruence.
  - subst x. discriminate Hx.
  - split; [reflexivity | apply Hfirst].
Qed.

Lemma X20_miss_is_not_cached_witness :
  cacheAfter (getOutcomeFromTokenId emptyNet [] "42") = [] /\
  hd_error (requests (getOutcomeFromTokenId directNet
              (cacheAfter (getOutcomeFromTokenId emptyNet [] "42")) "42"))
    = Some (TokenInfo "42").
Proof.
  refine (X20_miss_is_not_cached emptyNet directNet [] "42" _ _); reflexivity.
Defined.

(** X21: the requests of one call: none on a cache hit; on a miss the token
    lookup comes first and once, the market lookup follows only when the
    token data has no label but a market reference (one with a string form,
    for the address of the request), and the order-book lookup comes last
    and only when the earlier stages neither found a label nor threw; no
    endpoint is asked twice, so a call makes at most three requests. *)
Theorem X21_request_discipline (env : Env) (cache : Cache) (tokenId : string) :
  let r := getOutcomeFromTokenId env cache tokenId in
  (cacheHas cache tokenId = true -> requests r = []) /\
  (cacheHas cache tokenId = false ->
     requests r =
       (TokenInfo tokenId :: marketRequest env tokenId ++
        match snd (tokenStage env tokenId) with
        | Goes _ => [OrderBook tokenId]
        | _ => []
        end)%list) /\
  (List.length (requests r) <= 3)%nat /\
  NoDup (requests r).
Proof.
  cbv zeta.
  assert (Hshape : cacheHas cache tokenId = false ->
     requests (getOutcomeFromTokenId env cache tokenId) =
       (TokenInfo tokenId :: marketRequest env tokenId ++
        match snd (tokenStage env tokenId) with
        | Goes _ => [OrderBook tokenId]
        | _ => []
        end)%list).
  { intros Hmiss. unfold getOutcomeFromTokenId. rewrite Hmiss.
    destruct (tryBlock_shape env tokenId) as [Hreq _].
    destruct (tryBlock env tokenId) as [reqs [err|x|a]]; cbn [fst] in Hreq;
      subst reqs; reflexivity. }
  split; [|split; [exact Hshape|]].
  - intros Hhit. unfold getOutcomeFromTokenId. now rewrite Hhit.
  - destruct (cacheHas cache tokenId) eqn:Hc.
    + unfold getOutcomeFromTokenId. rewrite Hc. cbn. split; [lia | constructor].
    + rewrite (Hshape eq_refl). unfold marketRequest.
      destruct (net env (TokenInfo tokenId)) as [e|[|] [e|tokenData]];
        destruct (snd (tokenStage env tokenId));
        try (cbn; split; [lia | repeat constructor; cbn; intuition discriminate]).
      all: destruct (truthy (optProp tokenData "outcome"));
        try destruct (truthy (optProp tokenData "marketId"));
        try destruct (renderable (optProp tokenData "marketId"));
        cbn; split; try lia; repeat constructor; cbn; intuition discriminate.
Qed.


(** X22: how failures end a call on a cache miss: when the token request is
    rejected by the network, or its body cannot be decoded, the call returns
    null after that single request and the order-book fallback is not tried;
    when the token endpoint answers with a non-ok status the order-book
    lookup is the next and last request; and when that answers non-ok too the
    call returns null.  The cache is unchanged in all these cases. *)
Theorem X22_failures_give_null (env : Env) (cache : Cache) (tokenId : string) :
  cacheHas cache tokenId = false ->
  let r := getOutcomeFromTokenId env cache tokenId in
  (forall e, net env (TokenInfo tokenId) = NetworkError e ->
     r = mkResolution [TokenInfo tokenId] JsNull cache) /\
  (forall e, net env (TokenInfo tokenId) = Response true (inl e) ->
     r = mkResolution [TokenInfo tokenId] JsNull cache) /\
  (forall body, net env (TokenInfo tokenId) = Response false body ->
     requests r = [TokenInfo tokenId; OrderBook tokenId]) /\
  (forall body body',
     net env (TokenInfo tokenId) = Response false body ->
     net env (OrderBook tokenId) = Response false body' ->
     r = mkResolution [TokenInfo tokenId; OrderBook tokenId] JsNull cache) /\
  (forall body e,
     net env (TokenInfo tokenId) = Response false body ->
     net env (OrderBook tokenId) = NetworkError e ->
     r = mkResolution [TokenInfo tokenId; OrderBook tokenId] JsNull cache).
Proof.
  intros Hmiss. cbv zeta.
  unfold getOutcomeFromTokenId, tryBlock, tokenStage, bookStage, fetch.
  rewrite Hmiss.
  split; [|split; [|split; [|split]]].
  - intros e E. rewrite E. reflexivity.
  - intros e E. rewrite E. reflexivity.
  - intros body E. rewrite E. cbn.
    destruct (net env (OrderBook tokenId)) as [e|ok body']; cbn; [reflexivity|].
    destruct ok; cbn; [|reflexivity].
    destruct body' as [e|bookData]; cbn; [reflexivity|].
    destruct (truthy (optProp (optProp bookData "market") "outcomes")
              && isArray (optProp (optProp bookData "market") "outcomes")); cbn;
      [|reflexivity].
    destruct (prop bookData "market") as [e|market]; cbn; [reflexivity|].
    destruct (prop market "tokens") as [e|tokens]; cbn; [reflexivity|].
    destruct (optFind tokenId tokens) as [e|tokenInfo]; cbn; [reflexivity|].
    unfold returnIfTruthy.
    destruct (truthy (optProp tokenInfo "outcome")); reflexivity.
  - intros body body' E E'. rewrite E. cbn. rewrite E'. reflexivity.
  - intros body e E E'. rewrite E. cbn. rewrite E'. reflexivity.
Qed.

Lemma X22_failures_give_null_witness :
  getOutcomeFromTokenId downNet [] "42" = mkResolution [TokenInfo "42"] JsNull [] /\
  getOutcomeFromTokenId emptyNet [] "42"
    = mkResolution [TokenInfo "42"; OrderBook "42"] JsNull [].
Proof.
  split.
  - refine (proj1 (X22_failures_give_null downNet [] "42" eq_refl) _ eq_refl).
  - refine (proj1 (proj2 (proj2 (proj2
              (X22_failures_give_null emptyNet [] "42" eq_refl)))) _ _ eq_refl eq_refl).
Defined.

Lemma cacheHas_entry cache k :
  cacheHas cache k = true -> In (k, cacheGet cache k) cache.
Proof.
  unfold cacheHas, cacheGet. induction cache as [|[k0 v0] rest IH]; cbn;
    [discriminate|].
  destruct (String.eqb_spec k0 k) as [->|N]; cbn; [now left|].
  intros H. right. now apply IH.
Qed.

(** X23: the cache is write-once.  A call never changes or drops an entry
    that the cache holds, and the only key it can add is the token id it was
    asked for; if every cached value is truthy before the call, so it is
    after it, and the call returns null or a truthy label. *)
Theorem X23_cache_is_write_once (env : Env) (cache : Cache) (tokenId : string) :
  let r := getOutcomeFromTokenId env cache tokenId in
  (forall k, cacheHas cache k = true ->
     cacheHas (cacheAfter r) k = true /\
     cacheGet (cacheAfter r) k = cacheGet cache k) /\
  (forall k, cacheHas (cacheAfter r) k = true ->
     cacheHas cache k = true \/ k = tokenId) /\
  (cacheSound cache ->
     cacheSound (cacheAfter r) /\
     (outcome r = JsNull \/ truthy (outcome r) = true)).
Proof.
  cbv zeta.
  destruct (resolution_cases env cache tokenId)
    as [[Hhit E] | [[Hmiss [x [Hx [_ E]]]] | [Hmiss [_ E]]]];
    cbv zeta in E; rewrite E; cbn [outcome cacheAfter requests].
  - split; [intros k Hk; now split|]. split; [intros k Hk; now left|].
    intros Hs. split; [exact Hs|]. right.
    apply (Hs tokenId). now apply cacheHas_entry.
  - split; [|split].
    + intros k Hk. rewrite cacheHas_set, Hk. split; [reflexivity|].
      apply cacheGet_set_other. intros ->. congruence.
    + intros k. rewrite cacheHas_set. intros H.
      apply orb_prop in H. destruct H as [H | H]; [now left|].
      right. symmetry. now apply String.eqb_eq.
    + intros Hs. split; [|now right].
      intros k v Hin. apply cacheSet_In in Hin.
      destruct Hin as [Hin | Heq]; [now apply (Hs k)|].
      injection Heq as _ ->. exact Hx.
  - split; [intros k Hk; now split|]. split; [intros k Hk; now left|].
    intros Hs. split; [exact Hs | now left].
Qed.

Lemma X23_cache_is_write_once_witness :
  let cache := [("7", JsString "Yes")] in
  let r := getOutcomeFromTokenId (marketNet "42") cache "42" in
  cacheHas (cacheAfter r) "7" = true /\
  cacheGet (cacheAfter r) "7" = JsString "Yes".
Proof.
  cbv zeta.
  refine (proj1 (X23_cache_is_write_once (marketNet "42") [("7", JsString "Yes")] "42")
            "7" _).
  reflexivity.
Defined.

End ResolverProofs.

(* ===================================================================== *)
(** * Properties of validateConfig                                        *)
(* ===================================================================== *)

Module ConfigProofs.
Import Config.

Lemma hex_has_no_prefix h : hex64 h -> startsWith0x h = false.
Proof.
  intros [Hlen Hhex]. unfold startsWith0x.
  destruct h as [|c1 [|c2 rest]]; try discriminate Hlen.
  cbn in Hhex. apply andb_prop in Hhex. destruct Hhex as [_ Hhex].
  apply andb_prop in Hhex. destruct Hhex as [H2 _].
  destruct (Ascii.eqb_spec c2 "x") as [->|_]; [discriminate H2|].
  apply andb_false_r.
Qed.

Lemma prefix_slice s : startsWith0x s = true -> s = ("0x" ++ slice2 s)%string.
Proof.
  unfold startsWith0x. destruct s as [|c1 [|c2 rest]]; try discriminate.
  intros H. apply andb_prop in H. destruct H as [H1 H2].
  apply Ascii.eqb_eq in H1, H2. subst. reflexivity.
Qed.

Lemma matches_iff s : matchesKeyPattern s = true <-> hex64 s.
Proof.
  unfold matchesKeyPattern, hex64. rewrite andb_true_iff, Nat.eqb_eq. tauto.
Qed.

(** X24: validateConfig returns exactly when PRIVATE_KEY is sixty-four
    hexadecimal digits, bare or behind the prefix 0x, and FUNDER_ADDRESS is
    set to a non-empty string; in every other case it ends the process with
    exit code 1.  No format is required of FUNDER_ADDRESS, the prefix is
    accepted in lower case only, and nothing may follow the digits. *)
Theorem X24_validateConfig_accepts (PRIVATE_KEY FUNDER_ADDRESS : option string) :
  (validateConfig PRIVATE_KEY FUNDER_ADDRESS = Returns <->
     (exists h, hex64 h /\
        (PRIVATE_KEY = Some h \/ PRIVATE_KEY = Some ("0x" ++ h)%string)) /\
     (exists f, FUNDER_ADDRESS = Some f /\ f <> ""%string)) /\
  (validateConfig PRIVATE_KEY FUNDER_ADDRESS = Returns \/
   exists report, validateConfig PRIVATE_KEY FUNDER_ADDRESS = Exits 1 report).
Proof.
  split.
  - split.
    + unfold validateConfig. intros H.
      destruct PRIVATE_KEY as [key|]; [|discriminate H]. cbn [unset] in H.
      destruct (String.eqb_spec key "") as [->|Hne]; [discriminate H|].
      destruct (matchesKeyPattern (if startsWith0x key then slice2 key else key))
        eqn:Em; [|discriminate H]. cbn [negb] in H.
      apply matches_iff in Em. split.
      * destruct (startsWith0x key) eqn:Ep.
        { exists (slice2 key). split; [exact Em|]. right. f_equal.
          now apply prefix_slice. }
        { exists key. split; [exact Em | now left]. }
      * destruct FUNDER_ADDRESS as [f|]; [|discriminate H]. cbn [unset] in H.
        destruct (String.eqb_spec f "") as [->|Hf]; [discriminate H|].
        exists f. now split.
    + intros [[h [Hh Hkey]] [f [-> Hf]]]. unfold validateConfig.
      assert (Hfunder : unset (Some f) = false)
        by (cbn; now apply String.eqb_neq).
      destruct Hkey as [-> | ->].
      * assert (Hset : unset (Some h) = false).
        { cbn. apply String.eqb_neq. intros ->. destruct Hh as [Hl _]. discriminate Hl. }
        rewrite Hset, (hex_has_no_prefix h Hh), (proj2 (matches_iff h) Hh), Hfunder.
        reflexivity.
      * change (unset (Some ("0x" ++ h)%string)) with false. cbv iota.
        change (startsWith0x ("0x" ++ h)) with true. cbv iota.
        change (slice2 ("0x" ++ h)) with h.
        rewrite (proj2 (matches_iff h) Hh), Hfunder. reflexivity.
  - unfold validateConfig.
    destruct (unset PRIVATE_KEY); [right; now eexists|].
    destruct (negb _); [right; now eexists|].
    destruct (unset FUNDER_ADDRESS); [right; now eexists | now left].
Qed.

Lemma X24_validateConfig_accepts_witness :
  validateConfig (Some ("0x" ++ sampleKey)%string)
    (Some "0xa9456cecF9d6fb545F6408E0e2DbBFA307d7BaE6") = Returns.
Proof.
  refine (proj2 (proj1 (X24_validateConfig_accepts _ _)) _).
  split.
  - exists sampleKey. split; [split; reflexivity | now right].
  - eexists. split; [reflexivity | discriminate].
Defined.

Example validateConfig_rejections :
  validateConfig None (Some "0xabc") = Exits 1 MissingPrivateKey /\
  validateConfig (Some "") (Some "0xabc") = Exits 1 MissingPrivateKey /\
  validateConfig (Some ("0X" ++ sampleKey)%string) (Some "0xabc")
    = Exits 1 InvalidPrivateKeyFormat /\
  validateConfig (Some "0x1234") (Some "0xabc") = Exits 1 InvalidPrivateKeyFormat /\
  validateConfig (Some sampleKey) None = Exits 1 MissingFunderAddress /\
  validateConfig (Some sampleKey) (Some "anything") = Returns.
Proof. repeat split. Qed.

End ConfigProofs.

(* ===================================================================== *)
(** * Properties of the quoted CSV fields                                 *)
(* ===================================================================== *)

Module CsvProofs.
Import CsvExport.

Lemma readQuoted_doubleQuotes s : readQuoted (doubleQuotes s) = Some s.
Proof.
  induction s as [|c rest IH]; [reflexivity|].
  cbn [doubleQuotes]. destruct (Ascii.eqb_spec c dquote) as [->|N].
  - cbn [readQuoted]. rewrite Ascii.eqb_refl, IH. reflexivity.
  - cbn [readQuoted]. rewrite (proj2 (Ascii.eqb_neq _ _) N), IH. reflexivity.
Qed.

Lemma dropLast_snoc s c : dropLast (s ++ String c EmptyString) = s.
Proof.
  induction s as [|a rest IH]; [reflexivity|].
  cbn [String.append dropLast].
  destruct (rest ++ String c EmptyString)%string eqn:E.
  - destruct rest; discriminate E.
  - now rewrite IH.
Qed.

(** X25: the title and outcome columns of the CSV dump are quoted without
    loss: inside the outer double quotes every double quote of the text
    stands doubled, so a reader that takes a doubled quote for one quote
    gets the text back, and two different texts never give the same field;
    an absent title and an empty title both give a field of two quotes. *)
Theorem X25_quoted_field_round_trip :
  (forall s, readQuoted (fieldBody (quotedField (Some s))) = Some s) /\
  (forall a b, quotedField (Some a) = quotedField (Some b) -> a = b) /\
  quotedField None = quotedField (Some EmptyString).
Proof.
  assert (Hread : forall s, readQuoted (fieldBody (quotedField (Some s))) = Some s).
  { intros s. unfold quotedField, fieldBody, orEmpty.
    rewrite dropLast_snoc. apply readQuoted_doubleQuotes. }
  split; [exact Hread|]. split; [|reflexivity].
  intros a b E.
  assert (H : Some a = Some b).
  { rewrite <- (Hread a). rewrite E. apply Hread. }
  now injection H.
Qed.

End CsvProofs.

